(** * WhisperingX: the Dexie-backed recordings store

    A shallow embedding of
    [apps/app/src/lib/services/db/RecordingsService.svelte.dexie.ts]:
    the schema ledger declared in the [RecordingsDatabase] constructor, its
    upgrade functions and [handleUpgradeError], and the service object that
    [createRecordingsIndexedDbService] returns.

    JavaScript promises are sequenced ([await] is a bind), thrown values are
    an explicit outcome, and everything the code reaches outside itself
    (IndexedDB requests that can fail, the dialog, [nanoid], the clock) lives
    in an explicit world that is threaded through.

    Two small pieces of the code around the store are embedded as well:
    [preValidate] of
    [apps/app/src/lib/services/transcription/TranscriptionService.groq.ts]
    and the [mutationFn] of the transformation step in
    [apps/app/src/lib/query/transcriber/transcriber.ts]. *)

From Stdlib Require Import ZArith Ascii.
From stdpp Require Import gmap strings list fin_maps sorting pretty.


(* ================================================================== *)
(** * Thrown values and the effect monad *)
(* ================================================================== *)

(** The values this code can see thrown.  The first seven are raised by
    Dexie or the JavaScript engine on the paths the file exercises;
    [TransportError] stands for any failure of the storage engine itself
    (I/O, quota, corruption) and only ever enters through the fault schedule
    of the world. *)
Inductive JsError : Type :=
  | ConstraintError
  | DataError
  | BulkError (failures : nat)
  | InvalidTableError (table : string)
  | SchemaError (keyPath : string)
  | TypeError
  | VersionError
  | TransportError (code : nat).

#[global] Instance JsError_eq_dec : EqDecision JsError.
Proof. solve_decision. Defined.

Inductive Outcome (A : Type) : Type :=
  | Returned (a : A)
  | Thrown (e : JsError).
Arguments Returned {A} a.
Arguments Thrown {A} e.

(** A computation over a world [W]: it ends by returning or by throwing,
    and in both cases hands back the world it left behind. *)
Definition Eff (W A : Type) : Type := W → Outcome A * W.

Definition ret {W A} (a : A) : Eff W A := λ w, (Returned a, w).

Definition throw {W A} (e : JsError) : Eff W A := λ w, (Thrown e, w).

Definition bind {W A B} (c : Eff W A) (k : A → Eff W B) : Eff W B :=
  λ w, match c w with
       | (Returned a, w') => k a w'
       | (Thrown e, w') => (Thrown e, w')
       end.

(** [try { body } catch (error) { handler(error) }] *)
Definition try_catch {W A} (body : Eff W A) (handler : JsError → Eff W A)
  : Eff W A :=
  λ w, match body w with
       | (Returned a, w') => (Returned a, w')
       | (Thrown e, w') => handler e w'
       end.

Definition gets {W A} (f : W → A) : Eff W A := λ w, (Returned (f w), w).

Definition modify {W} (f : W → W) : Eff W unit := λ w, (Returned tt, f w).

Notation "'let!' x := c 'in' k" := (bind c (λ x, k))
  (at level 10, x name, c at level 100, k at level 200,
   format "'[v' 'let!'  x  :=  c  'in' '/' k ']'").
Notation "c1 ;;; c2" := (bind c1 (λ _, c2))
  (at level 100, c2 at level 200, right associativity).

(** [Promise.all(xs.map(f))]: every [f x] is started in the order of [xs]. *)
Fixpoint promise_all {W A B} (f : A → Eff W B) (xs : list A)
  : Eff W (list B) :=
  match xs with
  | [] => ret []
  | x :: xs' =>
      let! y := f x in
      let! ys := promise_all f xs' in
      ret (y :: ys)
  end.

(* ================================================================== *)
(** * The result type of [@epicenterhq/result] *)
(* ================================================================== *)

(** Modelled from the spec: [DbServiceErr] is imported from
    [./RecordingsService], which is not part of the sources at hand.  The
    specification describes it as a tagged error carrying a human-readable
    title and description plus the underlying cause. *)
Record DbServiceError : Type := DbServiceErr {
  title : string;
  description : string;
  error : JsError;
}.

Inductive Result (A : Type) : Type :=
  | Ok (data : A)
  | Err (err : DbServiceError).
Arguments Ok {A} data.
Arguments Err {A} err.

Definition is_ok {A} (r : Result A) : bool :=
  match r with Ok _ => true | Err _ => false end.

(** [tryAsync({ try, mapErr })]: run [try]; a thrown value is handed to
    [mapErr], whose tagged error becomes the failure outcome.  It never
    throws itself. *)
Definition tryAsync {W A} (try : Eff W A) (mapErr : JsError → DbServiceError)
  : Eff W (Result A) :=
  λ w, match try w with
       | (Returned a, w') => (Returned (Ok a), w')
       | (Thrown e, w') => (Returned (Err (mapErr e)), w')
       end.

(* ================================================================== *)
(** * The world *)
(* ================================================================== *)

Record Button : Type := { label : string }.

(** What [moreDetailsDialog.open] was called with.  The [onClick] closures
    of the buttons only run when the user presses them; they are kept as
    labels. *)
Record Dialog : Type := {
  dialog_title : string;
  dialog_description : string;
  dialog_content : string;
  dialog_buttons : list Button;
}.

Inductive UiEvent : Type :=
  | DialogOpened (d : Dialog)
  | ToastError (toast_title toast_description : string) (cause : DbServiceError).

(** [D] is the database the world holds, [L] the closure-local state of the
    code that runs ([unit] for the upgrade functions, the [$state] mirror
    for the service).

    [faults] is the fault schedule: every request sent to the storage
    engine consumes its head, and [Some e] makes that request fail with [e]
    without touching any data.  An exhausted schedule injects nothing. *)
Record World (D L : Type) : Type := mkWorld {
  db : D;
  faults : list (option JsError);
  ui : list UiEvent;
  nanoid_seq : nat → string;
  nanoid_calls : nat;
  clock : nat → string;
  clock_reads : nat;
  local : L;
}.
Arguments mkWorld {D L}.
Arguments db {D L}.
Arguments faults {D L}.
Arguments ui {D L}.
Arguments nanoid_seq {D L}.
Arguments nanoid_calls {D L}.
Arguments clock {D L}.
Arguments clock_reads {D L}.
Arguments local {D L}.

Section WorldOps.
Context {D L : Type}.
Implicit Types w : World D L.

Definition set_db (d : D) w : World D L :=
  mkWorld d (faults w) (ui w) (nanoid_seq w) (nanoid_calls w)
          (clock w) (clock_reads w) (local w).

Definition set_faults (fs : list (option JsError)) w : World D L :=
  mkWorld (db w) fs (ui w) (nanoid_seq w) (nanoid_calls w)
          (clock w) (clock_reads w) (local w).

Definition set_local (l : L) w : World D L :=
  mkWorld (db w) (faults w) (ui w) (nanoid_seq w) (nanoid_calls w)
          (clock w) (clock_reads w) l.

Definition log_ui (ev : UiEvent) w : World D L :=
  mkWorld (db w) (faults w) (ui w ++ [ev]) (nanoid_seq w) (nanoid_calls w)
          (clock w) (clock_reads w) (local w).

(** One request to the storage engine. *)
Definition request : Eff (World D L) unit :=
  λ w, match faults w with
       | Some e :: fs => (Thrown e, set_faults fs w)
       | None :: fs => (Returned tt, set_faults fs w)
       | [] => (Returned tt, w)
       end.

(** [nanoid()] *)
Definition nanoid : Eff (World D L) string :=
  λ w, (Returned (nanoid_seq w (nanoid_calls w)),
        mkWorld (db w) (faults w) (ui w) (nanoid_seq w) (S (nanoid_calls w))
                (clock w) (clock_reads w) (local w)).

(** [new Date().toISOString()] *)
Definition now_iso : Eff (World D L) string :=
  λ w, (Returned (clock w (clock_reads w)),
        mkWorld (db w) (faults w) (ui w) (nanoid_seq w) (nanoid_calls w)
                (clock w) (S (clock_reads w)) (local w)).
End WorldOps.

(* ================================================================== *)
(** * The storage engine: Dexie tables over IndexedDB object stores *)
(* ================================================================== *)

(** A row type knows its primary key ([&id] in every store this file
    declares) and the string found at a key path of the row, if there is
    one.  Strings are the only keys these stores use; they are compared
    code unit by code unit, which on [string] is [String.compare]. *)
Class Row (V : Type) : Type := {
  pk : V → option string;
  prop : string → V → option string;
}.

(** ['&id, timestamp'] is [{| primKey := "id"; indexes := ["timestamp"] |}]. *)
Record TableSchema : Type := {
  primKey : string;
  indexes : list string;
}.

(** An object store: at most one row per primary key. *)
Record Table (V : Type) : Type := mkTable {
  schema : TableSchema;
  rows : gmap string V;
}.
Arguments mkTable {V}.
Arguments schema {V}.
Arguments rows {V}.

(** A key path can drive [where] and [orderBy] only when the schema lists
    it. *)
Definition indexed (s : TableSchema) (keyPath : string) : Prop :=
  keyPath = primKey s ∨ keyPath ∈ indexes s.

#[global] Instance indexed_dec s keyPath : Decision (indexed s keyPath).
Proof. unfold indexed. apply _. Defined.

(** JavaScript numbers as far as this file computes with them: the
    doubles that are integers, the two infinities and [NaN]. *)
Inductive JsNum : Type :=
  | Num (z : Z)
  | PosInf
  | NegInf
  | NaN.

(** The double nearest to an integer.  Up to 2^53 every integer is a
    double; beyond, the integer is rounded to 53 significant bits, a tie
    going to the even neighbour, and what rounds to 2^1024 or more is an
    infinity. *)
Definition to_double (z : Z) : JsNum :=
  let a := Z.abs z in
  if (a <? 2 ^ 53)%Z then Num z else
  let e := (Z.log2 a - 52)%Z in
  let q := (a / 2 ^ e)%Z in
  let r := (a mod 2 ^ e)%Z in
  let half := (2 ^ (e - 1))%Z in
  let q' := if (half <? r)%Z || ((r =? half)%Z && Z.odd q)
            then (q + 1)%Z else q in
  let m := (q' * 2 ^ e)%Z in
  if (2 ^ 1024 <=? m)%Z then (if (z <? 0)%Z then NegInf else PosInf)
  else Num (Z.sgn z * m).

(** [a - b] *)
Definition num_sub (a b : JsNum) : JsNum :=
  match a, b with
  | Num x, Num y => to_double (x - y)
  | Num _, PosInf => NegInf
  | Num _, NegInf => PosInf
  | PosInf, Num _ => PosInf
  | NegInf, Num _ => NegInf
  | PosInf, NegInf => PosInf
  | NegInf, PosInf => NegInf
  | _, _ => NaN
  end.

(** [a <= b]; false as soon as one side is [NaN]. *)
Definition num_le (a b : JsNum) : bool :=
  match a, b with
  | NaN, _ | _, NaN => false
  | NegInf, _ | _, PosInf => true
  | Num x, Num y => (x <=? y)%Z
  | _, _ => false
  end.

Section Engine.
Context {V : Type} `{Row V}.

(** Cursor order of an object store: ascending primary key. *)
Definition key_order (a b : string * V) : Prop := (a.1 ≤ b.1)%string.

#[global] Instance key_order_dec a b : Decision (key_order a b).
Proof. unfold key_order. apply _. Defined.

Definition entries (t : Table V) : list (string * V) :=
  merge_sort key_order (map_to_list (rows t)).

Definition values (t : Table V) : list V := (entries t).*2.

(** Cursor order of an index: ascending index key, equal index keys by
    ascending primary key. *)
Definition index_order (a b : string * (string * V)) : Prop :=
  (a.1 ≠ b.1 ∧ (a.1 ≤ b.1)%string) ∨ (a.1 = b.1 ∧ (a.2.1 ≤ b.2.1)%string).

#[global] Instance index_order_dec a b : Decision (index_order a b).
Proof. unfold index_order. apply _. Defined.

(** A row appears in the index of [keyPath] only when it carries a key
    there. *)
Definition index_entry (keyPath : string) (e : string * V)
  : option (string * (string * V)) :=
  match prop keyPath e.2 with
  | Some ik => Some (ik, e)
  | None => None
  end.

Definition index_entries (keyPath : string) (t : Table V)
  : list (string * (string * V)) :=
  merge_sort index_order (omap (index_entry keyPath) (map_to_list (rows t))).

(** [Table.add]: the key must be extractable and new. *)
Definition add_row (r : V) (t : Table V) : Outcome (string * Table V) :=
  match pk r with
  | None => Thrown DataError
  | Some k =>
      match rows t !! k with
      | Some _ => Thrown ConstraintError
      | None => Returned (k, mkTable (schema t) (<[k := r]> (rows t)))
      end
  end.

(** [Table.put]: insert, or replace the row that has the key. *)
Definition put_row (r : V) (t : Table V) : Outcome (string * Table V) :=
  match pk r with
  | None => Thrown DataError
  | Some k => Returned (k, mkTable (schema t) (<[k := r]> (rows t)))
  end.

Definition delete_key (k : string) (t : Table V) : Table V :=
  mkTable (schema t) (delete k (rows t)).

Definition delete_keys (ks : list string) (t : Table V) : Table V :=
  mkTable (schema t) (foldr delete (rows t) ks).

(** [Table.bulkAdd]: every row is attempted; the ones that can be added
    are, and the number of the others is reported. *)
Fixpoint bulk_add_rows (rs : list V) (t : Table V) : Table V * nat :=
  match rs with
  | [] => (t, 0)
  | r :: rs' =>
      match add_row r t with
      | Returned (_, t') => bulk_add_rows rs' t'
      | Thrown _ => let '(t', n) := bulk_add_rows rs' t in (t', S n)
      end
  end.

(** A [Collection]: what [where(...).equals(...)], [orderBy(...)],
    [reverse()] and [limit(...)] build up before anything is read. *)
Record Collection : Type := mkCollection {
  c_keyPath : string;
  c_equals : option string;
  c_reverse : bool;
  c_limit : option JsNum;
}.

Definition where_equals (keyPath key : string) : Collection :=
  mkCollection keyPath (Some key) false None.

Definition orderBy (keyPath : string) : Collection :=
  mkCollection keyPath None false None.

Definition reversed (c : Collection) : Collection :=
  mkCollection (c_keyPath c) (c_equals c) (negb (c_reverse c)) (c_limit c).

Definition limit (n : JsNum) (c : Collection) : Collection :=
  mkCollection (c_keyPath c) (c_equals c) (c_reverse c) (Some n).

(** The first [z] elements of a list, all of them when it has fewer.  [z]
    may exceed the length by far, so it is cut down to the length before
    it is counted out. *)
Definition first_rows {A} (z : Z) (l : list A) : list A :=
  take (Z.to_nat (Z.min z (Z.of_nat (length l)))) l.

(** What [limit(numRows)] lets through.  A collection without a limit
    has the limit [Infinity] and yields everything.  A limit that is not
    above zero ([0], a negative number, [-Infinity], [NaN]) is read through
    a cursor whose filter counts [numRows] down and accepts nothing.  A
    forward collection with a limit above zero is read in one
    [getAll]/[getAllKeys] call that is handed the limit as its [count],
    an [unsigned long] under [EnforceRange]: from 2^32 on the call throws a
    [TypeError] before anything is read.  A reversed collection goes
    through the counting cursor whatever the limit. *)
Definition apply_limit {A} (reverse : bool) (n : option JsNum) (l : list A)
  : Outcome (list A) :=
  match n with
  | None | Some PosInf => Returned l
  | Some NaN | Some NegInf => Returned []
  | Some (Num z) =>
      if (z <=? 0)%Z then Returned []
      else if reverse then Returned (first_rows z l)
      else if (z <? 2 ^ 32)%Z then Returned (first_rows z l)
      else Thrown TypeError
  end.

(** The (primary key, row) pairs a collection yields, in cursor order.
    Reading through a key path that is not indexed is a [SchemaError],
    found before the limit is looked at. *)
Definition scan (c : Collection) (t : Table V)
  : Outcome (list (string * V)) :=
  if decide (indexed (schema t) (c_keyPath c)) then
    let es := index_entries (c_keyPath c) t in
    let es := match c_equals c with
              | Some key => filter (λ e, e.1 = key) es
              | None => es
              end in
    let es := if c_reverse c then reverse es else es in
    match apply_limit (c_reverse c) (c_limit c) es with
    | Returned es => Returned es.*2
    | Thrown e => Thrown e
    end
  else Thrown (SchemaError (c_keyPath c)).

(** The comparator [sortBy] builds.  [order] is [1] for a forward
    collection and [-1] for a reversed one; two values that are not both
    strings compare as equal. *)
Definition sorter (keyPath : string) (order : Z) (a b : V) : Z :=
  match prop keyPath a, prop keyPath b with
  | Some aVal, Some bVal =>
      match String.compare aVal bVal with
      | Lt => - order
      | Gt => order
      | Eq => 0
      end
  | _, _ => 0
  end%Z.

(** [Array.prototype.sort] with a comparator: a stable sort. *)
Fixpoint sort_insert (cmp : V → V → Z) (x : V) (l : list V) : list V :=
  match l with
  | [] => [x]
  | y :: l' =>
      if (cmp x y <=? 0)%Z then x :: y :: l' else y :: sort_insert cmp x l'
  end.

Definition array_sort (cmp : V → V → Z) (l : list V) : list V :=
  foldr (sort_insert cmp) [] l.
End Engine.

(** How code reaches a table: [db.recordings] in the service,
    [tx.table('recordings')] in an upgrade.  [h_get] answers [None] when
    the database has no such table; using the handle then throws
    [h_missing]. *)
Record Handle (D V : Type) : Type := mkHandle {
  h_get : D → option (Table V);
  h_set : Table V → D → D;
  h_missing : JsError;
}.
Arguments mkHandle {D V}.
Arguments h_get {D V}.
Arguments h_set {D V}.
Arguments h_missing {D V}.

Section TableOps.
Context {D L V : Type} `{Row V}.
#[local] Abbreviation W := (World D L).

Definition resolve (h : Handle D V) : Eff W (Table V) :=
  λ w, match h_get h (db w) with
       | Some t => (Returned t, w)
       | None => (Thrown (h_missing h), w)
       end.

Definition store_table (h : Handle D V) (t : Table V) : Eff W unit :=
  modify (λ w, set_db (h_set h t (db w)) w).

Definition toArray (h : Handle D V) : Eff W (list V) :=
  let! t := resolve h in
  request ;;; ret (values t).

Definition get (h : Handle D V) (k : string) : Eff W (option V) :=
  let! t := resolve h in
  request ;;; ret (rows t !! k).

(** [Table.count()]: the number of rows, which a JavaScript number holds
    as it is while a table has fewer than 2^53 rows. *)
Definition count (h : Handle D V) : Eff W JsNum :=
  let! t := resolve h in
  request ;;; ret (Num (Z.of_nat (size (rows t)))).

Definition add (h : Handle D V) (r : V) : Eff W string :=
  let! t := resolve h in
  request ;;;
  match add_row r t with
  | Returned (k, t') => store_table h t' ;;; ret k
  | Thrown e => throw e
  end.

Definition put (h : Handle D V) (r : V) : Eff W string :=
  let! t := resolve h in
  request ;;;
  match put_row r t with
  | Returned (k, t') => store_table h t' ;;; ret k
  | Thrown e => throw e
  end.

Definition delete_ (h : Handle D V) (k : string) : Eff W unit :=
  let! t := resolve h in
  request ;;; store_table h (delete_key k t).

Definition bulkDelete (h : Handle D V) (ks : list string) : Eff W unit :=
  let! t := resolve h in
  request ;;; store_table h (delete_keys ks t).

Definition bulkAdd (h : Handle D V) (rs : list V) : Eff W unit :=
  let! t := resolve h in
  request ;;;
  let '(t', failed) := bulk_add_rows rs t in
  store_table h t' ;;;
  match failed with
  | O => ret tt
  | S _ => throw (BulkError failed)
  end.

Definition run_scan (h : Handle D V) (c : Collection)
  : Eff W (list (string * V)) :=
  let! t := resolve h in
  match scan c t with
  | Returned es => request ;;; ret es
  | Thrown e => throw e
  end.

(** [collection.toArray()] *)
Definition c_toArray (h : Handle D V) (c : Collection) : Eff W (list V) :=
  let! es := run_scan h c in
  ret es.*2.

(** [collection.primaryKeys()] *)
Definition c_primaryKeys (h : Handle D V) (c : Collection)
  : Eff W (list string) :=
  let! es := run_scan h c in
  ret es.*1.

(** [collection.sortBy(keyPath)] *)
Definition c_sortBy (h : Handle D V) (c : Collection) (keyPath : string)
  : Eff W (list V) :=
  let order := if c_reverse c then (-1)%Z else 1%Z in
  let! a := c_toArray h c in
  ret (array_sort (sorter keyPath order) a).
End TableOps.

(* ================================================================== *)
(** * Schema ledger and upgrades: the [RecordingsDatabase] constructor *)
(* ================================================================== *)

Definition DB_NAME : string := "RecordingDB".
Definition DB_VERSION : nat := 4.

(** Rows as the upgrade functions see them: plain objects, whose shape the
    rest pattern and the spread change.  [RecordingsDbSchemaV1] puts strings
    in every property except [blob], which is a [Blob] or [undefined]. *)
Inductive Val : Type :=
  | VUndef
  | VStr (s : string)
  | VBlob (data : string).

#[global] Instance Val_eq_dec : EqDecision Val.
Proof. solve_decision. Defined.

Abbreviation Obj := (gmap string Val).

(** [o.p]: [undefined] when the object has no such property. *)
Definition field (p : string) (o : Obj) : Val := default VUndef (o !! p).

(** [a === b].  Two blobs are two objects, each made by its own read, so
    they are never identical. *)
Definition strict_eq (a b : Val) : bool :=
  match a, b with
  | VUndef, VUndef => true
  | VStr x, VStr y => bool_decide (x = y)
  | _, _ => false
  end.

Definition str_prop (p : string) (o : Obj) : option string :=
  match o !! p with
  | Some (VStr s) => Some s
  | _ => None
  end.

#[global] Instance Obj_Row : Row Obj := {|
  pk := str_prop "id";
  prop := str_prop;
|}.

(** The IndexedDB database as it is persisted: its version (0 before the
    database exists) and its object stores by name. *)
Record Store : Type := mkStore {
  version : nat;
  tables : gmap string (Table Obj);
}.

(** [tx.table(name)] *)
Definition tx_table (name : string) : Handle Store Obj :=
  mkHandle (λ s, tables s !! name)
           (λ t s, mkStore (version s) (<[name := t]> (tables s)))
           (InvalidTableError name).

(** What [JSON.stringify] is given. *)
Record DumpState : Type := {
  dump_version : nat;
  dump_tables : list (string * list Obj);
}.

Section Upgrades.
(** [JSON.stringify(dumpState, null, 2)], total on rows of strings and
    blobs. *)
Variable JSON_stringify : DumpState → string.

#[local] Abbreviation W := (World Store unit).

(** Modelled from the spec: [moreDetailsDialog] is a component that is
    not part of the sources at hand; [open] "surfaces a blocking dialog",
    which here is an entry in the log of what the user was shown. *)
Definition moreDetailsDialog_open (d : Dialog) : Eff W unit :=
  modify (log_ui (DialogOpened d)).

Definition DUMP_TABLE_NAMES : list string :=
  ["recordings"; "recordingMetadata"; "recordingBlobs"].

Definition dumpTable (tableName : string) : Eff W (list Obj) :=
  try_catch
    (let! contents := toArray (tx_table tableName) in
     ret contents)
    (λ _, ret []).

Definition upgrade_dialog (version : nat) (dumpString : string) : Dialog := {|
  dialog_title :=
    "Failed to upgrade IndexedDb Database to version " +:+ pretty version;
  dialog_description :=
    "Please download the database dump and delete the database to start fresh.";
  dialog_content := dumpString;
  dialog_buttons :=
    [ {| label := "Delete Database" |};
      {| label := "Download Database Dump" |} ];
|}.

(** [Promise.all] answers one dump per name, so pairing name [i] with
    [dumps[i]] is a zip. *)
Definition handleUpgradeError (version : nat) (error : JsError)
  : Eff W unit :=
  let! dumps := promise_all dumpTable DUMP_TABLE_NAMES in
  let dumpState := {| dump_version := version;
                      dump_tables := zip DUMP_TABLE_NAMES dumps |} in
  let dumpString := JSON_stringify dumpState in
  moreDetailsDialog_open (upgrade_dialog version dumpString) ;;;
  throw error.

(** The body of the [try] of [version(2).upgrade]. *)
Definition split_recordings : Eff W unit :=
  let! oldRecordings := toArray (tx_table "recordings") in
  let metadata := (λ o : Obj, delete "blob" o) <$> oldRecordings in
  let blobs :=
    (λ o : Obj, ({[ "id" := field "id" o; "blob" := field "blob" o ]} : Obj))
      <$> oldRecordings in
  bulkAdd (tx_table "recordingMetadata") metadata ;;;
  bulkAdd (tx_table "recordingBlobs") blobs.

Definition upgrade_v2 : Eff W unit :=
  try_catch split_recordings (λ error, handleUpgradeError 2 error).

(** [blobs.find((b) => b.id === record.id)?.blob] *)
Definition blob_of (blobs : list Obj) (record : Obj) : Val :=
  match List.find (λ b, strict_eq (field "id" b) (field "id" record)) blobs with
  | Some b => field "blob" b
  | None => VUndef
  end.

(** The body of the [try] of [version(3).upgrade]. *)
Definition merge_recordings : Eff W unit :=
  let! metadata := toArray (tx_table "recordingMetadata") in
  let! blobs := toArray (tx_table "recordingBlobs") in
  let mergedRecordings :=
    (λ record : Obj, <["blob" := blob_of blobs record]> record)
      <$> metadata in
  bulkAdd (tx_table "recordings") mergedRecordings.

Definition upgrade_v3 : Eff W unit :=
  try_catch merge_recordings (λ error, handleUpgradeError 3 error).

(** One [this.version(n).stores({...}).upgrade(...)] declaration; [None]
    for a store is [null]. *)
Record VersionDecl : Type := {
  v_number : nat;
  v_stores : list (string * option TableSchema);
  v_upgrade : option (Eff W unit);
}.

Definition id_timestamp : TableSchema :=
  {| primKey := "id"; indexes := ["timestamp"] |}.
Definition id_only : TableSchema :=
  {| primKey := "id"; indexes := [] |}.

(** The declarations of the constructor, in the order it makes them. *)
Definition versions : list VersionDecl :=
  [ {| v_number := 1;
       v_stores := [("recordings", Some id_timestamp)];
       v_upgrade := None |};
    {| v_number := 2;
       v_stores := [("recordings", None);
                    ("recordingMetadata", Some id_timestamp);
                    ("recordingBlobs", Some id_only)];
       v_upgrade := Some upgrade_v2 |};
    {| v_number := 3;
       v_stores := [("recordings", Some id_timestamp);
                    ("recordingMetadata", None);
                    ("recordingBlobs", None)];
       v_upgrade := Some upgrade_v3 |} ].

(** ** Dexie's [open]

    Dexie merges the [stores] of the versions up to [n] into the schema of
    version [n].  Opening a database stored at version [v > 0] runs, in one
    versionchange transaction and in ascending version order, every
    declared version above [v]: create the stores that are new in its
    schema, run its upgrade function with the stores about to be dropped
    still readable, then drop the stores its schema no longer lists.  A
    throwing upgrade function aborts the transaction, and IndexedDB then
    leaves the database exactly as it was, version included. *)

Definition extend_schema (sch : gmap string TableSchema)
    (spec : list (string * option TableSchema)) : gmap string TableSchema :=
  foldl (λ acc e, match e.2 with
                  | Some ts => <[e.1 := ts]> acc
                  | None => delete e.1 acc
                  end) sch spec.

Definition schema_upto (n : nat) (vs : list VersionDecl)
  : gmap string TableSchema :=
  foldl (λ acc v, extend_schema acc (v_stores v)) ∅
        (filter (λ v, v_number v ≤ n) vs).

Definition target_version (vs : list VersionDecl) : nat :=
  foldr (λ v acc, v_number v `max` acc) 0 vs.

(** [createObjectStore] *)
Definition create_table (e : string * TableSchema) : Eff W unit :=
  λ w, match tables (db w) !! e.1 with
       | Some _ => (Thrown ConstraintError, w)
       | None => (Returned tt,
                  set_db (mkStore (version (db w))
                                  (<[e.1 := mkTable e.2 ∅]> (tables (db w)))) w)
       end.

Fixpoint create_tables (es : list (string * TableSchema)) : Eff W unit :=
  match es with
  | [] => ret tt
  | e :: es' => create_table e ;;; create_tables es'
  end.

(** An index change on a store that stays keeps the rows.  (Dexie refuses
    a changed primary key; no declared version changes one.) *)
Definition adopt_schemas (sch : gmap string TableSchema) : Eff W unit :=
  modify (λ w, set_db
    (mkStore (version (db w))
             (map_imap (λ name t, Some (mkTable (default (schema t) (sch !! name))
                                                (rows t)))
                       (tables (db w)))) w).

Definition drop_removed (sch : gmap string TableSchema) : Eff W unit :=
  modify (λ w, set_db
    (mkStore (version (db w))
             (filter (λ e, is_Some (sch !! e.1)) (tables (db w)))) w).

Definition run_version (vs : list VersionDecl) (v : VersionDecl)
  : Eff W unit :=
  let newSchema := schema_upto (v_number v) vs in
  let! existing := gets (λ w, tables (db w)) in
  create_tables
    (filter (λ e, existing !! e.1 = None) (map_to_list newSchema)) ;;;
  adopt_schemas newSchema ;;;
  match v_upgrade v with
  | Some contentUpgrade => contentUpgrade
  | None => ret tt
  end ;;;
  drop_removed newSchema.

Fixpoint run_versions (vs : list VersionDecl) (pending : list VersionDecl)
  : Eff W unit :=
  match pending with
  | [] => ret tt
  | v :: pending' => run_version vs v ;;; run_versions vs pending'
  end.

Definition open (vs : list VersionDecl) : Eff W unit :=
  λ w,
    let stored := db w in
    let target := target_version vs in
    if decide (version stored = 0) then
      (* no database yet: the stores of the newest schema are created and
         no upgrade function runs *)
      (Returned tt,
       set_db (mkStore target
                       ((λ ts, mkTable ts ∅) <$> schema_upto target vs)) w)
    else if decide (target < version stored) then
      (* IndexedDB refuses a version below the stored one *)
      (Thrown VersionError, w)
    else
      match run_versions vs (filter (λ v, version stored < v_number v) vs) w with
      | (Returned _, w') =>
          (Returned tt, set_db (mkStore target (tables (db w'))) w')
      | (Thrown e, w') => (Thrown e, set_db stored w')
      end.
End Upgrades.

(* ================================================================== *)
(** * The rows of schema v4 *)
(* ================================================================== *)

(** [RecordingsDbSchemaV4] as it is typed.  Each record sits in a module of
    its own so that the fields keep the names they have in the source. *)

Inductive TranscriptionStatus : Type := UNPROCESSED | TRANSCRIBING | DONE.

Definition TranscriptionStatus_str (s : TranscriptionStatus) : string :=
  match s with
  | UNPROCESSED => "UNPROCESSED"
  | TRANSCRIBING => "TRANSCRIBING"
  | DONE => "DONE"
  end.

Inductive RunStatus : Type := running | completed | failed.

Definition RunStatus_str (s : RunStatus) : string :=
  match s with
  | running => "running"
  | completed => "completed"
  | failed => "failed"
  end.

Inductive TransformationType : Type := find_replace | prompt_transform.

Module Recording.
Record t : Type := mk {
  id : string;
  title : string;
  subtitle : string;
  createdAt : string;
  updatedAt : string;
  transcribedText : string;
  blob : option string;
  transcriptionStatus : TranscriptionStatus;
}.

Definition prop (p : string) (r : t) : option string :=
  if decide (p = "id") then Some (id r)
  else if decide (p = "title") then Some (title r)
  else if decide (p = "subtitle") then Some (subtitle r)
  else if decide (p = "createdAt") then Some (createdAt r)
  else if decide (p = "updatedAt") then Some (updatedAt r)
  else if decide (p = "transcribedText") then Some (transcribedText r)
  else if decide (p = "transcriptionStatus")
       then Some (TranscriptionStatus_str (transcriptionStatus r))
  else None.
End Recording.

Module Transformation.
Record t : Type := mk {
  id : string;
  name : string;
  description : string;
  createdAt : string;
  updatedAt : string;
  type : TransformationType;
  find_replace_findText : string;
  find_replace_replaceText : string;
  find_replace_useRegex : bool;
  prompt_transform_model : string;
  prompt_transform_systemPromptTemplate : string;
  prompt_transform_userPromptTemplate : string;
}.

Definition prop (p : string) (r : t) : option string :=
  if decide (p = "id") then Some (id r)
  else if decide (p = "name") then Some (name r)
  else if decide (p = "description") then Some (description r)
  else if decide (p = "createdAt") then Some (createdAt r)
  else if decide (p = "updatedAt") then Some (updatedAt r)
  else None.
End Transformation.

Module PipelineStep.
Record t : Type := mk {
  transformationId : string;
  enabled : bool;
}.
End PipelineStep.

Module Pipeline.
Record t : Type := mk {
  id : string;
  title : string;
  description : string;
  createdAt : string;
  updatedAt : string;
  transformations : list PipelineStep.t;
}.

Definition prop (p : string) (r : t) : option string :=
  if decide (p = "id") then Some (id r)
  else if decide (p = "title") then Some (title r)
  else if decide (p = "description") then Some (description r)
  else if decide (p = "createdAt") then Some (createdAt r)
  else if decide (p = "updatedAt") then Some (updatedAt r)
  else None.
End Pipeline.

Module PipelineRun.
Record t : Type := mk {
  id : string;
  pipelineId : string;
  recordingId : string;
  input : string;
  status : RunStatus;
  startedAt : string;
  completedAt : option string;
  error : option string;
  output : option string;
}.

(** [null] is no string: a [None] here stays [None]. *)
Definition prop (p : string) (r : t) : option string :=
  if decide (p = "id") then Some (id r)
  else if decide (p = "pipelineId") then Some (pipelineId r)
  else if decide (p = "recordingId") then Some (recordingId r)
  else if decide (p = "input") then Some (input r)
  else if decide (p = "status") then Some (RunStatus_str (status r))
  else if decide (p = "startedAt") then Some (startedAt r)
  else if decide (p = "completedAt") then completedAt r
  else if decide (p = "error") then error r
  else if decide (p = "output") then output r
  else None.
End PipelineRun.

Module TransformationResult.
Record t : Type := mk {
  id : string;
  pipelineRunId : string;
  transformationId : string;
  status : RunStatus;
  startedAt : string;
  completedAt : option string;
  error : option string;
  output : option string;
}.

Definition prop (p : string) (r : t) : option string :=
  if decide (p = "id") then Some (id r)
  else if decide (p = "pipelineRunId") then Some (pipelineRunId r)
  else if decide (p = "transformationId") then Some (transformationId r)
  else if decide (p = "status") then Some (RunStatus_str (status r))
  else if decide (p = "startedAt") then Some (startedAt r)
  else if decide (p = "completedAt") then completedAt r
  else if decide (p = "error") then error r
  else if decide (p = "output") then output r
  else None.
End TransformationResult.

#[global] Instance Recording_Row : Row Recording.t :=
  {| pk r := Some (Recording.id r); prop := Recording.prop |}.
#[global] Instance Transformation_Row : Row Transformation.t :=
  {| pk r := Some (Transformation.id r); prop := Transformation.prop |}.
#[global] Instance Pipeline_Row : Row Pipeline.t :=
  {| pk r := Some (Pipeline.id r); prop := Pipeline.prop |}.
#[global] Instance PipelineRun_Row : Row PipelineRun.t :=
  {| pk r := Some (PipelineRun.id r); prop := PipelineRun.prop |}.
#[global] Instance TransformationResult_Row : Row TransformationResult.t :=
  {| pk r := Some (TransformationResult.id r);
     prop := TransformationResult.prop |}.

(** The table properties of [class RecordingsDatabase].  Dexie defines such
    a property only for a store that the declared schema lists; otherwise it
    stays [undefined] ([None]) and every use of it is a [TypeError]. *)
Record RecordingsDatabase : Type := mkDb {
  recordings : option (Table Recording.t);
  pipelines : option (Table Pipeline.t);
  transformations : option (Table Transformation.t);
  pipelineRuns : option (Table PipelineRun.t);
  transformationResults : option (Table TransformationResult.t);
}.

Definition db_recordings : Handle RecordingsDatabase Recording.t :=
  mkHandle recordings
    (λ t d, mkDb (Some t) (pipelines d) (transformations d) (pipelineRuns d)
                 (transformationResults d))
    TypeError.

Definition db_pipelines : Handle RecordingsDatabase Pipeline.t :=
  mkHandle pipelines
    (λ t d, mkDb (recordings d) (Some t) (transformations d) (pipelineRuns d)
                 (transformationResults d))
    TypeError.

Definition db_transformations : Handle RecordingsDatabase Transformation.t :=
  mkHandle transformations
    (λ t d, mkDb (recordings d) (pipelines d) (Some t) (pipelineRuns d)
                 (transformationResults d))
    TypeError.

Definition db_pipelineRuns : Handle RecordingsDatabase PipelineRun.t :=
  mkHandle pipelineRuns
    (λ t d, mkDb (recordings d) (pipelines d) (transformations d) (Some t)
                 (transformationResults d))
    TypeError.

Definition db_transformationResults
  : Handle RecordingsDatabase TransformationResult.t :=
  mkHandle transformationResults
    (λ t d, mkDb (recordings d) (pipelines d) (transformations d)
                 (pipelineRuns d) (Some t))
    TypeError.

(** ** [db.transaction('rw', tables, body)] *)

Inductive TableName : Type :=
  | T_recordings | T_pipelines | T_transformations
  | T_pipelineRuns | T_transformationResults.

Definition defined (n : TableName) (d : RecordingsDatabase) : bool :=
  match n with
  | T_recordings => bool_decide (is_Some (recordings d))
  | T_pipelines => bool_decide (is_Some (pipelines d))
  | T_transformations => bool_decide (is_Some (transformations d))
  | T_pipelineRuns => bool_decide (is_Some (pipelineRuns d))
  | T_transformationResults => bool_decide (is_Some (transformationResults d))
  end.

(** Put table [n] of [cur] back to what it is in [old]. *)
Definition revert_table (old : RecordingsDatabase) (n : TableName)
    (cur : RecordingsDatabase) : RecordingsDatabase :=
  match n with
  | T_recordings =>
      mkDb (recordings old) (pipelines cur) (transformations cur)
           (pipelineRuns cur) (transformationResults cur)
  | T_pipelines =>
      mkDb (recordings cur) (pipelines old) (transformations cur)
           (pipelineRuns cur) (transformationResults cur)
  | T_transformations =>
      mkDb (recordings cur) (pipelines cur) (transformations old)
           (pipelineRuns cur) (transformationResults cur)
  | T_pipelineRuns =>
      mkDb (recordings cur) (pipelines cur) (transformations cur)
           (pipelineRuns old) (transformationResults cur)
  | T_transformationResults =>
      mkDb (recordings cur) (pipelines cur) (transformations cur)
           (pipelineRuns cur) (transformationResults old)
  end.

(** The body runs against the tables of [scope]; when it throws, the
    transaction aborts, the tables of [scope] are as they were before it
    began, and the thrown value is passed on.  Naming a table that is
    [undefined] throws before the body starts. *)
Definition transaction {L A} (scope : list TableName)
    (body : Eff (World RecordingsDatabase L) A)
  : Eff (World RecordingsDatabase L) A :=
  λ w,
    if forallb (λ n, defined n (db w)) scope then
      match body w with
      | (Returned a, w') => (Returned a, w')
      | (Thrown e, w') =>
          (Thrown e, set_db (foldr (revert_table (db w)) (db w') scope) w')
      end
    else (Thrown TypeError, w).

(* ================================================================== *)
(** * [Number.parseInt] *)
(* ================================================================== *)

(** Leading white space, an optional sign, an optional [0x] prefix, then
    the longest run of digits; [NaN] when that run is empty, and else the
    double nearest to the integer the digits spell.

    A character of a [string] stands for the UTF-16 code unit of the same
    number, so the strings of this file are the JavaScript strings whose
    code units are all below 256.  Of those code units, JavaScript's white
    space and line terminators are 9 to 13, 32 and 160 (the no-break
    space). *)

Definition is_white (a : ascii) : bool :=
  let n := nat_of_ascii a in
  bool_decide (n = 32) || bool_decide (n = 160)
  || (bool_decide (9 ≤ n) && bool_decide (n ≤ 13)).

Fixpoint skip_white (s : string) : string :=
  match s with
  | String a s' => if is_white a then skip_white s' else s
  | EmptyString => s
  end.

Definition digit_value (radix : Z) (a : ascii) : option Z :=
  let n := Z.of_nat (nat_of_ascii a) in
  let d := if bool_decide (48 ≤ n ≤ 57)%Z then Some (n - 48)%Z
           else if bool_decide (97 ≤ n ≤ 122)%Z then Some (n - 87)%Z
           else if bool_decide (65 ≤ n ≤ 90)%Z then Some (n - 55)%Z
           else None in
  match d with
  | Some v => if bool_decide (v < radix)%Z then Some v else None
  | None => None
  end.

Fixpoint digits (radix : Z) (acc : option Z) (s : string) : option Z :=
  match s with
  | String a s' =>
      match digit_value radix a with
      | Some v => digits radix (Some (default 0 acc * radix + v)%Z) s'
      | None => acc
      end
  | EmptyString => acc
  end.

Definition parseInt (input : string) : JsNum :=
  let s := skip_white input in
  let '(sign, s) :=
    match s with
    | String "-"%char s' => ((-1)%Z, s')
    | String "+"%char s' => (1%Z, s')
    | _ => (1%Z, s)
    end in
  let '(radix, s) :=
    match s with
    | String "0"%char (String "x"%char s') => (16%Z, s')
    | String "0"%char (String "X"%char s') => (16%Z, s')
    | _ => (10%Z, s)
    end in
  match digits radix None s with
  | Some n => to_double (sign * n)
  | None => NaN
  end.

(** [a === b] *)
Definition num_eq (a b : JsNum) : bool :=
  match a, b with
  | Num x, Num y => (x =? y)%Z
  | PosInf, PosInf | NegInf, NegInf => true
  | _, _ => false
  end.

(* ================================================================== *)
(** * The service: [createRecordingsIndexedDbService] *)
(* ================================================================== *)

Inductive RetentionStrategy : Type := keep_forever | limit_count.

(** Modelled from the spec: the type [Settings] comes from [@repo/shared],
    which is not part of the sources at hand.  These are the two settings
    [cleanupExpiredRecordings] destructures,
    ['database.recordingRetentionStrategy'] ("a retention strategy
    selector ... [keep-forever] | [limit-count]") and
    ['database.maxRecordingCount'] (its "maximum count", a string that the
    function parses). *)
Record Settings : Type := {
  database_recordingRetentionStrategy : RetentionStrategy;
  database_maxRecordingCount : string;
}.

(** The world of the service: the database, and in [local] the [$state]
    array [recordings] of the closure. *)
Abbreviation ServiceWorld := (World RecordingsDatabase (list Recording.t)).

Section Service.
#[local] Abbreviation W := ServiceWorld.

Definition please (title : string) (error : JsError) : DbServiceError :=
  DbServiceErr title "Please try again" error.

Definition syncDbToRecordingsState : Eff W unit :=
  let! allRecordingsFromDbResult :=
    tryAsync (let! all := toArray db_recordings in ret all)
             (please "Error getting recordings from Dexie") in
  match allRecordingsFromDbResult with
  | Err e =>
      modify (log_ui (ToastError
        "Failed to initialize recordings"
        "Unable to load your recordings from the database. This could be due to browser storage issues or corrupted data."
        e))
  | Ok data => modify (set_local data)
  end.

(** [get recordings()] *)
Definition get_recordings : Eff W (list Recording.t) := gets local.

Definition getRecording (id : string)
  : Eff W (Result (option Recording.t)) :=
  tryAsync
    (let! recording := get db_recordings id in
     ret recording)
    (please "Error getting recording from Dexie").

Definition addRecording (recording : Recording.t) : Eff W (Result unit) :=
  let! addRecordingResult :=
    tryAsync (add db_recordings recording ;;; ret tt)
             (please "Error adding recording to Dexie") in
  match addRecordingResult with
  | Err e => ret (Err e)
  | Ok _ =>
      modify (λ w, set_local (local w ++ [recording]) w) ;;;
      ret (Ok tt)
  end.

Definition updateRecording (recording : Recording.t) : Eff W (Result unit) :=
  let! updateRecordingResult :=
    tryAsync (put db_recordings recording ;;; ret tt)
             (please "Error updating recording in Dexie") in
  match updateRecordingResult with
  | Err e => ret (Err e)
  | Ok _ =>
      modify (λ w, set_local
        ((λ r, if decide (Recording.id r = Recording.id recording)
               then recording else r) <$> local w) w) ;;;
      ret (Ok tt)
  end.

Definition deleteRecording (recording : Recording.t) : Eff W (Result unit) :=
  let! deleteRecordingByIdResult :=
    tryAsync (delete_ db_recordings (Recording.id recording))
             (please "Error deleting recording from Dexie") in
  match deleteRecordingByIdResult with
  | Err e => ret (Err e)
  | Ok _ =>
      modify (λ w, set_local
        (filter (λ r, Recording.id r ≠ Recording.id recording) (local w)) w) ;;;
      ret (Ok tt)
  end.

Definition deleteRecordings (recordingsToDelete : list Recording.t)
  : Eff W (Result unit) :=
  let ids := Recording.id <$> recordingsToDelete in
  tryAsync (bulkDelete db_recordings ids)
           (please "Error deleting recordings from Dexie").

(** ** Pipelines *)

Definition getAllPipelines : Eff W (Result (list Pipeline.t)) :=
  tryAsync (let! all := toArray db_pipelines in ret all)
           (please "Error getting all pipelines from Dexie").

Definition addPipeline (pipeline : Pipeline.t) : Eff W (Result unit) :=
  tryAsync (add db_pipelines pipeline ;;; ret tt)
           (please "Error adding pipeline to Dexie").

Definition updatePipeline (pipeline : Pipeline.t) : Eff W (Result unit) :=
  tryAsync (put db_pipelines pipeline ;;; ret tt)
           (please "Error updating pipeline in Dexie").

Definition deletePipeline (pipeline : Pipeline.t) : Eff W (Result unit) :=
  tryAsync (delete_ db_pipelines (Pipeline.id pipeline))
           (please "Error deleting pipeline from Dexie").

Definition deletePipelineWithAssociatedTransformations
    (pipeline : Pipeline.t) : Eff W (Result unit) :=
  tryAsync
    (transaction [T_pipelines; T_transformations]
       (delete_ db_pipelines (Pipeline.id pipeline) ;;;
        let transformationIds :=
          PipelineStep.transformationId <$> Pipeline.transformations pipeline in
        bulkDelete db_transformations transformationIds))
    (please "Error deleting pipeline from Dexie").

(** ** Transformations *)

Definition getAllTransformations : Eff W (Result (list Transformation.t)) :=
  tryAsync (toArray db_transformations)
           (please "Error getting all transformations from Dexie").

Definition addTransformation (transformation : Transformation.t)
  : Eff W (Result unit) :=
  let! addTransformationResult :=
    tryAsync (add db_transformations transformation)
             (please "Error adding transformation to Dexie") in
  match addTransformationResult with
  | Err e => ret (Err e)
  | Ok _ => ret (Ok tt)
  end.

Definition updateTransformation (transformation : Transformation.t)
  : Eff W (Result unit) :=
  let! updateTransformationResult :=
    tryAsync (put db_transformations transformation)
             (please "Error updating transformation in Dexie") in
  match updateTransformationResult with
  | Err e => ret (Err e)
  | Ok _ => ret (Ok tt)
  end.

Definition deleteTransformation (transformation : Transformation.t)
  : Eff W (Result unit) :=
  let! deleteTransformationResult :=
    tryAsync (delete_ db_transformations (Transformation.id transformation))
             (please "Error deleting transformation from Dexie") in
  match deleteTransformationResult with
  | Err e => ret (Err e)
  | Ok _ => ret (Ok tt)
  end.

(** ** Pipeline runs *)

Definition startPipelineRun (pipeline : Pipeline.t) (recording : Recording.t)
  : Eff W (Result unit) :=
  let! now := now_iso in
  let! fresh := nanoid in
  let newPipelineRun := {|
    PipelineRun.id := fresh;
    PipelineRun.pipelineId := Pipeline.id pipeline;
    PipelineRun.recordingId := Recording.id recording;
    PipelineRun.input := Recording.transcribedText recording;
    PipelineRun.status := running;
    PipelineRun.startedAt := now;
    PipelineRun.completedAt := None;
    PipelineRun.error := None;
    PipelineRun.output := None;
  |} in
  let! addPipelineRunResult :=
    tryAsync (add db_pipelineRuns newPipelineRun)
             (please "Error starting pipeline run in Dexie") in
  match addPipelineRunResult with
  | Err e => ret (Err e)
  | Ok _ => ret (Ok tt)
  end.

Definition updatePipelineRun (pipelineRun : PipelineRun.t)
  : Eff W (Result unit) :=
  let! updatePipelineRunResult :=
    tryAsync (put db_pipelineRuns pipelineRun)
             (please "Error updating pipeline run in Dexie") in
  match updatePipelineRunResult with
  | Err e => ret (Err e)
  | Ok _ => ret (Ok tt)
  end.

Definition getPipelineRunsByRecording (recording : Recording.t)
  : Eff W (Result (list PipelineRun.t)) :=
  tryAsync
    (let! runs :=
       c_sortBy db_pipelineRuns
         (reversed (where_equals "recordingId" (Recording.id recording)))
         "startedAt" in
     ret runs)
    (please "Error getting pipeline runs from Dexie").

Definition getPipelineRun (id : string)
  : Eff W (Result (option PipelineRun.t)) :=
  tryAsync
    (let! pipelineRun := get db_pipelineRuns id in
     ret pipelineRun)
    (please "Error getting pipeline run from Dexie").

(** ** Transformation results *)

Definition addTransformationResult (result : TransformationResult.t)
  : Eff W (Result unit) :=
  let! fresh := nanoid in
  let! now := now_iso in
  let newResult := {|
    TransformationResult.id := fresh;
    TransformationResult.pipelineRunId :=
      TransformationResult.pipelineRunId result;
    TransformationResult.transformationId :=
      TransformationResult.transformationId result;
    TransformationResult.status := TransformationResult.status result;
    TransformationResult.startedAt := TransformationResult.startedAt result;
    TransformationResult.completedAt := Some now;
    TransformationResult.error := TransformationResult.error result;
    TransformationResult.output := TransformationResult.output result;
  |} in
  let! addTransformationResult :=
    tryAsync (add db_transformationResults newResult)
             (please "Error adding transformation result to Dexie") in
  match addTransformationResult with
  | Err e => ret (Err e)
  | Ok _ => ret (Ok tt)
  end.

Definition getTransformationResultsByPipelineRun (pipelineRun : PipelineRun.t)
  : Eff W (Result (list TransformationResult.t)) :=
  tryAsync
    (let! results :=
       c_toArray db_transformationResults
         (where_equals "pipelineRunId" (PipelineRun.id pipelineRun)) in
     ret results)
    (please "Error getting transformation results from Dexie").

(** ** Retention *)

Definition cleanupExpiredRecordings (settings : Settings)
  : Eff W (Result unit) :=
  let recordingRetentionStrategy :=
    database_recordingRetentionStrategy settings in
  let maxRecordingCount := database_maxRecordingCount settings in
  match recordingRetentionStrategy with
  | keep_forever => ret (Ok tt)
  | limit_count =>
      let! countResult :=
        tryAsync (count db_recordings)
          (please "Unable to get recording count while cleaning up old recordings") in
      match countResult with
      | Err e => ret (Err e)
      | Ok count =>
          if num_eq count (Num 0) then ret (Ok tt) else
          let maxCount := parseInt maxRecordingCount in
          if num_le count maxCount then ret (Ok tt) else
          tryAsync
            (let! idsToDelete :=
               c_primaryKeys db_recordings
                 (limit (num_sub count maxCount) (orderBy "createdAt")) in
             bulkDelete db_recordings idsToDelete)
            (DbServiceErr "Unable to clean up old recordings"
                          "Some old recordings could not be deleted")
      end
  end.
End Service.

(* ================================================================== *)
(** * The Groq transcription service: [preValidate] *)
(* ================================================================== *)

(** [action: { type: 'link', label, goto }] *)
Record LinkAction : Type := {
  action_label : string;
  action_goto : string;
}.

(** [TranscriptionServiceErr] comes from [./TranscriptionService], which
    is not part of the sources at hand; it is taken for what its call
    sites make of it, the failure that carries the title, the description
    and the action it is given. *)
Inductive TranscriptionServiceResult (A : Type) : Type :=
  | TranscriptionOk (data : A)
  | TranscriptionServiceErr (title description : string) (action : LinkAction).
Arguments TranscriptionOk {A} data.
Arguments TranscriptionServiceErr {A} title description action.

(** [s.startsWith(p)] *)
Definition startsWith (s p : string) : bool := String.prefix p s.

Definition double_quote : string := String (ascii_of_nat 34) EmptyString.

(** [preValidate] of [createTranscriptionServiceGroq];
    [settings.value['transcription.groq.apiKey']] is the argument. *)
Definition preValidate (apiKey : string) : TranscriptionServiceResult unit :=
  if bool_decide (apiKey = "") then
    TranscriptionServiceErr
      "Groq API Key not provided."
      "Please enter your Groq API key in the settings"
      {| action_label := "Go to settings";
         action_goto := "/settings/transcription" |}
  else if negb (startsWith apiKey "gsk_") then
    TranscriptionServiceErr
      "Invalid Groq API Key"
      ("The Groq API Key must start with "
         +:+ double_quote +:+ "gsk_" +:+ double_quote)
      {| action_label := "Update API Key";
         action_goto := "/settings/transcription" |}
  else TranscriptionOk tt.

(* ================================================================== *)
(** * The transformation step of [query/transcriber/transcriber.ts] *)
(* ================================================================== *)

(** A result whose failure type is the service's own; the code below only
    asks whether it is [ok]. *)
Inductive ServiceResult (E A : Type) : Type :=
  | ServiceOk (data : A)
  | ServiceErr (error : E).
Arguments ServiceOk {E A} data.
Arguments ServiceErr {E A} error.

(** [WhisperingResult<T>] as this file builds it: [Ok(data)] or
    [WhisperingErr({ title, description })]. *)
Inductive WhisperingResult (A : Type) : Type :=
  | WhisperingOk (data : A)
  | WhisperingErr (title description : string).
Arguments WhisperingOk {A} data.
Arguments WhisperingErr {A} title description.

(** What the mutation reads of the run that [runTransformation] answers
    with: [error] and [output], each a string or [null]. *)
Record TransformationRun : Type := {
  run_error : option string;
  run_output : option string;
}.

(** Whether a value that is a string or [null] is truthy: [null] and the
    empty string are not. *)
Definition truthy (v : option string) : bool :=
  match v with
  | Some s => negb (bool_decide (s = ""))
  | None => false
  end.

Section TransformMutation.
Context {W E1 E2 : Type}.

(** [DbTransformationsService.getTransformationById] and
    [RunTransformationService.runTransformation] are services of other
    modules: the mutation is modelled over whatever they do. *)
Variable getTransformationById :
  string → Eff W (ServiceResult E1 (option Transformation.t)).
Variable runTransformation :
  string → Transformation.t → string → Eff W (ServiceResult E2 TransformationRun).

(** The [mutationFn] of
    [transformTranscribedTextFromRecordingWithToastWithSoundWithCopyPaste]. *)
Definition transformTranscribedText_mutationFn
    (transcribedText selectedTransformationId recordingId : string)
  : Eff W (WhisperingResult string) :=
  let! getTransformationResult :=
    getTransformationById selectedTransformationId in
  match getTransformationResult with
  | ServiceErr _ =>
      ret (WhisperingErr
             "⚠️ Transformation not found"
             "Could not find the selected transformation. Using original transcription.")
  | ServiceOk None =>
      ret (WhisperingErr
             "⚠️ Transformation not found"
             "Could not find the selected transformation. Using original transcription.")
  | ServiceOk (Some transformation) =>
      let! transformationResult :=
        runTransformation transcribedText transformation recordingId in
      match transformationResult with
      | ServiceErr _ =>
          ret (WhisperingErr
                 "⚠️ Transformation failed"
                 "Failed to apply the transformation. Using original transcription.")
      | ServiceOk transformationRun =>
          if truthy (run_error transformationRun) then
            ret (WhisperingErr "⚠️ Transformation error"
                   (default "" (run_error transformationRun)))
          else if negb (truthy (run_output transformationRun)) then
            ret (WhisperingErr
                   "⚠️ Transformation produced no output"
                   "The transformation completed but produced no output. Using original transcription.")
          else ret (WhisperingOk (default "" (run_output transformationRun)))
      end
  end.
End TransformMutation.

(* ================================================================== *)
(** * Vocabulary of the statements *)
(* ================================================================== *)

(** The fault, if any, that the next request to the storage engine meets. *)
Definition next_fault {D L} (w : World D L) : option JsError :=
  match faults w with
  | Some e :: _ => Some e
  | _ => None
  end.

(** The world once one request has been answered. *)
Definition answered {D L} (w : World D L) : World D L :=
  match faults w with
  | _ :: fs => set_faults fs w
  | [] => w
  end.

(** What [dumpTable name] contributes in world [w] and the world it
    leaves: the contents when the table is there and the read is answered,
    the empty array otherwise. *)
Definition dump_read (name : string) (w : World Store unit)
  : list Obj * World Store unit :=
  match tables (db w) !! name with
  | None => ([], w)
  | Some t => (match next_fault w with
               | Some _ => []
               | None => values t
               end, answered w)
  end.

(** Whether the [i]-th request of a schedule is made to fail. *)
Definition faulted (fs : list (option JsError)) (i : nat) : bool :=
  match fs !! i with
  | Some (Some _) => true
  | _ => false
  end.

(** The primary keys of the first [n] entries of the [createdAt] index:
    what [orderBy('createdAt').limit(n).primaryKeys()] answers. *)
Definition oldest_keys (n : nat) (t : Table Recording.t) : list string :=
  (take n (index_entries "createdAt" t)).*2.*1.

(** Every row of a table of objects sits under the string its [id]
    property holds: what [&id] makes of the rows that were added. *)
Definition keyed_obj (t : Table Obj) : Prop :=
  ∀ k o, rows t !! k = Some o → o !! "id" = Some (VStr k).

(** The three shapes a recording takes on its way from v1 to v3. *)
Definition without_blob (o : Obj) : Obj := delete "blob" o.
Definition blob_row (o : Obj) : Obj :=
  {[ "id" := field "id" o; "blob" := field "blob" o ]}.
Definition with_blob (o : Obj) : Obj := <["blob" := field "blob" o]> o.

(** The world with the object stores replaced and everything else,
    the stored version included, as it is. *)
Definition retable (m : gmap string (Table Obj)) (w : World Store unit)
  : World Store unit :=
  set_db (mkStore (version (db w)) m) w.

(** A [recordings] table stores every row under the row's own id. *)
Definition keyed (t : Table Recording.t) : Prop :=
  ∀ k r, rows t !! k = Some r → Recording.id r = k.

(** The mirror holds the rows of the [recordings] table, each once (the
    order is the mirror's own: [push] appends, the table lists by key). *)
Definition in_sync (w : ServiceWorld) : Prop :=
  ∃ t, recordings (db w) = Some t ∧ keyed t ∧ local w ≡ₚ values t.

(** Nothing written: the database and the mirror are what they were. *)
Definition untouched {D L} (w w' : World D L) : Prop :=
  db w' = db w ∧ local w' = local w.

(** The first fault among the first [n] slots of a fault schedule, if
    there is one: the fault that [n] requests in a row run into. *)
Fixpoint first_fault (n : nat) (fs : list (option JsError))
  : option JsError :=
  match n, fs with
  | S n', Some e :: _ => Some e
  | S n', None :: fs' => first_fault n' fs'
  | _, _ => None
  end.

(** How a computation ends that throws the fault it meets, if any. *)
Definition outcome_of (f : option JsError) : Outcome unit :=
  match f with
  | None => Returned tt
  | Some e => Thrown e
  end.

(** The blob that the store of blobs holds under a key, [undefined] when
    it holds none. *)
Definition blob_at (tb : Table Obj) (k : string) : Val :=
  match rows tb !! k with
  | Some b => field "blob" b
  | None => VUndef
  end.

(* ================================================================== *)
(** * Sample stores *)
(* ================================================================== *)

Definition rec_a : Recording.t :=
  Recording.mk "rec-a" "Standup" "" "2025-03-01T09:00:00.000Z"
    "2025-03-01T09:00:00.000Z" "first note" None DONE.
Definition rec_b : Recording.t :=
  Recording.mk "rec-b" "Idea" "" "2025-01-15T18:30:00.000Z"
    "2025-01-15T18:30:00.000Z" "second note" None DONE.
Definition rec_c : Recording.t :=
  Recording.mk "rec-c" "Errands" "" "2025-02-10T07:45:00.000Z"
    "2025-02-10T07:45:00.000Z" "" None UNPROCESSED.
Definition rec_new : Recording.t :=
  Recording.mk "rec-z" "Fresh" "" "2025-04-02T12:00:00.000Z"
    "2025-04-02T12:00:00.000Z" "" None UNPROCESSED.

Definition tr_1 : Transformation.t :=
  Transformation.mk "tr-1" "Trim" "" "2025-01-01T00:00:00.000Z"
    "2025-01-01T00:00:00.000Z" find_replace "  " " " false "" "" "".
Definition tr_2 : Transformation.t :=
  Transformation.mk "tr-2" "Polish" "" "2025-01-02T00:00:00.000Z"
    "2025-01-02T00:00:00.000Z" prompt_transform "" "" false "m" "s" "u".
Definition tr_new : Transformation.t :=
  Transformation.mk "tr-9" "Shout" "" "2025-04-02T00:00:00.000Z"
    "2025-04-02T00:00:00.000Z" find_replace "a" "A" false "" "" "".

Definition pipe_1 : Pipeline.t :=
  Pipeline.mk "pipe-1" "Tidy" "" "2025-01-03T00:00:00.000Z"
    "2025-01-03T00:00:00.000Z"
    [PipelineStep.mk "tr-1" true; PipelineStep.mk "tr-2" false].
Definition pipe_new : Pipeline.t :=
  Pipeline.mk "pipe-9" "Loud" "" "2025-04-02T00:00:00.000Z"
    "2025-04-02T00:00:00.000Z" [PipelineStep.mk "tr-9" true].

Definition run_1 : PipelineRun.t :=
  PipelineRun.mk "run-1" "pipe-1" "rec-a" "first note" completed
    "2025-03-01T10:00:00.000Z" (Some "2025-03-01T10:00:02.000Z") None
    (Some "first note").
Definition run_2 : PipelineRun.t :=
  PipelineRun.mk "run-2" "pipe-1" "rec-b" "second note" failed
    "2025-03-02T10:00:00.000Z" (Some "2025-03-02T10:00:01.000Z")
    (Some "no such transformation") None.
Definition run_3 : PipelineRun.t :=
  PipelineRun.mk "run-3" "pipe-1" "rec-a" "first note" running
    "2025-03-05T08:00:00.000Z" None None None.
Definition run_new : PipelineRun.t :=
  PipelineRun.mk "run-9" "pipe-1" "rec-c" "" running
    "2025-04-02T12:00:00.000Z" None None None.

Definition sample_recordings : Table Recording.t :=
  mkTable {| primKey := "id"; indexes := ["createdAt"] |}
          {[ "rec-a" := rec_a; "rec-b" := rec_b; "rec-c" := rec_c ]}.
Definition sample_pipelines : Table Pipeline.t :=
  mkTable {| primKey := "id"; indexes := [] |} {[ "pipe-1" := pipe_1 ]}.
Definition sample_transformations : Table Transformation.t :=
  mkTable {| primKey := "id"; indexes := [] |}
          {[ "tr-1" := tr_1; "tr-2" := tr_2 ]}.
Definition sample_pipelineRuns : Table PipelineRun.t :=
  mkTable {| primKey := "id"; indexes := ["recordingId"] |}
          {[ "run-1" := run_1; "run-2" := run_2; "run-3" := run_3 ]}.
Definition sample_transformationResults : Table TransformationResult.t :=
  mkTable {| primKey := "id"; indexes := ["pipelineRunId"] |} ∅.

Definition sample_db : RecordingsDatabase :=
  mkDb (Some sample_recordings) (Some sample_pipelines)
       (Some sample_transformations) (Some sample_pipelineRuns)
       (Some sample_transformationResults).

(** A service whose mirror has been loaded, under a given fault
    schedule. *)
Definition sample_world (fs : list (option JsError)) : ServiceWorld :=
  mkWorld sample_db fs []
          (λ n, "id-" +:+ pretty n) 0
          (λ n, "2025-04-02T12:00:0" +:+ pretty n +:+ ".000Z") 0
          [rec_a; rec_b; rec_c].

Definition keep_one : Settings :=
  {| database_recordingRetentionStrategy := limit_count;
     database_maxRecordingCount := "1" |}.

(** A database persisted by version 1 of the schema. *)
Definition v1_recording : Obj :=
  {[ "id" := VStr "rec-a";
     "title" := VStr "Standup";
     "subtitle" := VStr "";
     "timestamp" := VStr "2024-11-05T09:00:00.000Z";
     "transcribedText" := VStr "first note";
     "blob" := VBlob "RIFF";
     "transcriptionStatus" := VStr "DONE" ]}.

Definition v1_store : Store :=
  mkStore 1 {[ "recordings" :=
                 mkTable {| primKey := "id"; indexes := ["timestamp"] |}
                         {[ "rec-a" := v1_recording ]} ]}.

Definition v1_world (fs : list (option JsError)) : World Store unit :=
  mkWorld v1_store fs [] (λ _, "") 0 (λ _, "") 0 tt.

Definition res_1 : TransformationResult.t :=
  TransformationResult.mk "res-1" "run-1" "tr-2" completed
    "2025-03-01T10:00:01.000Z" (Some "2025-03-01T10:00:02.000Z") None
    (Some "first note").
Definition res_2 : TransformationResult.t :=
  TransformationResult.mk "res-2" "run-2" "tr-1" failed
    "2025-03-02T10:00:00.000Z" (Some "2025-03-02T10:00:01.000Z")
    (Some "no such transformation") None.
Definition res_3 : TransformationResult.t :=
  TransformationResult.mk "res-3" "run-1" "tr-1" completed
    "2025-03-01T10:00:00.000Z" (Some "2025-03-01T10:00:01.000Z") None
    (Some "first note").
Definition res_new : TransformationResult.t :=
  TransformationResult.mk "res-1" "run-3" "tr-1" completed
    "2025-03-05T08:00:01.000Z" (Some "1970-01-01T00:00:00.000Z") None
    (Some "first note").

Definition sample_results : Table TransformationResult.t :=
  mkTable {| primKey := "id"; indexes := ["pipelineRunId"] |}
          {[ "res-1" := res_1; "res-2" := res_2; "res-3" := res_3 ]}.

(** The sample service with results in store. *)
Definition results_world (fs : list (option JsError)) : ServiceWorld :=
  mkWorld (mkDb (Some sample_recordings) (Some sample_pipelines)
                (Some sample_transformations) (Some sample_pipelineRuns)
                (Some sample_results))
          fs []
          (λ n, "id-" +:+ pretty n) 0
          (λ n, "2025-04-02T12:00:0" +:+ pretty n +:+ ".000Z") 0
          [rec_a; rec_b; rec_c].

(** The database object as the declared ledger leaves it: [recordings]
    alone, indexed by [timestamp]. *)
Definition opened_db : RecordingsDatabase :=
  mkDb (Some (mkTable id_timestamp (rows sample_recordings)))
       None None None None.

Definition opened_world (fs : list (option JsError)) : ServiceWorld :=
  mkWorld opened_db fs []
          (λ n, "id-" +:+ pretty n) 0
          (λ n, "2025-04-02T12:00:0" +:+ pretty n +:+ ".000Z") 0
          [rec_a; rec_b; rec_c].

Definition keep_minus_one : Settings :=
  {| database_recordingRetentionStrategy := limit_count;
     database_maxRecordingCount := "-1" |}.

(** A maximum so far below zero that, with three recordings in store, the
    excess is 2^32. *)
Definition keep_far_below_zero : Settings :=
  {| database_recordingRetentionStrategy := limit_count;
     database_maxRecordingCount := "-4294967293" |}.

(** The maximum [1] behind a no-break space (code unit 160). *)
Definition keep_one_after_nbsp : Settings :=
  {| database_recordingRetentionStrategy := limit_count;
     database_maxRecordingCount := String (ascii_of_nat 160) "1" |}.

(** A database persisted by version 2 of the schema: [rec-a] with its
    blob, [rec-b] without one, and a blob that belongs to no recording. *)
Definition v2_metadata_a : Obj :=
  {[ "id" := VStr "rec-a";
     "title" := VStr "Standup";
     "timestamp" := VStr "2024-11-05T09:00:00.000Z" ]}.
Definition v2_metadata_b : Obj :=
  {[ "id" := VStr "rec-b";
     "title" := VStr "Idea";
     "timestamp" := VStr "2024-11-06T18:30:00.000Z" ]}.
Definition v2_blob_a : Obj :=
  {[ "id" := VStr "rec-a"; "blob" := VBlob "RIFF" ]}.
Definition v2_blob_x : Obj :=
  {[ "id" := VStr "rec-x"; "blob" := VBlob "OggS" ]}.

Definition v2_metadata : Table Obj :=
  mkTable {| primKey := "id"; indexes := ["timestamp"] |}
          {[ "rec-a" := v2_metadata_a; "rec-b" := v2_metadata_b ]}.
Definition v2_blobs : Table Obj :=
  mkTable {| primKey := "id"; indexes := [] |}
          {[ "rec-a" := v2_blob_a; "rec-x" := v2_blob_x ]}.

Definition v2_world (fs : list (option JsError)) : World Store unit :=
  mkWorld (mkStore 2 {[ "recordingMetadata" := v2_metadata;
                        "recordingBlobs" := v2_blobs ]})
          fs [] (λ _, "") 0 (λ _, "") 0 tt.

Definition pipe_2 : Pipeline.t :=
  Pipeline.mk "pipe-2" "Trim only" "" "2025-01-04T00:00:00.000Z"
    "2025-01-04T00:00:00.000Z" [PipelineStep.mk "tr-1" true].

(** The sample service with a second pipeline that shares [tr-1]. *)
Definition shared_world (fs : list (option JsError)) : ServiceWorld :=
  mkWorld (mkDb (Some sample_recordings)
                (Some (mkTable {| primKey := "id"; indexes := [] |}
                               {[ "pipe-1" := pipe_1; "pipe-2" := pipe_2 ]}))
                (Some sample_transformations) (Some sample_pipelineRuns)
                (Some sample_transformationResults))
          fs []
          (λ n, "id-" +:+ pretty n) 0
          (λ n, "2025-04-02T12:00:0" +:+ pretty n +:+ ".000Z") 0
          [rec_a; rec_b; rec_c].

(* ================================================================== *)
(** * Running the primitives *)
(* ================================================================== *)

Ltac eff_unfold :=
  cbv beta iota zeta delta
    [tryAsync try_catch bind ret throw gets modify
     toArray get count add put delete_ bulkDelete bulkAdd
     run_scan c_toArray c_primaryKeys c_sortBy
     resolve store_table h_get h_set h_missing
     db_recordings db_pipelines db_transformations db_pipelineRuns
     db_transformationResults tx_table] in *.

Section RunPrimitives.
Context {D L : Type}.
Implicit Types w : World D L.

Lemma request_run w :
  request w = (match next_fault w with
               | Some e => Thrown e
               | None => Returned tt
               end, answered w).
Proof.
  unfold request, next_fault, answered.
  destruct (faults w) as [|[e|] fs]; reflexivity.
Qed.

Lemma answered_db w : db (answered w) = db w.
Proof. unfold answered. destruct (faults w); reflexivity. Qed.

Lemma answered_local w : local (answered w) = local w.
Proof. unfold answered. destruct (faults w); reflexivity. Qed.

Lemma answered_ui w : ui (answered w) = ui w.
Proof. unfold answered. destruct (faults w); reflexivity. Qed.

Lemma answered_faults w : faults (answered w) = tail (faults w).
Proof.
  unfold answered. destruct (faults w) eqn:Hfs; simpl; [|reflexivity].
  exact Hfs.
Qed.

Lemma answered_nil w : faults w = [] → answered w = w.
Proof. unfold answered. intros ->. reflexivity. Qed.

Lemma next_fault_nil w : faults w = [] → next_fault w = None.
Proof. unfold next_fault. intros ->. reflexivity. Qed.
End RunPrimitives.

(* ================================================================== *)
(** * Reading after deleting, updating what is not there, starting a run *)
(* ================================================================== *)

(** C8.  Once [deleteRecording] has answered with a success for a
    recording, [getRecording] with the same id answers with the success
    that carries "not found" ([null], here [None]); the only other answer
    it can give is the tagged failure wrapping a transport fault met by
    that very read, and it never answers with a recording. *)
Theorem C8_get_after_delete_is_not_found
    (recording : Recording.t) (w w1 : ServiceWorld) :
  deleteRecording recording w = (Returned (Ok tt), w1) →
  (getRecording (Recording.id recording) w1).1 =
    Returned (match next_fault w1 with
              | None => Ok None
              | Some e => Err (please "Error getting recording from Dexie" e)
              end).
Proof.
  unfold deleteRecording, getRecording. eff_unfold.
  destruct (recordings (db w)) as [t|] eqn:Ht; [|intros [=]].
  rewrite request_run. destruct (next_fault w) as [e|] eqn:Hf; [intros [=]|].
  intros [= <-]. clear Hf. cbn. rewrite request_run.
  destruct (next_fault _) as [e|]; cbn; [reflexivity|].
  rewrite lookup_delete_eq. reflexivity.
Qed.

(** Where its table exists, each of the four [update...] operations is an
    upsert: when no row has the id and the storage engine answers, it
    returns a success and the table holds the value as one more row. *)
Lemma update_is_upsert_where_the_table_exists (w : ServiceWorld) :
  next_fault w = None →
  (∀ recording t,
     recordings (db w) = Some t →
     rows t !! Recording.id recording = None →
     ∃ w' t', updateRecording recording w = (Returned (Ok tt), w')
       ∧ recordings (db w') = Some t'
       ∧ rows t' = <[Recording.id recording := recording]> (rows t)
       ∧ size (rows t') = S (size (rows t)))
  ∧ (∀ pipeline t,
     pipelines (db w) = Some t →
     rows t !! Pipeline.id pipeline = None →
     ∃ w' t', updatePipeline pipeline w = (Returned (Ok tt), w')
       ∧ pipelines (db w') = Some t'
       ∧ rows t' = <[Pipeline.id pipeline := pipeline]> (rows t)
       ∧ size (rows t') = S (size (rows t)))
  ∧ (∀ transformation t,
     transformations (db w) = Some t →
     rows t !! Transformation.id transformation = None →
     ∃ w' t', updateTransformation transformation w = (Returned (Ok tt), w')
       ∧ transformations (db w') = Some t'
       ∧ rows t' = <[Transformation.id transformation := transformation]> (rows t)
       ∧ size (rows t') = S (size (rows t)))
  ∧ (∀ pipelineRun t,
     pipelineRuns (db w) = Some t →
     rows t !! PipelineRun.id pipelineRun = None →
     ∃ w' t', updatePipelineRun pipelineRun w = (Returned (Ok tt), w')
       ∧ pipelineRuns (db w') = Some t'
       ∧ rows t' = <[PipelineRun.id pipelineRun := pipelineRun]> (rows t)
       ∧ size (rows t') = S (size (rows t))).
Proof.
  intros Hq.
  repeat split; intros r t Ht Hnew;
    unfold updateRecording, updatePipeline, updateTransformation,
      updatePipelineRun;
    eff_unfold; rewrite Ht, request_run, Hq; cbn;
    eexists _, _; (split; [reflexivity|]); cbn;
    (split; [reflexivity|]); cbn;
    (split; [reflexivity|]); by apply map_size_insert_None.
Qed.

(** Where the [pipelineRuns] table exists, [startPipelineRun] adds exactly
    one row to it: its id is the one [nanoid] hands out, its [startedAt]
    the time read from the clock, its [input] the recording's
    [transcribedText], its status [running], and [completedAt], [error] and
    [output] are [null].  This is when the storage engine answers and the
    id is not taken. *)
Lemma startPipelineRun_inserts_a_running_run_where_the_table_exists
    (pipeline : Pipeline.t) (recording : Recording.t)
    (w : ServiceWorld) (t : Table PipelineRun.t) :
  pipelineRuns (db w) = Some t →
  next_fault w = None →
  rows t !! nanoid_seq w (nanoid_calls w) = None →
  ∃ w' t' run,
    startPipelineRun pipeline recording w = (Returned (Ok tt), w')
    ∧ pipelineRuns (db w') = Some t'
    ∧ rows t' = <[PipelineRun.id run := run]> (rows t)
    ∧ size (rows t') = S (size (rows t))
    ∧ run = {| PipelineRun.id := nanoid_seq w (nanoid_calls w);
               PipelineRun.pipelineId := Pipeline.id pipeline;
               PipelineRun.recordingId := Recording.id recording;
               PipelineRun.input := Recording.transcribedText recording;
               PipelineRun.status := running;
               PipelineRun.startedAt := clock w (clock_reads w);
               PipelineRun.completedAt := None;
               PipelineRun.error := None;
               PipelineRun.output := None |}
    ∧ recordings (db w') = recordings (db w)
    ∧ pipelines (db w') = pipelines (db w)
    ∧ transformations (db w') = transformations (db w)
    ∧ transformationResults (db w') = transformationResults (db w).
Proof.
  intros Ht Hq Hnew.
  unfold startPipelineRun, now_iso, nanoid. eff_unfold. cbn -[insert lookup].
  rewrite Ht. rewrite request_run.
  replace (next_fault _) with (next_fault w) by (destruct w; reflexivity).
  rewrite Hq. cbn -[insert lookup]. rewrite Hnew. cbn -[insert lookup].
  eexists _, _,
    (PipelineRun.mk (nanoid_seq w (nanoid_calls w)) (Pipeline.id pipeline)
       (Recording.id recording) (Recording.transcribedText recording) running
       (clock w (clock_reads w)) None None None).
  split; [reflexivity|]. cbn -[insert lookup].
  split; [reflexivity|]. cbn -[insert lookup].
  split; [reflexivity|].
  split; [by apply map_size_insert_None|].
  split; [reflexivity|].
  unfold answered; cbn; destruct (faults w); cbn; auto.
Qed.

(* ================================================================== *)
(** * Deleting a pipeline together with its transformations *)
(* ================================================================== *)

(** C4.  [deletePipelineWithAssociatedTransformations] always returns a
    result value, never throws, and is all or nothing over [pipelines] and
    [transformations]: on success the pipeline row and every transformation
    the pipeline lists are gone and the other tables are untouched; on
    failure the whole database is as it was and the failure is the tagged
    error.  A fault that strikes after the first delete went through (the
    second request of the schedule) ends in that failure; with both tables
    there and both requests answered the outcome is the success. *)
Theorem C4_cascade_delete_is_atomic (pipeline : Pipeline.t) (w : ServiceWorld) :
  let transformationIds :=
    PipelineStep.transformationId <$> Pipeline.transformations pipeline in
  ∃ res w',
    deletePipelineWithAssociatedTransformations pipeline w = (Returned res, w')
    ∧ match res with
      | Ok _ =>
          ∃ tp tt tp' tt',
            pipelines (db w) = Some tp
            ∧ transformations (db w) = Some tt
            ∧ pipelines (db w') = Some tp'
            ∧ transformations (db w') = Some tt'
            ∧ tp' = delete_key (Pipeline.id pipeline) tp
            ∧ tt' = delete_keys transformationIds tt
            ∧ rows tp' !! Pipeline.id pipeline = None
            ∧ (∀ k, k ∈ transformationIds → rows tt' !! k = None)
            ∧ recordings (db w') = recordings (db w)
            ∧ pipelineRuns (db w') = pipelineRuns (db w)
            ∧ transformationResults (db w') = transformationResults (db w)
      | Err err =>
          db w' = db w
          ∧ title err = "Error deleting pipeline from Dexie"
          ∧ description err = "Please try again"
      end
    ∧ (∀ e fs,
         faults w = None :: Some e :: fs →
         is_Some (pipelines (db w)) →
         is_Some (transformations (db w)) →
         res = Err (please "Error deleting pipeline from Dexie" e))
    ∧ (is_Some (pipelines (db w)) →
       is_Some (transformations (db w)) →
       faulted (faults w) 0 = false →
       faulted (faults w) 1 = false →
       res = Ok tt).
Proof.
  intros ids.
  assert (Hgone : ∀ (tt0 : Table Transformation.t) k,
            k ∈ ids → rows (delete_keys ids tt0) !! k = None).
  { intros tt0 k Hk. by apply lookup_foldr_delete. }
  unfold deletePipelineWithAssociatedTransformations, transaction.
  fold ids.
  destruct w as [[rs ps ts prs trs] fs u ns nc ck cr l].
  eff_unfold.
  destruct ps as [tp|], ts as [tt'|]; cbn -[delete_key delete_keys];
    try (eexists _, _; split; [reflexivity|]; split; [done|];
         split; [by intros ?? _ [? ?] [? ?] | by intros [? ?] [? ?]]).
  unfold request; cbn -[delete_key delete_keys].
  destruct fs as [|[e1|] [|[e2|] fs]]; cbn -[delete_key delete_keys];
    (eexists _, _; split; [reflexivity|]; cbn -[delete_key delete_keys];
     split;
     [first [done
            | eexists _, _, _, _; repeat (split; [reflexivity|]);
              split; [apply lookup_delete_eq|]; split; [apply Hgone|done]]|]);
    (split; [intros ?? [=]; by simplify_eq|]);
    by intros _ _ Hf0 Hf1.
Qed.

(* ================================================================== *)
(** * A failing upgrade *)
(* ================================================================== *)

Section UpgradeFailure.
Variable JSON_stringify : DumpState → string.
#[local] Abbreviation W := (World Store unit).
Implicit Types w : W.

Lemma dumpTable_run name w :
  dumpTable name w = (Returned (dump_read name w).1, (dump_read name w).2).
Proof.
  unfold dumpTable, dump_read. eff_unfold.
  destruct (tables (db w) !! name) as [t|]; [|reflexivity].
  rewrite request_run. destruct (next_fault w); reflexivity.
Qed.

Lemma dump_read_db name w : db (dump_read name w).2 = db w.
Proof.
  unfold dump_read. destruct (tables (db w) !! name); [|reflexivity].
  apply answered_db.
Qed.

Lemma dump_read_ui name w : ui (dump_read name w).2 = ui w.
Proof.
  unfold dump_read. destruct (tables (db w) !! name); [|reflexivity].
  apply answered_ui.
Qed.

Lemma dump_read_cases name w :
  (dump_read name w).1 = []
  ∨ ∃ t, tables (db w) !! name = Some t ∧ (dump_read name w).1 = values t.
Proof.
  unfold dump_read. destruct (tables (db w) !! name) as [t|]; [|by left].
  destruct (next_fault w); [by left|]. right. by exists t.
Qed.

(** The three reads of [handleUpgradeError], one after the other. *)
Lemma handleUpgradeError_run version error w :
  let d1 := dump_read "recordings" w in
  let d2 := dump_read "recordingMetadata" d1.2 in
  let d3 := dump_read "recordingBlobs" d2.2 in
  handleUpgradeError JSON_stringify version error w =
    (Thrown error,
     log_ui (DialogOpened (upgrade_dialog version (JSON_stringify
               {| dump_version := version;
                  dump_tables := zip DUMP_TABLE_NAMES [d1.1; d2.1; d3.1] |})))
            d3.2).
Proof.
  intros d1 d2 d3. unfold handleUpgradeError, DUMP_TABLE_NAMES.
  cbn [promise_all]. unfold bind at 1 2.
  rewrite dumpTable_run. fold d1. cbn [fst snd]. unfold bind at 1 2.
  rewrite dumpTable_run. fold d2. cbn [fst snd]. unfold bind at 1 2.
  rewrite dumpTable_run. fold d3. cbn [fst snd].
  reflexivity.
Qed.

(** C10.  Whatever happens to its three reads, [handleUpgradeError] opens
    the dialog on a dump that has one array for each of [recordings],
    [recordingMetadata] and [recordingBlobs], in that order, and then
    throws the error it was given, not one of its own.  An array is the
    table's contents or, when its read failed, empty: with the three tables
    in the transaction, array [i] is empty exactly when request [i] of the
    schedule is a fault. *)
Theorem C10_dump_survives_failed_reads (version : nat) (error : JsError) w :
  ∃ dumps w',
    handleUpgradeError JSON_stringify version error w = (Thrown error, w')
    ∧ db w' = db w
    ∧ ui w' = ui w ++ [DialogOpened (upgrade_dialog version (JSON_stringify
                         {| dump_version := version;
                            dump_tables := zip DUMP_TABLE_NAMES dumps |}))]
    ∧ Forall2 (λ name dump,
                 dump = [] ∨
                 ∃ t, tables (db w) !! name = Some t ∧ dump = values t)
              DUMP_TABLE_NAMES dumps
    ∧ (∀ t1 t2 t3,
         tables (db w) !! "recordings" = Some t1 →
         tables (db w) !! "recordingMetadata" = Some t2 →
         tables (db w) !! "recordingBlobs" = Some t3 →
         dumps = [ if faulted (faults w) 0 then [] else values t1;
                   if faulted (faults w) 1 then [] else values t2;
                   if faulted (faults w) 2 then [] else values t3 ]).
Proof.
  pose proof (handleUpgradeError_run version error w) as Hrun.
  cbv zeta in Hrun.
  set (d1 := dump_read "recordings" w) in *.
  set (d2 := dump_read "recordingMetadata" d1.2) in *.
  set (d3 := dump_read "recordingBlobs" d2.2) in *.
  assert (Hdb1 : db d1.2 = db w) by apply dump_read_db.
  assert (Hdb2 : db d2.2 = db w) by (unfold d2; by rewrite dump_read_db).
  exists [d1.1; d2.1; d3.1]. eexists. split; [exact Hrun|].
  split; [|split; [|split]].
  - cbn. unfold d3. by rewrite dump_read_db.
  - cbn. unfold d3, d2, d1. by rewrite !dump_read_ui.
  - unfold DUMP_TABLE_NAMES.
    constructor; [apply dump_read_cases|].
    constructor; [rewrite <- Hdb1; apply dump_read_cases|].
    constructor; [rewrite <- Hdb2; apply dump_read_cases|].
    constructor.
  - intros t1 t2 t3 H1 H2 H3. unfold d3, d2, d1, dump_read.
    rewrite H1. cbn [fst snd]. rewrite answered_db, H2. cbn [fst snd].
    rewrite answered_db, answered_db, H3. cbn [fst snd].
    unfold next_fault, faulted. rewrite !answered_faults.
    destruct (faults w) as [|[?|] [|[?|] [|[?|] ?]]]; reflexivity.
Qed.

(** The bodies of the two upgrades never touch the dialog. *)
Lemma toArray_ui name w o w1 :
  toArray (tx_table name) w = (o, w1) → ui w1 = ui w.
Proof.
  eff_unfold. destruct (tables (db w) !! name); [|by intros [= _ <-]].
  rewrite request_run. destruct (next_fault w); intros [= _ <-];
    apply answered_ui.
Qed.

Lemma bulkAdd_ui name rs w o w1 :
  bulkAdd (tx_table name) rs w = (o, w1) → ui w1 = ui w.
Proof.
  eff_unfold. destruct (tables (db w) !! name); [|by intros [= _ <-]].
  rewrite request_run. destruct (next_fault w); [by intros [= _ <-]; apply answered_ui|].
  destruct (bulk_add_rows rs _) as [t' [|n]]; intros [= _ <-]; cbn;
    apply answered_ui.
Qed.

Lemma split_recordings_ui w o w1 :
  split_recordings w = (o, w1) → ui w1 = ui w.
Proof.
  unfold split_recordings, bind.
  destruct (toArray _ w) as [[old|e] wa] eqn:Ha;
    apply toArray_ui in Ha; [|by intros [= _ <-]].
  destruct (bulkAdd _ _ wa) as [[[]|e] wb] eqn:Hb;
    apply bulkAdd_ui in Hb; [|intros [= _ <-]; congruence].
  intros Hc. apply bulkAdd_ui in Hc. congruence.
Qed.

Lemma merge_recordings_ui w o w1 :
  merge_recordings w = (o, w1) → ui w1 = ui w.
Proof.
  unfold merge_recordings, bind.
  destruct (toArray _ w) as [[metadata|e] wa] eqn:Ha;
    apply toArray_ui in Ha; [|by intros [= _ <-]].
  destruct (toArray _ wa) as [[blobs|e] wb] eqn:Hb;
    apply toArray_ui in Hb; [|intros [= _ <-]; congruence].
  intros Hc. apply bulkAdd_ui in Hc. congruence.
Qed.

(** What a caught failure leads to, for either upgrade. *)
Lemma caught_failure_run version e w1 :
  ∃ dumps w2,
    handleUpgradeError JSON_stringify version e w1 = (Thrown e, w2)
    ∧ db w2 = db w1
    ∧ ui w2 = ui w1 ++ [DialogOpened (upgrade_dialog version (JSON_stringify
                          {| dump_version := version;
                             dump_tables := zip DUMP_TABLE_NAMES dumps |}))]
    ∧ Forall2 (λ name dump,
                 dump = [] ∨
                 ∃ t, tables (db w1) !! name = Some t ∧ dump = values t)
              DUMP_TABLE_NAMES dumps.
Proof.
  pose proof (handleUpgradeError_run version e w1) as Hrun.
  cbv zeta in Hrun.
  set (d1 := dump_read "recordings" w1) in *.
  set (d2 := dump_read "recordingMetadata" d1.2) in *.
  set (d3 := dump_read "recordingBlobs" d2.2) in *.
  assert (Hdb1 : db d1.2 = db w1) by apply dump_read_db.
  assert (Hdb2 : db d2.2 = db w1) by (unfold d2; by rewrite dump_read_db).
  exists [d1.1; d2.1; d3.1]. eexists. split; [exact Hrun|].
  split; [|split].
  - cbn. unfold d3. by rewrite dump_read_db.
  - cbn. unfold d3, d2, d1. by rewrite !dump_read_ui.
  - unfold DUMP_TABLE_NAMES.
    constructor; [apply dump_read_cases|].
    constructor; [rewrite <- Hdb1; apply dump_read_cases|].
    constructor; [rewrite <- Hdb2; apply dump_read_cases|].
    constructor.
Qed.

(** The same, with the arrays spelled out for a transaction that holds
    the three tables. *)
Lemma caught_failure_dump version e w1 :
  ∃ dumps w2,
    handleUpgradeError JSON_stringify version e w1 = (Thrown e, w2)
    ∧ db w2 = db w1
    ∧ ui w2 = ui w1 ++ [DialogOpened (upgrade_dialog version (JSON_stringify
                          {| dump_version := version;
                             dump_tables := zip DUMP_TABLE_NAMES dumps |}))]
    ∧ Forall2 (λ name dump,
                 dump = [] ∨
                 ∃ t, tables (db w1) !! name = Some t ∧ dump = values t)
              DUMP_TABLE_NAMES dumps
    ∧ (∀ t1 t2 t3,
         tables (db w1) !! "recordings" = Some t1 →
         tables (db w1) !! "recordingMetadata" = Some t2 →
         tables (db w1) !! "recordingBlobs" = Some t3 →
         dumps = [ if faulted (faults w1) 0 then [] else values t1;
                   if faulted (faults w1) 1 then [] else values t2;
                   if faulted (faults w1) 2 then [] else values t3 ]).
Proof.
  pose proof (handleUpgradeError_run version e w1) as Hrun.
  cbv zeta in Hrun.
  set (d1 := dump_read "recordings" w1) in *.
  set (d2 := dump_read "recordingMetadata" d1.2) in *.
  set (d3 := dump_read "recordingBlobs" d2.2) in *.
  assert (Hdb1 : db d1.2 = db w1) by apply dump_read_db.
  assert (Hdb2 : db d2.2 = db w1) by (unfold d2; by rewrite dump_read_db).
  exists [d1.1; d2.1; d3.1]. eexists. split; [exact Hrun|].
  split; [|split; [|split]].
  - cbn. unfold d3. by rewrite dump_read_db.
  - cbn. unfold d3, d2, d1. by rewrite !dump_read_ui.
  - unfold DUMP_TABLE_NAMES.
    constructor; [apply dump_read_cases|].
    constructor; [rewrite <- Hdb1; apply dump_read_cases|].
    constructor; [rewrite <- Hdb2; apply dump_read_cases|].
    constructor.
  - intros t1 t2 t3 H1 H2 H3. unfold d3, d2, d1, dump_read.
    rewrite H1. cbn [fst snd]. rewrite answered_db, H2. cbn [fst snd].
    rewrite answered_db, answered_db, H3. cbn [fst snd].
    unfold next_fault, faulted. rewrite !answered_faults.
    destruct (faults w1) as [|[?|] [|[?|] [|[?|] ?]]]; reflexivity.
Qed.

(** Reading a table writes nothing, and [bulkAdd] writes to its own table
    only. *)
Lemma toArray_db name w o w1 :
  toArray (tx_table name) w = (o, w1) → db w1 = db w.
Proof.
  eff_unfold. destruct (tables (db w) !! name); [|by intros [= _ <-]].
  rewrite request_run. destruct (next_fault w); intros [= _ <-];
    apply answered_db.
Qed.

Lemma bulkAdd_other name other rs w o w1 :
  other ≠ name →
  bulkAdd (tx_table name) rs w = (o, w1) →
  tables (db w1) !! other = tables (db w) !! other.
Proof.
  intros Hne. eff_unfold.
  destruct (tables (db w) !! name); [|by intros [= _ <-]].
  rewrite request_run.
  destruct (next_fault w); [by intros [= _ <-]; rewrite answered_db|].
  destruct (bulk_add_rows rs _) as [t' [|n]]; intros [= _ <-];
    cbn [db set_db tables]; rewrite lookup_insert_ne by done;
    by rewrite answered_db.
Qed.

(** The body of [version(2).upgrade] never writes to [recordings], the
    store it migrates from. *)
Lemma split_recordings_keeps_recordings w o w1 :
  split_recordings w = (o, w1) →
  tables (db w1) !! "recordings" = tables (db w) !! "recordings".
Proof.
  unfold split_recordings, bind.
  destruct (toArray _ w) as [[old|e] wa] eqn:Ha;
    apply toArray_db in Ha; [|intros [= _ <-]; by rewrite Ha].
  destruct (bulkAdd _ _ wa) as [[[]|e] wb] eqn:Hb;
    apply (bulkAdd_other _ "recordings") in Hb; try done;
    [|intros [= _ <-]; by rewrite Hb, Ha].
  intros Hc. apply (bulkAdd_other _ "recordings") in Hc; [|done].
  by rewrite Hc, Hb, Ha.
Qed.

(** The body of [version(3).upgrade] never writes to [recordingMetadata]
    or [recordingBlobs], the stores it migrates from. *)
Lemma merge_recordings_keeps_its_sources w o w1 :
  merge_recordings w = (o, w1) →
  tables (db w1) !! "recordingMetadata" = tables (db w) !! "recordingMetadata"
  ∧ tables (db w1) !! "recordingBlobs" = tables (db w) !! "recordingBlobs".
Proof.
  unfold merge_recordings, bind.
  destruct (toArray _ w) as [[metadata|e] wa] eqn:Ha;
    apply toArray_db in Ha; [|intros [= _ <-]; by rewrite Ha].
  destruct (toArray _ wa) as [[blobs|e] wb] eqn:Hb;
    apply toArray_db in Hb; [|intros [= _ <-]; by rewrite Hb, Ha].
  intros Hc.
  pose proof (bulkAdd_other "recordings" "recordingMetadata" _ _ _ _
                ltac:(done) Hc) as H1.
  pose proof (bulkAdd_other "recordings" "recordingBlobs" _ _ _ _
                ltac:(done) Hc) as H2.
  by rewrite H1, H2, Hb, Ha.
Qed.
End UpgradeFailure.

(* ================================================================== *)
(** * Sorting and index scans *)
(* ================================================================== *)

Section ArraySort.
Context {V : Type}.
Variable cmp : V → V → Z.
Variable R : relation V.
Hypothesis cmp_R : ∀ x y, (cmp x y <=? 0)%Z = true ↔ R x y.
Hypothesis R_trans : Transitive R.
Hypothesis R_total : Total R.

Lemma sort_insert_perm x l : sort_insert cmp x l ≡ₚ x :: l.
Proof.
  induction l as [|y l IH]; cbn; [reflexivity|].
  destruct (cmp x y <=? 0)%Z; [reflexivity|].
  rewrite IH. apply Permutation_swap.
Qed.

Lemma array_sort_perm l : array_sort cmp l ≡ₚ l.
Proof.
  induction l as [|x l IH]; cbn; [reflexivity|].
  fold (array_sort cmp l). rewrite sort_insert_perm, IH. reflexivity.
Qed.

Lemma sort_insert_sorted x l :
  StronglySorted R l → StronglySorted R (sort_insert cmp x l).
Proof.
  induction 1 as [|y l Hl IH Hy]; cbn.
  - repeat constructor.
  - destruct (cmp x y <=? 0)%Z eqn:Hxy.
    + apply cmp_R in Hxy. constructor; [by constructor|].
      constructor; [exact Hxy|].
      eapply Forall_impl; [exact Hy|]. intros z Hz. by etrans.
    + constructor; [exact IH|].
      assert (Hyx : R y x).
      { destruct (R_total x y) as [Hc|Hc]; [|exact Hc].
        apply cmp_R in Hc. congruence. }
      rewrite sort_insert_perm. by constructor.
Qed.

Lemma array_sort_sorted l : StronglySorted R (array_sort cmp l).
Proof.
  induction l as [|x l IH]; cbn; [constructor|].
  by apply sort_insert_sorted.
Qed.
End ArraySort.

Section IndexScan.
Context {V : Type} `{Row V}.

Lemma index_entry_rows keyPath key (l : list (string * V)) :
  (filter (λ e : string * (string * V), e.1 = key)
          (omap (index_entry keyPath) l)).*2.*2
  = filter (λ r, prop keyPath r = Some key) l.*2.
Proof.
  induction l as [|[k r] l IH]; [reflexivity|].
  cbn [omap list_omap fmap list_fmap]. unfold index_entry at 1. cbn [snd].
  destruct (prop keyPath r) as [ik|] eqn:Hik.
  - rewrite !filter_cons. cbn [fst snd]. rewrite Hik.
    destruct (decide (ik = key)) as [->|Hne].
    + rewrite decide_True by reflexivity. cbn. by rewrite <- IH.
    + rewrite decide_False by congruence. exact IH.
  - rewrite filter_cons. cbn [snd]. rewrite Hik.
    rewrite decide_False by discriminate. exact IH.
Qed.
End IndexScan.

Lemma PipelineRun_prop_startedAt (r : PipelineRun.t) :
  prop "startedAt" r = Some (PipelineRun.startedAt r).
Proof. reflexivity. Qed.

Lemma PipelineRun_prop_recordingId (r : PipelineRun.t) :
  prop "recordingId" r = Some (PipelineRun.recordingId r).
Proof. reflexivity. Qed.

Lemma Recording_prop_createdAt (r : Recording.t) :
  prop "createdAt" r = Some (Recording.createdAt r).
Proof. reflexivity. Qed.

Lemma sorter_startedAt_desc (a b : PipelineRun.t) :
  (sorter "startedAt" (-1) a b <=? 0)%Z = true
  ↔ (PipelineRun.startedAt b ≤ PipelineRun.startedAt a)%string.
Proof.
  unfold sorter. rewrite !PipelineRun_prop_startedAt.
  unfold String.le, String.leb.
  rewrite (String.compare_antisym (PipelineRun.startedAt b)).
  destruct (String.compare (PipelineRun.startedAt a) (PipelineRun.startedAt b));
    cbn; split; done.
Qed.

(** Where the [pipelineRuns] table exists with [recordingId] indexed, and
    the storage engine answers, [getPipelineRunsByRecording] returns a
    success whose list holds exactly the stored runs whose [recordingId] is
    the recording's id, each once, ordered by [startedAt] from the latest
    to the earliest (the strings are compared as the code compares them;
    on ISO timestamps that is the order of time).  Nothing is written. *)
Lemma runs_of_recording_most_recent_first_where_indexed
    (recording : Recording.t) (w : ServiceWorld) (t : Table PipelineRun.t) :
  pipelineRuns (db w) = Some t →
  indexed (schema t) "recordingId" →
  next_fault w = None →
  ∃ runs w',
    getPipelineRunsByRecording recording w = (Returned (Ok runs), w')
    ∧ db w' = db w
    ∧ runs ≡ₚ filter (λ run, PipelineRun.recordingId run = Recording.id recording)
                     (map_to_list (rows t)).*2
    ∧ (∀ run, run ∈ runs ↔
         (∃ k, rows t !! k = Some run)
         ∧ PipelineRun.recordingId run = Recording.id recording)
    ∧ StronglySorted
        (λ a b, (PipelineRun.startedAt b ≤ PipelineRun.startedAt a)%string)
        runs.
Proof.
  intros Ht Hidx Hq.
  unfold getPipelineRunsByRecording. eff_unfold. rewrite Ht.
  unfold scan. cbn [c_keyPath c_equals c_reverse c_limit reversed where_equals negb apply_limit].
  rewrite decide_True by exact Hidx.
  rewrite request_run, Hq.
  eexists _, _. split; [reflexivity|].
  split; [apply answered_db|].
  assert (Hperm :
    array_sort (sorter "startedAt" (-1))
      (reverse (filter (λ e : string * (string * PipelineRun.t), e.1 = Recording.id recording)
                       (index_entries "recordingId" t))).*2.*2
    ≡ₚ filter (λ run, PipelineRun.recordingId run = Recording.id recording)
              (map_to_list (rows t)).*2).
  { rewrite array_sort_perm. rewrite reverse_Permutation.
    unfold index_entries. rewrite merge_sort_Permutation.
    rewrite index_entry_rows.
    erewrite list_filter_iff; [reflexivity|].
    intros run. rewrite PipelineRun_prop_recordingId. split; congruence. }
  split; [exact Hperm|]. split.
  - intros run. rewrite Hperm. rewrite list_elem_of_filter.
    rewrite list_elem_of_fmap. split.
    + intros [Hr ([k r] & -> & Hin)]. split; [|exact Hr].
      exists k. by apply elem_of_map_to_list.
    + intros [[k Hk] Hr]. split; [exact Hr|].
      exists (k, run). split; [reflexivity|]. by apply elem_of_map_to_list.
  - apply array_sort_sorted.
    + apply sorter_startedAt_desc.
    + intros a b c Hab Hbc. by etrans.
    + intros a b. destruct (total String.le (PipelineRun.startedAt b) (PipelineRun.startedAt a)); auto.
Qed.

(* ================================================================== *)
(** * Retention *)
(* ================================================================== *)

Section IndexOrder.
Context {V : Type}.

#[local] Instance index_order_trans : Transitive (@index_order V).
Proof.
  intros a b c [[Hab1 Hab2]|[Hab1 Hab2]] [[Hbc1 Hbc2]|[Hbc1 Hbc2]];
    unfold index_order.
  - left. split; [|by etrans].
    intros Hac. apply Hab1. apply (anti_symm String.le); [done|].
    by rewrite Hac.
  - left. rewrite <- Hbc1. by split.
  - left. rewrite Hab1. by split.
  - right. split; [congruence|by etrans].
Qed.

#[local] Instance index_order_total : Total (@index_order V).
Proof.
  intros a b. unfold index_order.
  destruct (decide (a.1 = b.1)) as [Heq|Hne].
  - destruct (total String.le a.2.1 b.2.1); [left|right]; right; by split.
  - destruct (total String.le a.1 b.1); [left|right]; left; split; auto.
Qed.

Lemma index_entries_sorted `{Row V} keyPath (t : Table V) :
  StronglySorted index_order (index_entries keyPath t).
Proof. unfold index_entries. apply StronglySorted_merge_sort; apply _. Qed.
End IndexOrder.

Lemma size_foldr_delete {A} (m : gmap string A) (ks : list string) :
  NoDup ks →
  Forall (λ k, is_Some (m !! k)) ks →
  size (foldr delete m ks) = size m - length ks.
Proof.
  induction 1 as [|k ks Hk Hnd IH]; intros Hall; cbn; [lia|].
  apply Forall_cons in Hall as [Hin Hall].
  rewrite map_size_delete_Some.
  - rewrite IH by done. lia.
  - destruct Hin as [x Hx]. exists x.
    by rewrite lookup_foldr_delete_not_elem_of.
Qed.

Lemma createdAt_index_entries (l : list (string * Recording.t)) :
  omap (index_entry "createdAt") l
  = (λ e, (Recording.createdAt e.2, e)) <$> l.
Proof.
  induction l as [|e l IH]; [reflexivity|].
  cbn [omap list_omap fmap list_fmap]. unfold index_entry at 1.
  rewrite Recording_prop_createdAt. by rewrite <- IH.
Qed.

Lemma createdAt_index_rows (t : Table Recording.t) :
  (index_entries "createdAt" t).*2 ≡ₚ map_to_list (rows t).
Proof.
  unfold index_entries. rewrite merge_sort_Permutation.
  rewrite createdAt_index_entries. rewrite <- list_fmap_compose.
  by rewrite list_fmap_id.
Qed.

Lemma createdAt_index_elem (t : Table Recording.t) ik k r :
  (ik, (k, r)) ∈ index_entries "createdAt" t
  ↔ rows t !! k = Some r ∧ ik = Recording.createdAt r.
Proof.
  unfold index_entries. rewrite merge_sort_Permutation.
  rewrite createdAt_index_entries. rewrite list_elem_of_fmap. split.
  - intros ([k' r'] & [= -> -> ->] & Hin). by apply elem_of_map_to_list in Hin.
  - intros [Hk ->]. exists (k, r). split; [reflexivity|].
    by apply elem_of_map_to_list.
Qed.

Lemma oldest_keys_NoDup n (t : Table Recording.t) : NoDup (oldest_keys n t).
Proof.
  unfold oldest_keys.
  assert (Hnd : NoDup (index_entries "createdAt" t).*2.*1).
  { rewrite createdAt_index_rows. apply NoDup_fst_map_to_list. }
  rewrite <- (take_drop n (index_entries "createdAt" t)) in Hnd.
  rewrite !fmap_app in Hnd. by apply NoDup_app in Hnd as [? _].
Qed.

Lemma oldest_keys_length n (t : Table Recording.t) :
  n ≤ size (rows t) → length (oldest_keys n t) = n.
Proof.
  intros Hn. unfold oldest_keys. rewrite !length_fmap, length_take.
  assert (length (index_entries "createdAt" t) = size (rows t)).
  { rewrite <- length_map_to_list, <- createdAt_index_rows.
    by rewrite length_fmap. }
  lia.
Qed.

Lemma oldest_keys_stored n (t : Table Recording.t) :
  Forall (λ k, is_Some (rows t !! k)) (oldest_keys n t).
Proof.
  apply Forall_forall. intros k. unfold oldest_keys.
  intros Hin. apply list_elem_of_fmap in Hin as ([k' r] & -> & Hin).
  apply list_elem_of_fmap in Hin as ([ik e] & He & Hin). cbn in He. subst e.
  apply elem_of_take in Hin as (i & Hin & _).
  apply list_elem_of_lookup_2 in Hin.
  apply createdAt_index_elem in Hin as [Hk _]. by exists r.
Qed.

(** Every key among the first [n] of the [createdAt] index belongs to a row
    that is no later than every row left out. *)
Lemma oldest_keys_older n (t : Table Recording.t) k r k' r' :
  rows t !! k = Some r →
  k ∈ oldest_keys n t →
  rows t !! k' = Some r' →
  k' ∉ oldest_keys n t →
  (Recording.createdAt r ≤ Recording.createdAt r')%string.
Proof.
  intros Hk Hin Hk' Hout.
  pose proof (index_entries_sorted "createdAt" t) as Hs.
  rewrite <- (take_drop n (index_entries "createdAt" t)) in Hs.
  assert (Hd : (Recording.createdAt r, (k, r)) ∈ take n (index_entries "createdAt" t)).
  { unfold oldest_keys in Hin. apply list_elem_of_fmap in Hin as ([k0 r0] & -> & Hin).
    apply list_elem_of_fmap in Hin as ([ik e] & He & Hin). cbn in He. subst e.
    assert (He : (ik, (k0, r0)) ∈ index_entries "createdAt" t).
    { apply elem_of_take in Hin as (i & Hin & _).
      by apply list_elem_of_lookup_2 in Hin. }
    apply createdAt_index_elem in He as [Hk0 ->]. cbn in Hk.
    by assert (r0 = r) as -> by congruence. }
  assert (Hs' : (Recording.createdAt r', (k', r')) ∈ drop n (index_entries "createdAt" t)).
  { assert (He : (Recording.createdAt r', (k', r')) ∈ index_entries "createdAt" t)
      by by apply createdAt_index_elem.
    rewrite <- (take_drop n (index_entries "createdAt" t)) in He.
    apply elem_of_app in He as [He|He]; [|done].
    exfalso. apply Hout. unfold oldest_keys.
    apply list_elem_of_fmap. exists (k', r'). split; [reflexivity|].
    apply list_elem_of_fmap. by exists (Recording.createdAt r', (k', r')). }
  pose proof (StronglySorted_app_1_elem_of _ _ _ _ _ Hs Hd Hs') as Ho.
  destruct Ho as [[_ Ho]|[Ho _]]; cbn in Ho; [exact Ho|].
  rewrite Ho. reflexivity.
Qed.

Lemma NoDup_fmap_inj_on {A B} (f : A → B) (l : list A) :
  NoDup (f <$> l) → ∀ x y, x ∈ l → y ∈ l → f x = f y → x = y.
Proof.
  induction l as [|a l IH]; intros Hnd x y Hx Hy Hf.
  { by apply elem_of_nil in Hx. }
  cbn in Hnd. apply NoDup_cons in Hnd as [Ha Hnd].
  apply elem_of_cons in Hx as [->|Hx]; apply elem_of_cons in Hy as [->|Hy].
  - reflexivity.
  - exfalso. apply Ha. rewrite Hf. by apply list_elem_of_fmap_2.
  - exfalso. apply Ha. rewrite <- Hf. by apply list_elem_of_fmap_2.
  - by apply IH.
Qed.

Lemma cleanup_within_limit settings (w : ServiceWorld) t N :
  database_recordingRetentionStrategy settings = limit_count →
  parseInt (database_maxRecordingCount settings) = Num N →
  recordings (db w) = Some t →
  faults w = [] →
  (Z.of_nat (size (rows t)) ≤ N)%Z →
  cleanupExpiredRecordings settings w = (Returned (Ok tt), w).
Proof.
  intros Hs Hp Ht Hf Hle.
  unfold cleanupExpiredRecordings. rewrite Hs, Hp. eff_unfold.
  rewrite Ht, request_run, (next_fault_nil w Hf), (answered_nil w Hf).
  cbn [num_eq num_le].
  destruct (Z.of_nat (size (rows t)) =? 0)%Z; [reflexivity|].
  apply Z.leb_le in Hle. by rewrite Hle.
Qed.

Lemma to_double_exact (z : Z) : (Z.abs z < 2 ^ 53)%Z → to_double z = Num z.
Proof. intros Hz. unfold to_double. by rewrite (proj2 (Z.ltb_lt _ _) Hz). Qed.

Lemma first_rows_take {A} (z : Z) (l : list A) :
  first_rows z l = take (Z.to_nat z) l.
Proof.
  unfold first_rows.
  destruct (decide (z ≤ Z.of_nat (length l))%Z) as [Hle|Hgt].
  - by rewrite Z.min_l.
  - rewrite Z.min_r by lia. rewrite Nat2Z.id.
    by rewrite !take_ge by lia.
Qed.

Lemma apply_limit_forward {A} (z : Z) (l : list A) :
  (0 < z < 2 ^ 32)%Z →
  apply_limit false (Some (Num z)) l = Returned (take (Z.to_nat z) l).
Proof.
  intros [H0 H1]. unfold apply_limit.
  rewrite (proj2 (Z.leb_gt _ _)) by lia.
  rewrite (proj2 (Z.ltb_lt _ _)) by lia.
  by rewrite first_rows_take.
Qed.

Lemma apply_limit_out_of_range {A} (z : Z) (l : list A) :
  (2 ^ 32 ≤ z)%Z → apply_limit false (Some (Num z)) l = Thrown TypeError.
Proof.
  intros Hz. unfold apply_limit.
  rewrite (proj2 (Z.leb_gt _ _)) by lia.
  by rewrite (proj2 (Z.ltb_ge _ _)) by lia.
Qed.

(** Above the maximum, with an excess that [getAllKeys] accepts as its
    count: the keys at the head of the [createdAt] index are deleted. *)
Lemma cleanup_over_limit_run settings (w : ServiceWorld) t N :
  database_recordingRetentionStrategy settings = limit_count →
  parseInt (database_maxRecordingCount settings) = Num N →
  recordings (db w) = Some t →
  faults w = [] →
  indexed (schema t) "createdAt" →
  size (rows t) ≠ 0 →
  (N < Z.of_nat (size (rows t)))%Z →
  (Z.of_nat (size (rows t)) - N < 2 ^ 32)%Z →
  cleanupExpiredRecordings settings w =
    (Returned (Ok tt),
     set_db (h_set db_recordings
               (delete_keys
                  (oldest_keys (Z.to_nat (Z.of_nat (size (rows t)) - N)) t) t)
               (db w)) w).
Proof.
  intros Hs Hp Ht Hf Hi H0 Hlt Hmax.
  unfold cleanupExpiredRecordings. rewrite Hs, Hp. eff_unfold.
  rewrite Ht, request_run, (next_fault_nil w Hf), (answered_nil w Hf).
  cbn [num_eq num_le num_sub].
  rewrite (proj2 (Z.eqb_neq _ 0)) by lia.
  rewrite (proj2 (Z.leb_gt _ _)) by lia.
  rewrite to_double_exact by lia.
  rewrite Ht. unfold scan.
  cbn [c_keyPath c_equals c_reverse c_limit orderBy limit].
  rewrite decide_True by exact Hi.
  rewrite apply_limit_forward by lia.
  rewrite request_run, (next_fault_nil w Hf), (answered_nil w Hf).
  rewrite Ht, request_run, (next_fault_nil w Hf), (answered_nil w Hf).
  reflexivity.
Qed.

(** Above the maximum, with an excess from 2^32 on: the query throws and
    nothing is deleted. *)
Lemma cleanup_excess_out_of_range settings (w : ServiceWorld) t N :
  database_recordingRetentionStrategy settings = limit_count →
  parseInt (database_maxRecordingCount settings) = Num N →
  recordings (db w) = Some t →
  next_fault w = None →
  indexed (schema t) "createdAt" →
  size (rows t) ≠ 0 →
  (2 ^ 32 ≤ Z.of_nat (size (rows t)) - N < 2 ^ 53)%Z →
  cleanupExpiredRecordings settings w =
    (Returned (Err (DbServiceErr "Unable to clean up old recordings"
                                 "Some old recordings could not be deleted"
                                 TypeError)),
     answered w).
Proof.
  intros Hs Hp Ht Hq Hi H0 Hmax.
  unfold cleanupExpiredRecordings. rewrite Hs, Hp. eff_unfold.
  rewrite Ht, request_run, Hq.
  cbn [num_eq num_le num_sub].
  rewrite (proj2 (Z.eqb_neq _ 0)) by lia.
  rewrite (proj2 (Z.leb_gt _ _)) by lia.
  rewrite to_double_exact by lia.
  rewrite answered_db, Ht. unfold scan.
  cbn [c_keyPath c_equals c_reverse c_limit orderBy limit].
  rewrite decide_True by exact Hi.
  rewrite apply_limit_out_of_range by lia.
  reflexivity.
Qed.

(** What the function does on a table that has the index.  With
    [keep-forever], [cleanupExpiredRecordings] does nothing at all.  With
    [limit-count] and a maximum that parses to [N], on a table of [M]
    recordings whose requests are answered: when [M <= N] it does nothing;
    when [M > N] (with [N] not negative, [M - N] below 2^32, [createdAt]
    indexed and the creation times distinct) it succeeds, keeps [N] of the
    rows and every row it deleted was created strictly before every row it
    kept, so it deleted exactly the [M - N] oldest; and running it again
    right away changes nothing.  Under any fault schedule it deletes
    nothing when [M <= N]. *)
Lemma cleanup_deletes_the_oldest_excess_of_an_indexed_table
    (settings : Settings) (w : ServiceWorld) :
  (database_recordingRetentionStrategy settings = keep_forever →
   cleanupExpiredRecordings settings w = (Returned (Ok tt), w))
  ∧ (∀ t N,
       database_recordingRetentionStrategy settings = limit_count →
       parseInt (database_maxRecordingCount settings) = Num N →
       recordings (db w) = Some t →
       faults w = [] →
       ((Z.of_nat (size (rows t)) ≤ N)%Z →
        cleanupExpiredRecordings settings w = (Returned (Ok tt), w))
       ∧ ((0 ≤ N < Z.of_nat (size (rows t)))%Z →
          (Z.of_nat (size (rows t)) - N < 2 ^ 32)%Z →
          indexed (schema t) "createdAt" →
          NoDup (Recording.createdAt <$> (map_to_list (rows t)).*2) →
          ∃ w' t',
            cleanupExpiredRecordings settings w = (Returned (Ok tt), w')
            ∧ recordings (db w') = Some t'
            ∧ rows t' ⊆ rows t
            ∧ Z.of_nat (size (rows t')) = N
            ∧ (∀ k r k' r',
                 rows t !! k = Some r → rows t' !! k = None →
                 rows t' !! k' = Some r' →
                 (Recording.createdAt r ≤ Recording.createdAt r')%string
                 ∧ Recording.createdAt r ≠ Recording.createdAt r')
            ∧ cleanupExpiredRecordings settings w' = (Returned (Ok tt), w')))
  ∧ (∀ t N,
       database_recordingRetentionStrategy settings = limit_count →
       parseInt (database_maxRecordingCount settings) = Num N →
       recordings (db w) = Some t →
       (Z.of_nat (size (rows t)) ≤ N)%Z →
       db (cleanupExpiredRecordings settings w).2 = db w).
Proof.
  split.
  { intros Hs. unfold cleanupExpiredRecordings. by rewrite Hs. }
  split; cycle 1.
  { intros t N Hs Hp Ht Hle.
    unfold cleanupExpiredRecordings. rewrite Hs, Hp. eff_unfold.
    rewrite Ht, request_run. destruct (next_fault w); [apply answered_db|].
    cbn [num_eq num_le].
    destruct (Z.of_nat (size (rows t)) =? 0)%Z; [apply answered_db|].
    apply Z.leb_le in Hle. rewrite Hle. apply answered_db. }
  intros t N Hs Hp Ht Hf. split.
  { by apply cleanup_within_limit. }
  intros HN Hmax Hi Hnd.
  assert (Hdistinct : ∀ k1 r1 k2 r2,
            rows t !! k1 = Some r1 → rows t !! k2 = Some r2 →
            Recording.createdAt r1 = Recording.createdAt r2 → k1 = k2).
  { intros k1 r1 k2 r2 H1 H2 Heq.
    apply elem_of_map_to_list in H1, H2.
    rewrite <- list_fmap_compose in Hnd.
    pose proof (NoDup_fmap_inj_on _ _ Hnd (k1, r1) (k2, r2) H1 H2 Heq).
    congruence. }
  set (n := Z.to_nat (Z.of_nat (size (rows t)) - N)).
  set (t' := delete_keys (oldest_keys n t) t).
  assert (Hsize : Z.of_nat (size (rows t')) = N).
  { unfold t', delete_keys. cbn [rows].
    rewrite size_foldr_delete
      by (apply oldest_keys_NoDup || apply oldest_keys_stored).
    rewrite oldest_keys_length by (unfold n; lia). unfold n. lia. }
  eexists _, t'. split; [apply cleanup_over_limit_run; try done; lia|].
  split; [reflexivity|]. split; [|split; [exact Hsize|split]].
  - apply map_subseteq_spec. intros k r.
    unfold t', delete_keys. cbn [rows].
    rewrite lookup_foldr_delete_Some. tauto.
  - intros k r k' r' Hk Hgone Hkept.
    unfold t', delete_keys in Hgone, Hkept. cbn [rows] in Hgone, Hkept.
    apply lookup_foldr_delete_Some in Hkept as [Hout Hk'].
    assert (Hin : k ∈ oldest_keys n t).
    { destruct (decide (k ∈ oldest_keys n t)) as [|Hnot]; [done|].
      rewrite lookup_foldr_delete_not_elem_of in Hgone by done. congruence. }
    split; [by eapply (oldest_keys_older n t k r k' r')|].
    intros Heq. apply Hout.
    by rewrite <- (Hdistinct k r k' r' Hk Hk' Heq).
  - apply (cleanup_within_limit settings _ t' N); try done.
    lia.
Qed.


(* ================================================================== *)
(** * What the two upgrades do to the rows *)
(* ================================================================== *)

Section BulkAdd.
Context {V : Type} `{Row V}.

(** Rows with distinct, extractable, unused keys are all added. *)
Lemma bulk_add_rows_fresh (l : list (string * V)) s (m0 : gmap string V) :
  NoDup l.*1 →
  (∀ k v, (k, v) ∈ l → pk v = Some k) →
  (∀ k, k ∈ l.*1 → m0 !! k = None) →
  bulk_add_rows l.*2 (mkTable s m0) = (mkTable s (list_to_map l ∪ m0), 0).
Proof.
  revert m0. induction l as [|[k v] l IH]; intros m0 Hnd Hpk Hfree.
  { cbn. by rewrite (left_id_L ∅ (∪)). }
  cbn [fmap list_fmap snd bulk_add_rows]. cbn in Hnd.
  apply NoDup_cons in Hnd as [Hk Hnd].
  unfold add_row. rewrite (Hpk k v) by left. cbn [rows schema].
  rewrite (Hfree k) by left.
  rewrite IH; [| done | by intros; apply Hpk; right |].
  - f_equal. f_equal. cbn [list_to_map foldr uncurry fst snd].
    rewrite <- insert_union_r by by apply not_elem_of_list_to_map_1.
    by rewrite insert_union_l.
  - intros k' Hk'. rewrite lookup_insert_ne by (intros ->; done).
    apply Hfree. by right.
Qed.

Lemma entries_perm (t : Table V) : entries t ≡ₚ map_to_list (rows t).
Proof. unfold entries. apply merge_sort_Permutation. Qed.

Lemma elem_of_entries (t : Table V) k v :
  (k, v) ∈ entries t ↔ rows t !! k = Some v.
Proof. rewrite entries_perm. apply elem_of_map_to_list. Qed.

Lemma elem_of_values (t : Table V) v :
  v ∈ values t ↔ ∃ k, rows t !! k = Some v.
Proof.
  unfold values. rewrite list_elem_of_fmap. split.
  - intros ([k v'] & -> & Hin). exists k. by apply elem_of_entries.
  - intros [k Hk]. exists (k, v). split; [done|]. by apply elem_of_entries.
Qed.
End BulkAdd.

(** Adding the image of a table's rows to an empty table gives the image
    of the table, as long as the image of a row keeps the row's key. *)
Lemma bulk_add_mapped {V V'} `{Row V} `{Row V'} (f : V → V')
    (t : Table V) s :
  (∀ k v, rows t !! k = Some v → pk (f v) = Some k) →
  bulk_add_rows (f <$> values t) (mkTable s ∅) = (mkTable s (f <$> rows t), 0).
Proof.
  intros Hpk.
  assert (Hl : f <$> values t = (prod_map id f <$> entries t).*2).
  { unfold values. rewrite <- !list_fmap_compose. apply list_fmap_ext.
    by intros ? [??]. }
  rewrite Hl. rewrite bulk_add_rows_fresh.
  - f_equal. f_equal. rewrite (right_id_L ∅ (∪)).
    rewrite list_to_map_fmap. f_equal.
    rewrite (list_to_map_proper _ (map_to_list (rows t))).
    + apply list_to_map_to_list.
    + rewrite entries_perm. apply NoDup_fst_map_to_list.
    + apply entries_perm.
  - rewrite <- list_fmap_compose.
    rewrite (list_fmap_ext _ fst (entries t)) by by intros ? [??].
    rewrite entries_perm. apply NoDup_fst_map_to_list.
  - intros k v' Hin. apply list_elem_of_fmap in Hin as ([k0 v] & [= -> ->] & Hin).
    apply Hpk. by apply elem_of_entries.
  - intros. apply lookup_empty.
Qed.

Lemma find_among {A} (p : A → bool) (Q : A → Prop) (l : list A) :
  (∃ x, x ∈ l ∧ p x = true) →
  (∀ x, x ∈ l → p x = true → Q x) →
  ∃ x, List.find p l = Some x ∧ Q x.
Proof.
  intros (x0 & Hin0 & Hp0) HQ.
  destruct (List.find p l) as [x|] eqn:Hfind.
  - exists x. split; [done|].
    apply List.find_some in Hfind as [Hin Hp].
    apply HQ; [by apply list_elem_of_In|done].
  - apply list_elem_of_In in Hin0.
    pose proof (List.find_none _ _ Hfind _ Hin0). congruence.
Qed.

Lemma field_id_keyed (t : Table Obj) k o :
  keyed_obj t → rows t !! k = Some o → field "id" o = VStr k.
Proof. intros Hkeyed Hk. unfold field. by rewrite (Hkeyed k o Hk). Qed.

Lemma blob_row_id o : field "id" (blob_row o) = field "id" o.
Proof. unfold field at 1, blob_row. by rewrite lookup_insert_eq. Qed.

Lemma blob_row_blob o : field "blob" (blob_row o) = field "blob" o.
Proof.
  unfold field at 1, blob_row.
  rewrite lookup_insert_ne by done. by rewrite lookup_singleton_eq.
Qed.

Lemma without_blob_id o : field "id" (without_blob o) = field "id" o.
Proof. unfold field, without_blob. by rewrite lookup_delete_ne. Qed.

(** The blob [version(3).upgrade] finds for a metadata row is the blob its
    recording had. *)
Lemma blob_of_found (t tb : Table Obj) k o :
  keyed_obj t →
  rows tb = blob_row <$> rows t →
  rows t !! k = Some o →
  blob_of (values tb) (without_blob o) = field "blob" o.
Proof.
  intros Hkeyed Htb Hk. unfold blob_of.
  rewrite without_blob_id, (field_id_keyed t k o) by done.
  destruct (find_among
              (λ b, strict_eq (field "id" b) (VStr k))
              (λ b, field "blob" b = field "blob" o)
              (values tb)) as (b & -> & Hb); [| |exact Hb].
  - exists (blob_row o). split.
    + apply elem_of_values. exists k. by rewrite Htb, lookup_fmap, Hk.
    + rewrite blob_row_id, (field_id_keyed t k o) by done.
      cbn. by rewrite bool_decide_eq_true.
  - intros b Hb Hp. apply elem_of_values in Hb as [k' Hk'].
    rewrite Htb, lookup_fmap in Hk'.
    destruct (rows t !! k') as [o'|] eqn:Ho'; [|discriminate].
    injection Hk' as <-.
    rewrite blob_row_id, (field_id_keyed t k' o') in Hp by done.
    cbn in Hp. apply bool_decide_eq_true in Hp as ->.
    assert (o' = o) as -> by congruence. apply blob_row_blob.
Qed.

Lemma with_blob_merge (t tb : Table Obj) k o :
  keyed_obj t →
  rows tb = blob_row <$> rows t →
  rows t !! k = Some o →
  <["blob" := blob_of (values tb) (without_blob o)]> (without_blob o)
  = with_blob o.
Proof.
  intros Hkeyed Htb Hk. rewrite (blob_of_found t tb k o) by done.
  unfold without_blob, with_blob. apply insert_delete_eq.
Qed.

Section UpgradeRows.
Variable JSON_stringify : DumpState → string.
Implicit Types w : World Store unit.

(** [version(2).upgrade], every request answered: each recording goes to
    [recordingMetadata] without its blob and to [recordingBlobs] as an id
    and a blob. *)
Lemma upgrade_v2_run w t sm sb :
  tables (db w) !! "recordings" = Some t →
  tables (db w) !! "recordingMetadata" = Some (mkTable sm ∅) →
  tables (db w) !! "recordingBlobs" = Some (mkTable sb ∅) →
  keyed_obj t →
  faults w = [] →
  upgrade_v2 JSON_stringify w =
    (Returned tt,
     set_db (mkStore (version (db w))
               (<["recordingBlobs" := mkTable sb (blob_row <$> rows t)]>
                  (<["recordingMetadata" :=
                       mkTable sm (without_blob <$> rows t)]>
                     (tables (db w))))) w).
Proof.
  intros Hr Hm Hb Hkeyed Hf.
  unfold upgrade_v2, try_catch, split_recordings. eff_unfold.
  rewrite Hr, request_run, (next_fault_nil w Hf), (answered_nil w Hf).
  rewrite Hm, request_run, (next_fault_nil w Hf), (answered_nil w Hf).
  rewrite (bulk_add_mapped (λ o : Obj, delete "blob" o) t sm).
  2:{ intros k o Hk. cbn. unfold str_prop.
      rewrite lookup_delete_ne by done. by rewrite (Hkeyed k o Hk). }
  cbn [db set_db tables version].
  rewrite lookup_insert_ne by done. rewrite Hb.
  rewrite request_run.
  replace (next_fault _) with (@None JsError)
    by (unfold next_fault; cbn; by rewrite Hf).
  rewrite (bulk_add_mapped
             (λ o : Obj, {[ "id" := field "id" o; "blob" := field "blob" o ]})
             t sb).
  2:{ intros k o Hk. cbn. unfold str_prop.
      rewrite lookup_insert_eq. by rewrite (field_id_keyed t k o). }
  f_equal. unfold answered. cbn. rewrite Hf. reflexivity.
Qed.

(** [version(3).upgrade], every request answered: each metadata row gets
    its blob back and goes to [recordings]. *)
Lemma upgrade_v3_run w t tm tb sr :
  tables (db w) !! "recordingMetadata" = Some tm →
  rows tm = without_blob <$> rows t →
  tables (db w) !! "recordingBlobs" = Some tb →
  rows tb = blob_row <$> rows t →
  tables (db w) !! "recordings" = Some (mkTable sr ∅) →
  keyed_obj t →
  faults w = [] →
  upgrade_v3 JSON_stringify w =
    (Returned tt,
     set_db (mkStore (version (db w))
               (<["recordings" := mkTable sr (with_blob <$> rows t)]>
                  (tables (db w)))) w).
Proof.
  intros Hm Htm Hb Htb Hr Hkeyed Hf.
  unfold upgrade_v3, try_catch, merge_recordings. eff_unfold.
  rewrite Hm, request_run, (next_fault_nil w Hf), (answered_nil w Hf).
  rewrite Hb, request_run, (next_fault_nil w Hf), (answered_nil w Hf).
  rewrite Hr, request_run, (next_fault_nil w Hf), (answered_nil w Hf).
  rewrite (bulk_add_mapped
             (λ record : Obj, <["blob" := blob_of (values tb) record]> record)
             tm sr).
  2:{ intros k m. rewrite Htm, lookup_fmap.
      destruct (rows t !! k) as [o|] eqn:Ho; [|discriminate].
      intros [= <-]. cbn. unfold str_prop, without_blob.
      rewrite lookup_insert_ne by done. rewrite lookup_delete_ne by done.
      by rewrite (Hkeyed k o Ho). }
  assert (Hrows :
    (λ record : Obj, <["blob" := blob_of (values tb) record]> record)
      <$> rows tm = with_blob <$> rows t).
  { rewrite Htm, <- map_fmap_compose.
    apply map_fmap_ext. intros k o Ho. cbn.
    by apply (with_blob_merge t tb k o). }
  rewrite Hrows. reflexivity.
Qed.
End UpgradeRows.

Section OpenFromV1.
Variable JSON_stringify : DumpState → string.
Implicit Types w : World Store unit.

Lemma schema_upto_2 :
  schema_upto 2 (versions JSON_stringify)
  = {[ "recordingMetadata" := id_timestamp; "recordingBlobs" := id_only ]}.
Proof. vm_compute. reflexivity. Qed.

Lemma schema_upto_3 :
  schema_upto 3 (versions JSON_stringify) = {[ "recordings" := id_timestamp ]}.
Proof. vm_compute. reflexivity. Qed.

Lemma create_table_run e w :
  tables (db w) !! e.1 = None →
  create_table e w
  = (Returned tt, retable (<[e.1 := mkTable e.2 ∅]> (tables (db w))) w).
Proof. intros He. unfold create_table. by rewrite He. Qed.

(** When every store already has the schema the new version gives it,
    adopting the schemas changes nothing. *)
Lemma adopt_schemas_same sch w :
  (∀ name t, tables (db w) !! name = Some t →
             default (schema t) (sch !! name) = schema t) →
  adopt_schemas sch w = (Returned tt, retable (tables (db w)) w).
Proof.
  intros Hsame. unfold adopt_schemas, modify, retable. do 3 f_equal.
  apply map_eq. intros name. rewrite map_lookup_imap.
  destruct (tables (db w) !! name) as [t|] eqn:Ht; [|reflexivity].
  cbn. rewrite (Hsame name t Ht). by destruct t.
Qed.

Lemma retable_same w : retable (tables (db w)) w = w.
Proof. by destruct w as [[v m] ? ? ? ? ? ? ?]. Qed.

Lemma to_create_2 :
  map_to_list ({[ "recordingMetadata" := id_timestamp;
                  "recordingBlobs" := id_only ]} : gmap string TableSchema)
  = [("recordingMetadata", id_timestamp); ("recordingBlobs", id_only)].
Proof. vm_compute. reflexivity. Qed.

Lemma drop_removed_run sch w :
  drop_removed sch w
  = (Returned tt,
     retable (filter (λ e, is_Some (sch !! e.1)) (tables (db w))) w).
Proof. reflexivity. Qed.

Lemma retable_retable m m' w : retable m' (retable m w) = retable m' w.
Proof. reflexivity. Qed.

Lemma tables_retable m w : tables (db (retable m w)) = m.
Proof. reflexivity. Qed.

Lemma keep_v2_stores (a b a0 b0 t : Table Obj) :
  filter (λ e : string * Table Obj,
            is_Some (({[ "recordingMetadata" := id_timestamp;
                         "recordingBlobs" := id_only ]}
                      : gmap string TableSchema) !! e.1))
         (<["recordingBlobs" := b]>
            (<["recordingMetadata" := a]>
               (<["recordingBlobs" := b0]>
                  (<["recordingMetadata" := a0]>
                     ({[ "recordings" := t ]} : gmap string (Table Obj))))))
  = {[ "recordingMetadata" := a; "recordingBlobs" := b ]}.
Proof.
  match goal with |- filter _ ?L = ?R => set (L0 := L); set (R0 := R) end.
  assert (HLb : L0 !! "recordingBlobs" = Some b) by apply lookup_insert_eq.
  assert (HLm : L0 !! "recordingMetadata" = Some a).
  { unfold L0. rewrite lookup_insert_ne by done. apply lookup_insert_eq. }
  assert (HRb : R0 !! "recordingBlobs" = Some b).
  { unfold R0. rewrite lookup_insert_ne by done. apply lookup_singleton_eq. }
  assert (HRm : R0 !! "recordingMetadata" = Some a) by apply lookup_insert_eq.
  assert (HRo : ∀ i, i ≠ "recordingBlobs" → i ≠ "recordingMetadata" →
                     R0 !! i = None).
  { intros i ??. unfold R0. rewrite lookup_insert_ne by done.
    by apply lookup_singleton_ne. }
  apply map_eq. intros i. apply option_eq. intros x.
  rewrite map_lookup_filter_Some. cbn [fst].
  destruct (decide (i = "recordingBlobs")) as [->|Hb].
  { rewrite HLb, HRb. split; [by intros [? _]|].
    intros ->. split; [done|]. eexists. vm_compute. reflexivity. }
  destruct (decide (i = "recordingMetadata")) as [->|Hm].
  { rewrite HLm, HRm. split; [by intros [? _]|].
    intros ->. split; [done|]. eexists. vm_compute. reflexivity. }
  rewrite HRo by done. split; [|done]. intros [_ [y Hy]].
  rewrite lookup_insert_ne in Hy by done.
  by rewrite lookup_singleton_ne in Hy.
Qed.

Lemma run_version_2 v w t :
  v_number v = 2 →
  v_upgrade v = Some (upgrade_v2 JSON_stringify) →
  tables (db w) = {[ "recordings" := t ]} →
  keyed_obj t →
  faults w = [] →
  run_version (versions JSON_stringify) v w
  = (Returned tt,
     retable {[ "recordingMetadata" := mkTable id_timestamp (without_blob <$> rows t);
                "recordingBlobs" := mkTable id_only (blob_row <$> rows t) ]} w).
Proof.
  intros Hn Hu Ht Hkeyed Hf.
  unfold run_version. rewrite Hn, Hu, schema_upto_2, to_create_2.
  unfold bind at 1. unfold gets. rewrite Ht.
  rewrite !filter_cons, filter_nil.
  rewrite !decide_True by (cbn; by apply lookup_singleton_ne).
  cbn [create_tables]. unfold bind at 1 2.
  rewrite create_table_run by (rewrite Ht; by apply lookup_singleton_ne).
  cbn [fst snd]. unfold bind at 1 2.
  rewrite create_table_run
    by (cbn; rewrite Ht, lookup_insert_ne by done; by apply lookup_singleton_ne).
  cbn [fst snd ret]. unfold bind at 1.
  rewrite adopt_schemas_same.
  2:{ intros name tb. cbn. rewrite Ht. intros Hl.
      apply lookup_insert_Some in Hl as [[<- <-]|[_ Hl]]; [done|].
      apply lookup_insert_Some in Hl as [[<- <-]|[_ Hl]]; [done|].
      apply lookup_singleton_Some in Hl as [<- <-]. done. }
  rewrite retable_same, !tables_retable, retable_retable, Ht.
  erewrite (upgrade_v2_run JSON_stringify _ t id_timestamp id_only);
    [| | | | exact Hkeyed | exact Hf].
  2:{ rewrite tables_retable, !lookup_insert_ne by done.
      apply lookup_singleton_eq. }
  2:{ rewrite tables_retable, lookup_insert_ne by done. apply lookup_insert_eq. }
  2:{ rewrite tables_retable. apply lookup_insert_eq. }
  rewrite drop_removed_run. cbn [db set_db tables retable].
  rewrite keep_v2_stores. reflexivity.
Qed.

Lemma keep_v3_stores (r r0 tm tb : Table Obj) :
  filter (λ e : string * Table Obj,
            is_Some (({[ "recordings" := id_timestamp ]}
                      : gmap string TableSchema) !! e.1))
         (<["recordings" := r]>
            (<["recordings" := r0]>
               ({[ "recordingMetadata" := tm; "recordingBlobs" := tb ]}
                : gmap string (Table Obj))))
  = {[ "recordings" := r ]}.
Proof.
  match goal with |- filter _ ?L = ?R => set (L0 := L); set (R0 := R) end.
  assert (HL : L0 !! "recordings" = Some r) by apply lookup_insert_eq.
  assert (HR : R0 !! "recordings" = Some r) by apply lookup_singleton_eq.
  assert (HRo : ∀ i, i ≠ "recordings" → R0 !! i = None).
  { intros i ?. by apply lookup_singleton_ne. }
  apply map_eq. intros i. apply option_eq. intros x.
  rewrite map_lookup_filter_Some. cbn [fst].
  destruct (decide (i = "recordings")) as [->|Hr].
  { rewrite HL, HR. split; [by intros [? _]|]. intros ->. split; [done|].
    eexists. apply lookup_singleton_eq. }
  rewrite HRo by done. split; [|done]. intros [_ [y Hy]].
  by rewrite lookup_singleton_ne in Hy.
Qed.

Lemma run_version_3 v w t tm tb :
  v_number v = 3 →
  v_upgrade v = Some (upgrade_v3 JSON_stringify) →
  tables (db w) = {[ "recordingMetadata" := tm; "recordingBlobs" := tb ]} →
  rows tm = without_blob <$> rows t →
  rows tb = blob_row <$> rows t →
  keyed_obj t →
  faults w = [] →
  run_version (versions JSON_stringify) v w
  = (Returned tt,
     retable {[ "recordings" := mkTable id_timestamp (with_blob <$> rows t) ]} w).
Proof.
  intros Hn Hu Ht Htm Htb Hkeyed Hf.
  assert (Hnone : tables (db w) !! "recordings" = None).
  { rewrite Ht, lookup_insert_ne by done. by apply lookup_singleton_ne. }
  unfold run_version. rewrite Hn, Hu, schema_upto_3, map_to_list_singleton.
  unfold bind at 1. unfold gets.
  rewrite !filter_cons, filter_nil.
  rewrite decide_True by exact Hnone.
  cbn [create_tables]. unfold bind at 1 2.
  rewrite create_table_run by exact Hnone.
  cbn [fst snd ret]. unfold bind at 1.
  rewrite adopt_schemas_same.
  2:{ intros name tb'. rewrite tables_retable, Ht. cbn [fst snd]. intros Hl.
      apply lookup_insert_Some in Hl as [[<- <-]|[Hne Hl]];
        [by rewrite lookup_singleton_eq|].
      by rewrite lookup_singleton_ne. }
  rewrite retable_same, ?tables_retable. unfold bind at 1.
  erewrite (upgrade_v3_run JSON_stringify _ t tm tb id_timestamp);
    [| | exact Htm | | exact Htb | | exact Hkeyed | exact Hf].
  2:{ rewrite tables_retable, Ht, lookup_insert_ne by done.
      apply lookup_insert_eq. }
  2:{ rewrite tables_retable, Ht, !lookup_insert_ne by done.
      apply lookup_singleton_eq. }
  2:{ rewrite tables_retable. apply lookup_insert_eq. }
  rewrite drop_removed_run. cbn [db set_db tables retable fst snd].
  rewrite Ht, keep_v3_stores. reflexivity.
Qed.

(** From a version-1 database whose rows sit under their ids, with every
    request answered, [open] succeeds and leaves, at version 3, a single
    [recordings] table that holds each original recording under its key,
    unchanged but for [blob], which is now always a property (with the
    value it had, [undefined] if it had none).  No property is renamed:
    [timestamp] stays and no [createdAt] or [updatedAt] appears. *)
Theorem open_v1_keeps_every_recording w t :
  version (db w) = 1 →
  tables (db w) = {[ "recordings" := t ]} →
  keyed_obj t →
  faults w = [] →
  open (versions JSON_stringify) w
  = (Returned tt,
     set_db (mkStore 3 {[ "recordings" :=
                            mkTable id_timestamp (with_blob <$> rows t) ]}) w).
Proof.
  intros Hv Ht Hkeyed Hf. unfold open.
  change (target_version (versions JSON_stringify)) with 3.
  rewrite Hv. rewrite decide_False by done. rewrite decide_False by lia.
  change (filter _ (versions JSON_stringify))
    with (drop 1 (versions JSON_stringify)).
  cbn [drop versions run_versions]. unfold bind at 1.
  erewrite run_version_2; [| reflexivity | reflexivity | exact Ht
                           | exact Hkeyed | exact Hf].
  unfold bind at 1.
  erewrite (run_version_3 _ _ t);
    [| reflexivity | reflexivity | reflexivity | reflexivity | reflexivity
     | exact Hkeyed | exact Hf].
  reflexivity.
Qed.

Lemma with_blob_keeps o p :
  p ≠ "blob" → with_blob o !! p = o !! p.
Proof. intros Hp. unfold with_blob. by rewrite lookup_insert_ne. Qed.
End OpenFromV1.

(* ================================================================== *)
(** * Where [open] ends *)
(* ================================================================== *)

(** Whatever the stored version, an [open] that succeeds leaves the
    database at version 3, the highest one the constructor declares. *)
Lemma open_ends_at_version_3 (JSON_stringify : DumpState → string)
    (w w' : World Store unit) :
  open (versions JSON_stringify) w = (Returned tt, w') →
  version (db w') = 3.
Proof.
  unfold open.
  change (target_version (versions JSON_stringify)) with 3.
  destruct (decide (version (db w) = 0)); [by intros [= <-]|].
  destruct (decide (3 < version (db w))); [intros [=]|].
  destruct (run_versions _ _ w) as [[[]|e] w1]; [|intros [=]].
  by intros [= <-].
Qed.

(** C1.  Opening the sample version-1 database, with every request
    answered, succeeds and stops at version 3, not at [DB_VERSION]: the
    only table is [recordings], still indexed by [timestamp], and its one
    row is the original object, [timestamp] included, with neither
    [createdAt] nor [updatedAt]. *)
Theorem C1_open_stops_at_version_3 (JSON_stringify : DumpState → string) :
  ∃ w' t,
    open (versions JSON_stringify) (v1_world []) = (Returned tt, w')
    ∧ version (db w') = 3
    ∧ version (db w') ≠ DB_VERSION
    ∧ tables (db w') = {[ "recordings" := t ]}
    ∧ schema t = {| primKey := "id"; indexes := ["timestamp"] |}
    ∧ rows t = {[ "rec-a" := v1_recording ]}
    ∧ v1_recording !! "timestamp" = Some (VStr "2024-11-05T09:00:00.000Z")
    ∧ v1_recording !! "createdAt" = None
    ∧ v1_recording !! "updatedAt" = None.
Proof.
  eexists _, (mkTable _ _). split; [vm_compute; reflexivity|].
  cbn [db version tables schema rows].
  split; [reflexivity|]. split; [discriminate|].
  split; [vm_compute; reflexivity|].
  repeat split; vm_compute; reflexivity.
Qed.

(* ================================================================== *)
(** * The mirror *)
(* ================================================================== *)

Lemma values_perm {V} `{Row V} (t : Table V) :
  values t ≡ₚ (map_to_list (rows t)).*2.
Proof. unfold values, entries. by rewrite merge_sort_Permutation. Qed.

Lemma filter_all {A} (P : A → Prop) `{∀ x, Decision (P x)} (l : list A) :
  Forall P l → filter P l = l.
Proof.
  induction 1 as [|x l Hx Hl IH]; [reflexivity|].
  rewrite filter_cons, decide_True by done. by rewrite IH.
Qed.

Lemma others_have_other_ids (t : Table Recording.t) key :
  keyed t →
  Forall (λ r, Recording.id r ≠ key) (map_to_list (delete key (rows t))).*2.
Proof.
  intros Hkeyed. apply Forall_forall. intros r Hr.
  apply list_elem_of_fmap in Hr as ([k r'] & -> & Hin).
  apply elem_of_map_to_list in Hin. apply lookup_delete_Some in Hin as [Hne Hk].
  cbn. by rewrite (Hkeyed _ _ Hk).
Qed.

(** [addRecording] keeps the mirror in step with the table. *)
Lemma addRecording_in_sync recording (w w' : ServiceWorld) :
  in_sync w →
  addRecording recording w = (Returned (Ok tt), w') →
  in_sync w'.
Proof.
  intros (t & Ht & Hkeyed & Hsync).
  unfold addRecording. eff_unfold. rewrite Ht, request_run.
  destruct (next_fault w); [intros [=]|].
  unfold add_row. cbn [pk Recording_Row].
  destruct (rows t !! Recording.id recording) eqn:Hnew; [intros [=]|].
  intros [= <-]. eexists. split; [reflexivity|]. split.
  - intros k r. cbn [rows]. rewrite lookup_insert.
    case_decide; [by intros [= <-]|]. apply Hkeyed.
  - cbn [local set_local set_db]. rewrite answered_local.
    rewrite !values_perm in *. cbn [rows].
    rewrite map_to_list_insert by done. cbn.
    rewrite <- Hsync. by rewrite Permutation_app_comm.
Qed.

(** So does [deleteRecording]. *)
Lemma deleteRecording_in_sync recording (w w' : ServiceWorld) :
  in_sync w →
  deleteRecording recording w = (Returned (Ok tt), w') →
  in_sync w'.
Proof.
  intros (t & Ht & Hkeyed & Hsync).
  unfold deleteRecording. eff_unfold. rewrite Ht, request_run.
  destruct (next_fault w); [intros [=]|].
  intros [= <-]. eexists. split; [reflexivity|]. split.
  - intros k r. cbn [rows delete_key]. rewrite lookup_delete.
    case_decide; [intros [=]|]. apply Hkeyed.
  - cbn [local set_local set_db]. rewrite answered_local.
    rewrite !values_perm in *. cbn [rows delete_key].
    rewrite Hsync. clear Hsync.
    pose proof (others_have_other_ids t (Recording.id recording) Hkeyed) as Hrest.
    destruct (rows t !! Recording.id recording) as [r0|] eqn:Hr0.
    + rewrite <- (map_to_list_delete _ _ _ Hr0). cbn [fmap list_fmap snd].
      rewrite filter_cons. rewrite decide_False
        by (intros Hne; apply Hne; by apply Hkeyed).
      by rewrite filter_all.
    + rewrite delete_id in * by done. by rewrite filter_all.
Qed.

(** And so does [updateRecording] when the row is there to be replaced. *)
Lemma updateRecording_in_sync recording (w w' : ServiceWorld) :
  in_sync w →
  (∃ t, recordings (db w) = Some t
        ∧ is_Some (rows t !! Recording.id recording)) →
  updateRecording recording w = (Returned (Ok tt), w') →
  in_sync w'.
Proof.
  intros (t & Ht & Hkeyed & Hsync) (t0 & Ht0 & [r0 Hr0]).
  assert (t0 = t) as -> by congruence.
  unfold updateRecording. eff_unfold. rewrite Ht, request_run.
  destruct (next_fault w); [intros [=]|].
  cbn [put_row pk Recording_Row].
  intros [= <-]. eexists. split; [reflexivity|]. split.
  - intros k r. cbn [rows]. rewrite lookup_insert.
    case_decide; [by intros [= <-]|]. apply Hkeyed.
  - cbn [local set_local set_db]. rewrite answered_local.
    rewrite !values_perm in *. cbn [rows].
    rewrite Hsync. clear Hsync.
    pose proof (others_have_other_ids t (Recording.id recording) Hkeyed) as Hrest.
    rewrite <- (insert_delete_eq (rows t)).
    rewrite map_to_list_insert by apply lookup_delete_eq.
    rewrite <- (map_to_list_delete _ _ _ Hr0).
    cbn [fmap list_fmap snd].
    destruct (decide (Recording.id r0 = Recording.id recording)) as [_|Hne];
      [|exfalso; apply Hne; by apply Hkeyed].
    f_equiv. apply reflexive_eq.
    induction Hrest as [|r rest Hr _ IH]; [reflexivity|].
    cbn [fmap list_fmap]. case_decide; [done|]. f_equal. exact IH.
Qed.

(** The initial load puts the mirror in step with the table. *)
Lemma syncDbToRecordingsState_in_sync (w : ServiceWorld) t :
  recordings (db w) = Some t →
  keyed t →
  next_fault w = None →
  in_sync (syncDbToRecordingsState w).2.
Proof.
  intros Ht Hkeyed Hq. unfold syncDbToRecordingsState. eff_unfold.
  rewrite Ht, request_run, Hq.
  exists t. cbn [snd modify set_local db local]. rewrite answered_db.
  by split.
Qed.

(** [deleteRecordings] never writes to the mirror. *)
Lemma deleteRecordings_mirror recordingsToDelete (w : ServiceWorld) :
  local (deleteRecordings recordingsToDelete w).2 = local w.
Proof.
  unfold deleteRecordings. eff_unfold.
  destruct (recordings (db w)); [|reflexivity].
  rewrite request_run. destruct (next_fault w); cbn; apply answered_local.
Qed.

(** C5, at the sample service: the mirror holds the three rows of the
    table; [deleteRecordings] of one of them returns a success and the
    table has two rows left, but the mirror still holds all three. *)
Theorem C5_bulk_delete_leaves_the_mirror_stale :
  ∃ w' t',
    in_sync (sample_world [])
    ∧ deleteRecordings [rec_a] (sample_world []) = (Returned (Ok tt), w')
    ∧ recordings (db w') = Some t'
    ∧ values t' = [rec_b; rec_c]
    ∧ local w' = [rec_a; rec_b; rec_c]
    ∧ ¬ in_sync w'.
Proof.
  eexists _, (mkTable _ _). split; [|split; [vm_compute; reflexivity|]].
  { exists sample_recordings. split; [reflexivity|]. split.
    - intros k r Hk. apply elem_of_map_to_list in Hk.
      vm_compute in Hk.
      repeat (apply elem_of_cons in Hk as [Hk|Hk]; [by inversion Hk|]).
      by apply elem_of_nil in Hk.
    - vm_compute. reflexivity. }
  split; [reflexivity|]. split; [vm_compute; reflexivity|].
  split; [reflexivity|].
  intros (t & Ht & _ & Hsync). cbn in Ht. injection Ht as <-.
  apply Permutation_length in Hsync. vm_compute in Hsync. discriminate.
Qed.

(* ================================================================== *)
(** * The theorems at the sample stores *)
(* ================================================================== *)

(** A transport fault on the third request of the v1-to-v2 upgrade (the
    second [bulkAdd]): [open] throws that fault and the database is still
    the version-1 database.  The dialog is open on the dump of the
    transaction at the throw: [recordings] with its row, as before the
    upgrade, [recordingMetadata] with the row the first [bulkAdd] wrote,
    and [recordingBlobs] empty. *)
Example open_with_fault_rolls_back (JSON_stringify : DumpState → string) :
  ∃ w',
    open (versions JSON_stringify)
         (v1_world [None; None; Some (TransportError 7)])
      = (Thrown (TransportError 7), w')
    ∧ db w' = v1_store
    ∧ ui w' = [DialogOpened (upgrade_dialog 2 (JSON_stringify
                 {| dump_version := 2;
                    dump_tables :=
                      [ ("recordings", [v1_recording]);
                        ("recordingMetadata", [delete "blob" v1_recording]);
                        ("recordingBlobs", []) ] |}))].
Proof.
  eexists. split; [vm_compute; reflexivity|].
  split; [reflexivity|]. vm_compute. reflexivity.
Qed.

(** A fault between the two deletes of the cascade: nothing is deleted. *)
Example cascade_fault_deletes_nothing :
  ∃ w' err,
    deletePipelineWithAssociatedTransformations pipe_1
      (sample_world [None; Some (TransportError 3)])
      = (Returned (Err err), w')
    ∧ error err = TransportError 3
    ∧ db w' = sample_db.
Proof. eexists _, _. split; [vm_compute; reflexivity|]. by split. Qed.

(** At the sample service: [rec-a] is deleted, then looked up. *)
Lemma C8_get_after_delete_witness :
  deleteRecording rec_a (sample_world []) =
    (Returned (Ok tt), (deleteRecording rec_a (sample_world [])).2)
  ∧ (getRecording "rec-a" (deleteRecording rec_a (sample_world [])).2).1
    = Returned (Ok None).
Proof.
  assert (Hdel : deleteRecording rec_a (sample_world []) =
                 (Returned (Ok tt), (deleteRecording rec_a (sample_world [])).2))
    by (vm_compute; reflexivity).
  split; [exact Hdel|].
  exact (C8_get_after_delete_is_not_found rec_a (sample_world []) _ Hdel).
Defined.

(* ================================================================== *)
(** * The service on the database the constructor declares *)
(* ================================================================== *)

(** What the three declared versions add up to: the one store
    [recordings], with the primary key [id] and an index on [timestamp]. *)
Lemma declared_schema (JSON_stringify : DumpState → string) :
  schema_upto (target_version (versions JSON_stringify))
              (versions JSON_stringify)
  = {[ "recordings" := id_timestamp ]}.
Proof. vm_compute. reflexivity. Qed.

(** C3.  On the database the constructor declares, the deleting branch of
    [cleanupExpiredRecordings] cannot run.  The declared schema ends with
    the one store [recordings], indexed by [timestamp] and not by
    [createdAt].  With [limit-count], a maximum of [1], three recordings
    of distinct creation times in that store and every request answered,
    the function answers with its tagged failure, whose cause is a
    [SchemaError] on [createdAt], and the three recordings are still
    stored: the two oldest have not been deleted. *)
Theorem C3_cleanup_deletes_nothing_without_the_createdAt_index
    (JSON_stringify : DumpState → string) :
  schema_upto (target_version (versions JSON_stringify))
              (versions JSON_stringify)
  = {[ "recordings" := id_timestamp ]}
  ∧ ¬ indexed id_timestamp "createdAt"
  ∧ (∃ t, recordings opened_db = Some t
          ∧ schema t = id_timestamp
          ∧ size (rows t) = 3
          ∧ NoDup (Recording.createdAt <$> (map_to_list (rows t)).*2))
  ∧ database_recordingRetentionStrategy keep_one = limit_count
  ∧ parseInt (database_maxRecordingCount keep_one) = Num 1
  ∧ ∃ w',
      cleanupExpiredRecordings keep_one (opened_world [])
      = (Returned (Err (DbServiceErr "Unable to clean up old recordings"
                                     "Some old recordings could not be deleted"
                                     (SchemaError "createdAt"))), w')
      ∧ db w' = opened_db.
Proof.
  split; [apply declared_schema|].
  split.
  { intros [Hpk|Hidx]; [discriminate|].
    apply elem_of_cons in Hidx as [Hidx|Hidx]; [discriminate|].
    by apply elem_of_nil in Hidx. }
  split.
  { eexists. split; [reflexivity|]. split; [reflexivity|].
    split; [vm_compute; reflexivity|].
    apply (bool_decide_unpack _). vm_compute. exact I. }
  split; [reflexivity|]. split; [vm_compute; reflexivity|].
  eexists. split; [vm_compute; reflexivity|]. reflexivity.
Qed.

(** C6.  On the database the constructor declares,
    [getPipelineRunsByRecording] returns no runs.  No declared version
    lists a [pipelineRuns] store, so [db.pipelineRuns] is [undefined]:
    for every recording and under every fault schedule the function
    answers with its tagged failure, whose cause is a [TypeError], and
    sends no request. *)
Theorem C6_runs_cannot_be_read_without_the_pipelineRuns_store
    (JSON_stringify : DumpState → string) :
  schema_upto (target_version (versions JSON_stringify))
              (versions JSON_stringify) !! "pipelineRuns" = None
  ∧ pipelineRuns opened_db = None
  ∧ ∀ recording fs,
      getPipelineRunsByRecording recording (opened_world fs)
      = (Returned (Err (please "Error getting pipeline runs from Dexie"
                               TypeError)),
         opened_world fs).
Proof.
  split; [by rewrite declared_schema|]. split; [reflexivity|].
  intros recording fs. reflexivity.
Qed.

(** C7.  On the database the constructor declares, [startPipelineRun]
    inserts nothing.  No declared version lists a [pipelineRuns] store, so
    [db.pipelineRuns] is [undefined]: for every pipeline and recording and
    under every fault schedule the function answers with its tagged
    failure, whose cause is a [TypeError]; no request is sent and the
    database is as it was, without a run. *)
Theorem C7_startPipelineRun_inserts_nothing_without_the_pipelineRuns_store
    (JSON_stringify : DumpState → string) :
  schema_upto (target_version (versions JSON_stringify))
              (versions JSON_stringify) !! "pipelineRuns" = None
  ∧ pipelineRuns opened_db = None
  ∧ ∀ pipeline recording fs,
      ∃ w',
        startPipelineRun pipeline recording (opened_world fs)
        = (Returned (Err (please "Error starting pipeline run in Dexie"
                                 TypeError)), w')
        ∧ db w' = opened_db
        ∧ pipelineRuns (db w') = None
        ∧ faults w' = fs.
Proof.
  split; [by rewrite declared_schema|]. split; [reflexivity|].
  intros pipeline recording fs.
  unfold startPipelineRun, now_iso, nanoid. eff_unfold.
  eexists. split; [reflexivity|]. by repeat split.
Qed.

(** C9.  On the database the constructor declares, only [updateRecording]
    is an upsert.  With a recording that is not stored it returns a
    success and the store holds the recording as a fourth row.  The
    declared schema lists neither [pipelines] nor [transformations] nor
    [pipelineRuns], so for every argument and under every fault schedule
    [updatePipeline], [updateTransformation] and [updatePipelineRun]
    answer with their tagged failure, whose cause is a [TypeError], and
    write nothing. *)
Theorem C9_three_of_the_four_updates_fail_without_their_stores
    (JSON_stringify : DumpState → string) :
  schema_upto (target_version (versions JSON_stringify))
              (versions JSON_stringify)
  = {[ "recordings" := id_timestamp ]}
  ∧ pipelines opened_db = None
  ∧ transformations opened_db = None
  ∧ pipelineRuns opened_db = None
  ∧ (∃ w' t',
       updateRecording rec_new (opened_world []) = (Returned (Ok tt), w')
       ∧ recordings (db w') = Some t'
       ∧ rows t' = <["rec-z" := rec_new]> (rows sample_recordings)
       ∧ size (rows t') = 4)
  ∧ (∀ pipeline fs,
       updatePipeline pipeline (opened_world fs)
       = (Returned (Err (please "Error updating pipeline in Dexie" TypeError)),
          opened_world fs))
  ∧ (∀ transformation fs,
       updateTransformation transformation (opened_world fs)
       = (Returned (Err (please "Error updating transformation in Dexie"
                                TypeError)),
          opened_world fs))
  ∧ (∀ pipelineRun fs,
       updatePipelineRun pipelineRun (opened_world fs)
       = (Returned (Err (please "Error updating pipeline run in Dexie"
                                TypeError)),
          opened_world fs)).
Proof.
  split; [apply declared_schema|].
  do 3 (split; [reflexivity|]).
  split.
  { eexists _, (mkTable _ _). split; [vm_compute; reflexivity|].
    split; [reflexivity|]. split; [reflexivity|]. vm_compute. reflexivity. }
  repeat split; intros; reflexivity.
Qed.

(* ================================================================== *)
(** * More of the service: round trips, refusals, frames *)
(* ================================================================== *)

(** X1.  What [addRecording] or [updateRecording] has written with
    success, [getRecording] reads back under the recording's id: the answer
    is the success carrying that very recording, unless the read itself
    meets a transport fault, which comes back as the tagged failure. *)
Theorem written_recording_is_read_back
    (recording : Recording.t) (w w1 : ServiceWorld) :
  addRecording recording w = (Returned (Ok tt), w1)
  ∨ updateRecording recording w = (Returned (Ok tt), w1) →
  (getRecording (Recording.id recording) w1).1 =
    Returned (match next_fault w1 with
              | None => Ok (Some recording)
              | Some e => Err (please "Error getting recording from Dexie" e)
              end).
Proof.
  unfold addRecording, updateRecording, getRecording. eff_unfold.
  destruct (recordings (db w)) as [t|] eqn:Ht; [|by intros [[=]|[=]]].
  rewrite request_run. destruct (next_fault w) as [e|] eqn:Hf;
    [by intros [[=]|[=]]|].
  unfold add_row, put_row. cbn [pk Recording_Row].
  intros [Hadd|Hput].
  - destruct (rows t !! Recording.id recording); [by injection Hadd|].
    injection Hadd as <-. clear Hf. cbn. rewrite request_run.
    destruct (next_fault _) as [e|]; cbn; [reflexivity|].
    by rewrite lookup_insert_eq.
  - injection Hput as <-. clear Hf. cbn. rewrite request_run.
    destruct (next_fault _) as [e|]; cbn; [reflexivity|].
    by rewrite lookup_insert_eq.
Qed.

(** X2.  The three [add...] operations never overwrite: when a row already
    has the id, each one answers with its tagged failure, whose cause is
    [ConstraintError], and leaves the database and the mirror as they
    were. *)
Theorem add_refuses_a_stored_id (w : ServiceWorld) :
  next_fault w = None →
  (∀ recording t,
     recordings (db w) = Some t →
     is_Some (rows t !! Recording.id recording) →
     ∃ w', addRecording recording w
           = (Returned (Err (please "Error adding recording to Dexie"
                                    ConstraintError)), w')
       ∧ db w' = db w ∧ local w' = local w)
  ∧ (∀ pipeline t,
     pipelines (db w) = Some t →
     is_Some (rows t !! Pipeline.id pipeline) →
     ∃ w', addPipeline pipeline w
           = (Returned (Err (please "Error adding pipeline to Dexie"
                                    ConstraintError)), w')
       ∧ db w' = db w ∧ local w' = local w)
  ∧ (∀ transformation t,
     transformations (db w) = Some t →
     is_Some (rows t !! Transformation.id transformation) →
     ∃ w', addTransformation transformation w
           = (Returned (Err (please "Error adding transformation to Dexie"
                                    ConstraintError)), w')
       ∧ db w' = db w ∧ local w' = local w).
Proof.
  intros Hq.
  repeat split; intros r t Ht [r0 Hr0];
    unfold addRecording, addPipeline, addTransformation;
    eff_unfold; rewrite Ht, request_run, Hq; unfold add_row; cbn [pk
      Recording_Row Pipeline_Row Transformation_Row]; rewrite Hr0;
    eexists; (split; [reflexivity|]);
    by rewrite answered_db, answered_local.
Qed.

Lemma foldr_delete_absent {A} (m : gmap string A) (ks : list string) :
  Forall (λ k, m !! k = None) ks → foldr delete m ks = m.
Proof.
  induction 1 as [|k ks Hk _ IH]; cbn; [reflexivity|].
  rewrite IH. by apply delete_id.
Qed.

Lemma set_same_recordings (d : RecordingsDatabase) t :
  recordings d = Some t →
  h_set db_recordings (mkTable (schema t) (rows t)) d = d.
Proof. destruct d, t. cbn. by intros ->. Qed.

(** X3.  Deleting a recording that is not stored is a success, not an
    error, and changes nothing in the database: so for [deleteRecording]
    and for [deleteRecordings] (when none of the ids is stored), on the
    [recordings] store, whenever the storage engine answers. *)
Theorem deleting_what_is_not_stored_succeeds
    (w : ServiceWorld) (t : Table Recording.t) :
  recordings (db w) = Some t →
  next_fault w = None →
  (∀ recording,
     rows t !! Recording.id recording = None →
     ∃ w', deleteRecording recording w = (Returned (Ok tt), w')
       ∧ db w' = db w)
  ∧ (∀ recordingsToDelete,
     Forall (λ r, rows t !! Recording.id r = None) recordingsToDelete →
     ∃ w', deleteRecordings recordingsToDelete w = (Returned (Ok tt), w')
       ∧ db w' = db w).
Proof.
  intros Ht Hq. split.
  - intros r Hnone. unfold deleteRecording. eff_unfold.
    rewrite Ht, request_run, Hq. eexists. split; [reflexivity|].
    cbn [db set_db set_local]. unfold delete_key.
    rewrite delete_id by done. rewrite answered_db.
    by apply set_same_recordings.
  - intros rs Hnone. unfold deleteRecordings. eff_unfold.
    rewrite Ht, request_run, Hq. eexists. split; [reflexivity|].
    cbn [db set_db]. unfold delete_keys.
    rewrite foldr_delete_absent by (by apply Forall_fmap).
    rewrite answered_db. by apply set_same_recordings.
Qed.

Lemma tryAsync_returns {W A} (c : Eff W A) mapErr (w : W) :
  ∃ r w', tryAsync c mapErr w = (Returned r, w').
Proof. unfold tryAsync. destruct (c w) as [[a|e] w']; eauto. Qed.

(** Follows an operation down to its [tryAsync]s. *)
Ltac returns :=
  repeat first
    [ apply tryAsync_returns
    | match goal with
      | |- ∃ r w', bind (tryAsync ?c ?m) _ ?w = _ =>
          unfold bind at 1;
          let r := fresh "r" in
          destruct (tryAsync_returns c m w) as (r & ? & ->); destruct r
      | |- ∃ r w', bind now_iso _ _ = _ => unfold bind at 1, now_iso at 1
      | |- ∃ r w', bind nanoid _ _ = _ => unfold bind at 1, nanoid at 1
      | |- ∃ r w', (if ?x then _ else _) _ = _ => destruct x
      | |- ∃ r w', _ = _ => by eexists _, _
      end ].

(** X4.  No operation of the service throws: in every world, with any
    table missing and under any fault schedule, each of them returns a
    result value. *)
Theorem service_operations_never_throw (w : ServiceWorld) :
  (∀ id, ∃ r w', getRecording id w = (Returned r, w'))
  ∧ (∀ recording, ∃ r w', addRecording recording w = (Returned r, w'))
  ∧ (∀ recording, ∃ r w', updateRecording recording w = (Returned r, w'))
  ∧ (∀ recording, ∃ r w', deleteRecording recording w = (Returned r, w'))
  ∧ (∀ recordingsToDelete,
       ∃ r w', deleteRecordings recordingsToDelete w = (Returned r, w'))
  ∧ (∃ r w', getAllPipelines w = (Returned r, w'))
  ∧ (∀ pipeline, ∃ r w', addPipeline pipeline w = (Returned r, w'))
  ∧ (∀ pipeline, ∃ r w', updatePipeline pipeline w = (Returned r, w'))
  ∧ (∀ pipeline, ∃ r w', deletePipeline pipeline w = (Returned r, w'))
  ∧ (∀ pipeline,
       ∃ r w', deletePipelineWithAssociatedTransformations pipeline w
               = (Returned r, w'))
  ∧ (∃ r w', getAllTransformations w = (Returned r, w'))
  ∧ (∀ transformation,
       ∃ r w', addTransformation transformation w = (Returned r, w'))
  ∧ (∀ transformation,
       ∃ r w', updateTransformation transformation w = (Returned r, w'))
  ∧ (∀ transformation,
       ∃ r w', deleteTransformation transformation w = (Returned r, w'))
  ∧ (∀ pipeline recording,
       ∃ r w', startPipelineRun pipeline recording w = (Returned r, w'))
  ∧ (∀ pipelineRun, ∃ r w', updatePipelineRun pipelineRun w = (Returned r, w'))
  ∧ (∀ recording,
       ∃ r w', getPipelineRunsByRecording recording w = (Returned r, w'))
  ∧ (∀ id, ∃ r w', getPipelineRun id w = (Returned r, w'))
  ∧ (∀ result, ∃ r w', addTransformationResult result w = (Returned r, w'))
  ∧ (∀ pipelineRun,
       ∃ r w', getTransformationResultsByPipelineRun pipelineRun w
               = (Returned r, w'))
  ∧ (∀ settings, ∃ r w', cleanupExpiredRecordings settings w = (Returned r, w')).
Proof.
  repeat split; intros;
    unfold getRecording, addRecording, updateRecording, deleteRecording,
      deleteRecordings, getAllPipelines, addPipeline, updatePipeline,
      deletePipeline, deletePipelineWithAssociatedTransformations,
      getAllTransformations, addTransformation, updateTransformation,
      deleteTransformation, startPipelineRun, updatePipelineRun,
      getPipelineRunsByRecording, getPipelineRun, addTransformationResult,
      getTransformationResultsByPipelineRun, cleanupExpiredRecordings;
    try match goal with
        | |- context [database_recordingRetentionStrategy ?s] =>
            destruct (database_recordingRetentionStrategy s)
        end;
    returns.
Qed.

Lemma tryAsync_cases {W A} (c : Eff W A) mapErr (w : W) :
  (∃ a w1, c w = (Returned a, w1)
           ∧ tryAsync c mapErr w = (Returned (Ok a), w1))
  ∨ (∃ e w1, c w = (Thrown e, w1)
             ∧ tryAsync c mapErr w = (Returned (Err (mapErr e)), w1)).
Proof.
  unfold tryAsync. destruct (c w) as [[a|e] w1]; [left|right]; eauto.
Qed.

(** A request to the storage engine that throws has written nothing. *)
Ltac prim_unfold :=
  cbv beta iota zeta delta
    [toArray get count add put delete_ bulkDelete run_scan
     resolve store_table bind ret throw modify] in *.

Ltac thrown_done :=
  let Heq := fresh in
  intros Heq; inversion Heq; subst;
  first [ by split | split; [apply answered_db|apply answered_local] ].

Section ThrownFrames.
Context {D L V : Type} `{Row V}.
Implicit Types (h : Handle D V) (w : World D L).

Lemma untouched_answered w : untouched w (answered w).
Proof. split; [apply answered_db|apply answered_local]. Qed.

Lemma count_thrown h w e w' :
  count h w = (Thrown e, w') → untouched w w'.
Proof.
  prim_unfold. destruct (h_get h (db w)); [|thrown_done].
  rewrite request_run. destruct (next_fault w); thrown_done.
Qed.

Lemma add_thrown h r w e w' :
  add h r w = (Thrown e, w') → untouched w w'.
Proof.
  prim_unfold. destruct (h_get h (db w)); [|thrown_done].
  rewrite request_run.
  destruct (next_fault w); [thrown_done|].
  destruct (add_row r _) as [[k t']|e']; thrown_done.
Qed.

Lemma put_thrown h r w e w' :
  put h r w = (Thrown e, w') → untouched w w'.
Proof.
  prim_unfold. destruct (h_get h (db w)); [|thrown_done].
  rewrite request_run.
  destruct (next_fault w); [thrown_done|].
  destruct (put_row r _) as [[k t']|e']; thrown_done.
Qed.

Lemma delete_thrown h k w e w' :
  delete_ h k w = (Thrown e, w') → untouched w w'.
Proof.
  prim_unfold. destruct (h_get h (db w)); [|thrown_done].
  rewrite request_run.
  destruct (next_fault w); thrown_done.
Qed.

Lemma bulkDelete_thrown h ks w e w' :
  bulkDelete h ks w = (Thrown e, w') → untouched w w'.
Proof.
  prim_unfold. destruct (h_get h (db w)); [|thrown_done].
  rewrite request_run.
  destruct (next_fault w); thrown_done.
Qed.

Lemma run_scan_untouched h c w o w' :
  run_scan h c w = (o, w') → untouched w w'.
Proof.
  prim_unfold. destruct (h_get h (db w)); [|thrown_done].
  destruct (scan c _); [|thrown_done].
  rewrite request_run.
  destruct (next_fault w); thrown_done.
Qed.
End ThrownFrames.

Lemma untouched_trans {D L} (w1 w2 w3 : World D L) :
  untouched w1 w2 → untouched w2 w3 → untouched w1 w3.
Proof. intros [? ?] [? ?]. split; congruence. Qed.

Lemma then_ret_thrown {W A B} (c : Eff W A) (b : B) (w w' : W) e :
  (c ;;; ret b) w = (Thrown e, w') → c w = (Thrown e, w').
Proof.
  unfold bind, ret. destruct (c w) as [[a|e'] w1]; intros Heq;
    inversion Heq; reflexivity.
Qed.

Lemma let_ret_thrown {W A} (c : Eff W A) (w w' : W) e :
  (let! a := c in ret a) w = (Thrown e, w') → c w = (Thrown e, w').
Proof.
  unfold bind, ret. destruct (c w) as [[a|e'] w1]; intros Heq;
    inversion Heq; reflexivity.
Qed.

(** Brings a failed operation down to the throw of its request. *)
Ltac failed_op Hop :=
  repeat (unfold bind at 1 in Hop);
  match type of Hop with
  | context [tryAsync ?c ?m ?w] =>
      let Hc := fresh "Hc" in
      let Hta := fresh "Hta" in
      destruct (tryAsync_cases c m w)
        as [(? & ? & Hc & Hta)|(? & ? & Hc & Hta)];
      rewrite Hta in Hop; cbn in Hop;
      [try discriminate Hop
      |inversion Hop; subst;
       try apply then_ret_thrown in Hc; try apply let_ret_thrown in Hc]
  end.

(** X5.  A write that answers with a failure has written nothing: the
    database and the mirror are what they were.  This holds for every
    single-request write of the service and for the retention clean-up,
    in every world. *)
Theorem failed_write_changes_nothing
    (w w' : ServiceWorld) (err : DbServiceError) :
  (∀ recording,
     addRecording recording w = (Returned (Err err), w') → untouched w w')
  ∧ (∀ recording,
     updateRecording recording w = (Returned (Err err), w') → untouched w w')
  ∧ (∀ recording,
     deleteRecording recording w = (Returned (Err err), w') → untouched w w')
  ∧ (∀ recordingsToDelete,
     deleteRecordings recordingsToDelete w = (Returned (Err err), w') →
     untouched w w')
  ∧ (∀ pipeline,
     addPipeline pipeline w = (Returned (Err err), w') → untouched w w')
  ∧ (∀ pipeline,
     updatePipeline pipeline w = (Returned (Err err), w') → untouched w w')
  ∧ (∀ pipeline,
     deletePipeline pipeline w = (Returned (Err err), w') → untouched w w')
  ∧ (∀ transformation,
     addTransformation transformation w = (Returned (Err err), w') →
     untouched w w')
  ∧ (∀ transformation,
     updateTransformation transformation w = (Returned (Err err), w') →
     untouched w w')
  ∧ (∀ transformation,
     deleteTransformation transformation w = (Returned (Err err), w') →
     untouched w w')
  ∧ (∀ pipeline recording,
     startPipelineRun pipeline recording w = (Returned (Err err), w') →
     untouched w w')
  ∧ (∀ pipelineRun,
     updatePipelineRun pipelineRun w = (Returned (Err err), w') →
     untouched w w')
  ∧ (∀ result,
     addTransformationResult result w = (Returned (Err err), w') →
     untouched w w')
  ∧ (∀ settings,
     cleanupExpiredRecordings settings w = (Returned (Err err), w') →
     untouched w w').
Proof.
  repeat match goal with |- _ ∧ _ => split end.
  - intros r Hop. unfold addRecording in Hop. failed_op Hop.
    apply add_thrown in Hc. exact Hc.
  - intros r Hop. unfold updateRecording in Hop. failed_op Hop.
    apply put_thrown in Hc. exact Hc.
  - intros r Hop. unfold deleteRecording in Hop. failed_op Hop.
    apply delete_thrown in Hc. exact Hc.
  - intros r Hop. unfold deleteRecordings in Hop. failed_op Hop.
    apply bulkDelete_thrown in Hc. exact Hc.
  - intros r Hop. unfold addPipeline in Hop. failed_op Hop.
    apply add_thrown in Hc. exact Hc.
  - intros r Hop. unfold updatePipeline in Hop. failed_op Hop.
    apply put_thrown in Hc. exact Hc.
  - intros r Hop. unfold deletePipeline in Hop. failed_op Hop.
    apply delete_thrown in Hc. exact Hc.
  - intros r Hop. unfold addTransformation in Hop. failed_op Hop.
    apply add_thrown in Hc. exact Hc.
  - intros r Hop. unfold updateTransformation in Hop. failed_op Hop.
    apply put_thrown in Hc. exact Hc.
  - intros r Hop. unfold deleteTransformation in Hop. failed_op Hop.
    apply delete_thrown in Hc. exact Hc.
  - intros p r Hop. unfold startPipelineRun, now_iso, nanoid in Hop.
    failed_op Hop. apply add_thrown in Hc. exact Hc.
  - intros r Hop. unfold updatePipelineRun in Hop. failed_op Hop.
    apply put_thrown in Hc. exact Hc.
  - intros r Hop. unfold addTransformationResult, now_iso, nanoid in Hop.
    failed_op Hop. apply add_thrown in Hc. exact Hc.
  - intros s Hop. unfold cleanupExpiredRecordings in Hop.
    destruct (database_recordingRetentionStrategy s); [discriminate Hop|].
    unfold bind at 1 in Hop.
    destruct (tryAsync_cases (count db_recordings)
                (please "Unable to get recording count while cleaning up old recordings") w)
      as [(n & w1 & Hc & Hta)|(e & w1 & Hc & Hta)]; rewrite Hta in Hop.
    + assert (Hw1 : untouched w w1).
      { revert Hc. prim_unfold. destruct (h_get _ _); [|intros [=]].
        rewrite request_run. destruct (next_fault w); intros [= _ <-].
        apply untouched_answered. }
      destruct (num_eq n (Num 0)); [discriminate Hop|].
      destruct (num_le n _); [discriminate Hop|].
      eapply untouched_trans; [exact Hw1|].
      match type of Hop with
      | context [tryAsync ?c ?m ?w] =>
          destruct (tryAsync_cases c m w)
            as [(? & w2 & Hc2 & Hta2)|(e2 & w2 & Hc2 & Hta2)];
          rewrite Hta2 in Hop; [discriminate Hop|]
      end.
      injection Hop as _ <-. revert Hc2. unfold c_primaryKeys.
      unfold bind at 1 2.
      destruct (run_scan _ _ w1) as [[es|e3] w3] eqn:Hscan;
        apply run_scan_untouched in Hscan.
      * cbn. intros Hd. apply bulkDelete_thrown in Hd.
        by eapply untouched_trans.
      * by intros [= _ <-].
    + injection Hop as _ <-. apply count_thrown in Hc. exact Hc.
Qed.

(** X6.  The plain deletes do not cascade.  Whatever their outcome,
    [deletePipeline], [deleteTransformation], [deleteRecording] and
    [deleteRecordings] leave every table but their own as it is.  So after
    [deleteTransformation] has succeeded, a stored pipeline that lists the
    transformation is still stored as it was, with a step whose
    transformation no longer exists; and after [deleteRecording] the runs
    of the recording are still there. *)
Theorem plain_deletes_touch_one_table (w : ServiceWorld) :
  (∀ pipeline,
     let d' := db (deletePipeline pipeline w).2 in
     recordings d' = recordings (db w)
     ∧ transformations d' = transformations (db w)
     ∧ pipelineRuns d' = pipelineRuns (db w)
     ∧ transformationResults d' = transformationResults (db w))
  ∧ (∀ transformation,
     let d' := db (deleteTransformation transformation w).2 in
     recordings d' = recordings (db w)
     ∧ pipelines d' = pipelines (db w)
     ∧ pipelineRuns d' = pipelineRuns (db w)
     ∧ transformationResults d' = transformationResults (db w))
  ∧ (∀ recording,
     let d' := db (deleteRecording recording w).2 in
     pipelines d' = pipelines (db w)
     ∧ transformations d' = transformations (db w)
     ∧ pipelineRuns d' = pipelineRuns (db w)
     ∧ transformationResults d' = transformationResults (db w))
  ∧ (∀ recordingsToDelete,
     let d' := db (deleteRecordings recordingsToDelete w).2 in
     pipelines d' = pipelines (db w)
     ∧ transformations d' = transformations (db w)
     ∧ pipelineRuns d' = pipelineRuns (db w)
     ∧ transformationResults d' = transformationResults (db w))
  ∧ (∀ transformation pipeline tp w',
     deleteTransformation transformation w = (Returned (Ok tt), w') →
     pipelines (db w) = Some tp →
     rows tp !! Pipeline.id pipeline = Some pipeline →
     Transformation.id transformation
       ∈ PipelineStep.transformationId <$> Pipeline.transformations pipeline →
     ∃ tt' tp' step,
       transformations (db w') = Some tt'
       ∧ pipelines (db w') = Some tp'
       ∧ rows tp' !! Pipeline.id pipeline = Some pipeline
       ∧ step ∈ Pipeline.transformations pipeline
       ∧ rows tt' !! PipelineStep.transformationId step = None).
Proof.
  repeat match goal with |- _ ∧ _ => split end.
  - intros p. unfold deletePipeline. eff_unfold.
    destruct (pipelines (db w)); [|done].
    rewrite request_run. destruct (next_fault w); cbn; by rewrite answered_db.
  - intros p. unfold deleteTransformation. eff_unfold.
    destruct (transformations (db w)); [|done].
    rewrite request_run. destruct (next_fault w); cbn; by rewrite answered_db.
  - intros p. unfold deleteRecording. eff_unfold.
    destruct (recordings (db w)); [|done].
    rewrite request_run. destruct (next_fault w); cbn; by rewrite answered_db.
  - intros p. unfold deleteRecordings. eff_unfold.
    destruct (recordings (db w)); [|done].
    rewrite request_run. destruct (next_fault w); cbn; by rewrite answered_db.
  - intros tr p tp w' Hdel Htp Hp Hin. revert Hdel.
    apply list_elem_of_fmap in Hin as (step & Hid & Hstep).
    unfold deleteTransformation. eff_unfold.
    destruct (transformations (db w)) as [tt0|]; [|intros [=]].
    rewrite request_run. destruct (next_fault w); [intros [=]|].
    intros [= <-]. eexists _, tp, step. split; [reflexivity|].
    split; [cbn; by rewrite answered_db|]. split; [exact Hp|].
    split; [exact Hstep|]. rewrite <- Hid. apply lookup_delete_eq.
Qed.

(** X7.  [addTransformationResult] stores the result it is given under an
    id of its own making and stamps it: the stored row has the id [nanoid]
    hands out and, as [completedAt], the time read from the clock, whatever
    [id] and [completedAt] the argument carried; the other fields are the
    argument's.  Exactly one row is added and the other tables are
    untouched.  This is when the table is there, the storage engine
    answers and the id is not taken. *)
Theorem addTransformationResult_stamps_id_and_completion
    (result : TransformationResult.t) (w : ServiceWorld)
    (t : Table TransformationResult.t) :
  transformationResults (db w) = Some t →
  next_fault w = None →
  rows t !! nanoid_seq w (nanoid_calls w) = None →
  ∃ w' t' stored,
    addTransformationResult result w = (Returned (Ok tt), w')
    ∧ transformationResults (db w') = Some t'
    ∧ rows t' = <[TransformationResult.id stored := stored]> (rows t)
    ∧ size (rows t') = S (size (rows t))
    ∧ stored = {|
        TransformationResult.id := nanoid_seq w (nanoid_calls w);
        TransformationResult.pipelineRunId :=
          TransformationResult.pipelineRunId result;
        TransformationResult.transformationId :=
          TransformationResult.transformationId result;
        TransformationResult.status := TransformationResult.status result;
        TransformationResult.startedAt :=
          TransformationResult.startedAt result;
        TransformationResult.completedAt := Some (clock w (clock_reads w));
        TransformationResult.error := TransformationResult.error result;
        TransformationResult.output := TransformationResult.output result |}
    ∧ recordings (db w') = recordings (db w)
    ∧ pipelines (db w') = pipelines (db w)
    ∧ transformations (db w') = transformations (db w)
    ∧ pipelineRuns (db w') = pipelineRuns (db w).
Proof.
  intros Ht Hq Hnew.
  unfold addTransformationResult, now_iso, nanoid. eff_unfold.
  cbn -[insert lookup].
  rewrite Ht. rewrite request_run.
  replace (next_fault _) with (next_fault w) by (destruct w; reflexivity).
  rewrite Hq. cbn -[insert lookup]. rewrite Hnew. cbn -[insert lookup].
  eexists _, _, (TransformationResult.mk _ _ _ _ _ _ _ _).
  split; [reflexivity|]. cbn -[insert lookup].
  split; [reflexivity|]. cbn -[insert lookup].
  split; [reflexivity|].
  split; [by apply map_size_insert_None|].
  split; [reflexivity|].
  unfold answered; cbn; destruct (faults w); cbn; auto.
Qed.

(** X8.  Using a table the database object does not have is a failure,
    not a crash: when [db.pipelines] (or [db.transformations],
    [db.pipelineRuns], [db.transformationResults]) is [undefined], every
    operation on it answers with its tagged failure, whose cause is a
    [TypeError], sends no request and writes nothing. *)
Theorem missing_table_is_a_tagged_failure (w : ServiceWorld) :
  (pipelines (db w) = None →
     getAllPipelines w
       = (Returned (Err (please "Error getting all pipelines from Dexie"
                                TypeError)), w)
     ∧ (∀ p, addPipeline p w
             = (Returned (Err (please "Error adding pipeline to Dexie"
                                      TypeError)), w))
     ∧ (∀ p, updatePipeline p w
             = (Returned (Err (please "Error updating pipeline in Dexie"
                                      TypeError)), w))
     ∧ (∀ p, deletePipeline p w
             = (Returned (Err (please "Error deleting pipeline from Dexie"
                                      TypeError)), w))
     ∧ (∀ p, deletePipelineWithAssociatedTransformations p w
             = (Returned (Err (please "Error deleting pipeline from Dexie"
                                      TypeError)), w)))
  ∧ (transformations (db w) = None →
     getAllTransformations w
       = (Returned (Err (please "Error getting all transformations from Dexie"
                                TypeError)), w)
     ∧ (∀ t, addTransformation t w
             = (Returned (Err (please "Error adding transformation to Dexie"
                                      TypeError)), w))
     ∧ (∀ t, updateTransformation t w
             = (Returned (Err (please "Error updating transformation in Dexie"
                                      TypeError)), w))
     ∧ (∀ t, deleteTransformation t w
             = (Returned (Err (please "Error deleting transformation from Dexie"
                                      TypeError)), w))
     ∧ (∀ p, deletePipelineWithAssociatedTransformations p w
             = (Returned (Err (please "Error deleting pipeline from Dexie"
                                      TypeError)), w)))
  ∧ (pipelineRuns (db w) = None →
     (∀ p r, ∃ w',
        startPipelineRun p r w
          = (Returned (Err (please "Error starting pipeline run in Dexie"
                                   TypeError)), w')
        ∧ untouched w w' ∧ faults w' = faults w)
     ∧ (∀ r, updatePipelineRun r w
             = (Returned (Err (please "Error updating pipeline run in Dexie"
                                      TypeError)), w))
     ∧ (∀ r, getPipelineRunsByRecording r w
             = (Returned (Err (please "Error getting pipeline runs from Dexie"
                                      TypeError)), w))
     ∧ (∀ id, getPipelineRun id w
             = (Returned (Err (please "Error getting pipeline run from Dexie"
                                      TypeError)), w)))
  ∧ (transformationResults (db w) = None →
     (∀ r, ∃ w',
        addTransformationResult r w
          = (Returned (Err (please "Error adding transformation result to Dexie"
                                   TypeError)), w')
        ∧ untouched w w' ∧ faults w' = faults w)
     ∧ (∀ r, getTransformationResultsByPipelineRun r w
             = (Returned
                  (Err (please "Error getting transformation results from Dexie"
                               TypeError)), w))).
Proof.
  repeat match goal with |- _ ∧ _ => split end; intros Hnone;
    repeat match goal with |- _ ∧ _ => split end; intros;
    unfold getAllPipelines, addPipeline, updatePipeline, deletePipeline,
      deletePipelineWithAssociatedTransformations, getAllTransformations,
      addTransformation, updateTransformation, deleteTransformation,
      startPipelineRun, updatePipelineRun, getPipelineRunsByRecording,
      getPipelineRun, addTransformationResult,
      getTransformationResultsByPipelineRun, transaction, now_iso, nanoid;
    eff_unfold; cbn [db forallb defined]; rewrite ?Hnone;
    try reflexivity.
  - destruct (pipelines (db w)); reflexivity.
  - eexists. split; [reflexivity|]. by repeat split.
  - eexists. split; [reflexivity|]. by repeat split.
Qed.

(** X21.  The cascade does not look at who else uses a transformation:
    when [deletePipelineWithAssociatedTransformations] succeeds, another
    stored pipeline that lists one of the deleted pipeline's
    transformations is still stored as it was, and the transformation it
    lists is gone. *)
Theorem cascade_ignores_sharing
    (pipeline other : Pipeline.t) (shared : string)
    (w w' : ServiceWorld) (tp : Table Pipeline.t) :
  deletePipelineWithAssociatedTransformations pipeline w
    = (Returned (Ok tt), w') →
  pipelines (db w) = Some tp →
  rows tp !! Pipeline.id other = Some other →
  Pipeline.id other ≠ Pipeline.id pipeline →
  shared ∈ PipelineStep.transformationId <$> Pipeline.transformations pipeline →
  shared ∈ PipelineStep.transformationId <$> Pipeline.transformations other →
  ∃ tp' tt' step,
    pipelines (db w') = Some tp'
    ∧ rows tp' !! Pipeline.id other = Some other
    ∧ step ∈ Pipeline.transformations other
    ∧ PipelineStep.transformationId step = shared
    ∧ transformations (db w') = Some tt'
    ∧ rows tt' !! shared = None.
Proof.
  intros Hdel Htp Hother Hne Hin Hshared. revert Hdel.
  apply list_elem_of_fmap in Hshared as (step & Hid & Hstep).
  unfold deletePipelineWithAssociatedTransformations, transaction.
  destruct w as [[rs ps ts prs trs] fs u ns nc ck cr l].
  cbn in Htp. subst ps. eff_unfold.
  destruct ts as [tt0|]; cbn -[delete_key delete_keys]; [|intros [=]].
  unfold request; cbn -[delete_key delete_keys].
  destruct fs as [|[e1|] [|[e2|] fs]]; cbn -[delete_key delete_keys];
    intros [= <-]; cbn -[delete_key delete_keys];
    (eexists _, _, step; split; [reflexivity|];
     split; [cbn; by rewrite lookup_delete_ne|]; split; [exact Hstep|];
     split; [done|]; split; [reflexivity|];
     by apply lookup_foldr_delete).
Qed.

(* ================================================================== *)
(** * Order of what is read *)
(* ================================================================== *)

Section SortedLists.
Context {A B : Type}.

Lemma StronglySorted_filter (R : relation A) (P : A → Prop)
    `{∀ x, Decision (P x)} (l : list A) :
  StronglySorted R l → StronglySorted R (filter P l).
Proof.
  induction 1 as [|x l Hl IH Hx]; [constructor|].
  rewrite filter_cons. destruct (decide (P x)); [|exact IH].
  constructor; [exact IH|]. apply Forall_forall. intros y Hy.
  apply list_elem_of_filter in Hy as [_ Hy].
  rewrite Forall_forall in Hx. by apply Hx.
Qed.

Lemma StronglySorted_fmap_on (R1 : relation A) (R2 : relation B)
    (f : A → B) (l : list A) :
  (∀ x y, x ∈ l → y ∈ l → R1 x y → R2 (f x) (f y)) →
  StronglySorted R1 l → StronglySorted R2 (f <$> l).
Proof.
  intros Hf Hs. induction Hs as [|x l Hl IH Hx]; [constructor|].
  cbn. constructor.
  - apply IH. intros a b Ha Hb. apply Hf; by right.
  - apply Forall_fmap, Forall_forall. intros y Hy. cbn.
    apply Hf; [by left|by right|].
    rewrite Forall_forall in Hx. by apply Hx.
Qed.
End SortedLists.

Section KeyOrder.
Context {V : Type}.

#[local] Instance key_order_trans : Transitive (@key_order V).
Proof. intros a b c. unfold key_order. apply transitivity. Qed.

#[local] Instance key_order_total : Total (@key_order V).
Proof. intros a b. unfold key_order. apply (total String.le). Qed.

End KeyOrder.

Lemma TransformationResult_prop_pipelineRunId (r : TransformationResult.t) :
  prop "pipelineRunId" r = Some (TransformationResult.pipelineRunId r).
Proof. reflexivity. Qed.

Lemma elem_of_index_entries {V} `{Row V} keyPath (t : Table V) ik k r :
  (ik, (k, r)) ∈ index_entries keyPath t
  ↔ rows t !! k = Some r ∧ prop keyPath r = Some ik.
Proof.
  unfold index_entries. rewrite merge_sort_Permutation.
  rewrite list_elem_of_omap. split.
  - intros ([k' r'] & Hin & He). unfold index_entry in He. cbn in He.
    destruct (prop keyPath r') eqn:Hp; [|discriminate].
    injection He as -> -> ->. by apply elem_of_map_to_list in Hin.
  - intros [Hk Hp]. exists (k, r). split; [by apply elem_of_map_to_list|].
    unfold index_entry. cbn. by rewrite Hp.
Qed.

(** X9.  With the [transformationResults] table there, [pipelineRunId]
    indexed and the storage engine answering,
    [getTransformationResultsByPipelineRun] returns a success whose list
    holds exactly the stored results of that run, each once, in ascending
    order of their ids (the order of the primary key, not of time).
    Nothing is written. *)
Theorem results_of_a_run_come_in_id_order
    (pipelineRun : PipelineRun.t) (w : ServiceWorld)
    (t : Table TransformationResult.t) :
  transformationResults (db w) = Some t →
  indexed (schema t) "pipelineRunId" →
  next_fault w = None →
  (∀ k r, rows t !! k = Some r → TransformationResult.id r = k) →
  ∃ results w',
    getTransformationResultsByPipelineRun pipelineRun w
      = (Returned (Ok results), w')
    ∧ db w' = db w
    ∧ results ≡ₚ filter (λ r, TransformationResult.pipelineRunId r
                              = PipelineRun.id pipelineRun)
                        (map_to_list (rows t)).*2
    ∧ (∀ r, r ∈ results ↔
         (∃ k, rows t !! k = Some r)
         ∧ TransformationResult.pipelineRunId r = PipelineRun.id pipelineRun)
    ∧ StronglySorted
        (λ a b, (TransformationResult.id a ≤ TransformationResult.id b)%string)
        results.
Proof.
  intros Ht Hidx Hq Hkeyed.
  unfold getTransformationResultsByPipelineRun. eff_unfold. rewrite Ht.
  unfold scan.
  cbn [c_keyPath c_equals c_reverse c_limit where_equals apply_limit].
  rewrite decide_True by exact Hidx.
  rewrite request_run, Hq.
  eexists _, _. split; [reflexivity|].
  split; [apply answered_db|].
  assert (Hperm :
    (filter (λ e : string * (string * TransformationResult.t),
               e.1 = PipelineRun.id pipelineRun)
            (index_entries "pipelineRunId" t)).*2.*2
    ≡ₚ filter (λ r, TransformationResult.pipelineRunId r
                    = PipelineRun.id pipelineRun)
              (map_to_list (rows t)).*2).
  { unfold index_entries. rewrite merge_sort_Permutation.
    rewrite index_entry_rows.
    erewrite list_filter_iff; [reflexivity|].
    intros r. rewrite TransformationResult_prop_pipelineRunId.
    split; congruence. }
  split; [exact Hperm|]. split.
  - intros r. rewrite Hperm. rewrite list_elem_of_filter.
    rewrite list_elem_of_fmap. split.
    + intros [Hr ([k r'] & -> & Hin)]. split; [|exact Hr].
      exists k. by apply elem_of_map_to_list.
    + intros [[k Hk] Hr]. split; [exact Hr|].
      exists (k, r). split; [reflexivity|]. by apply elem_of_map_to_list.
  - rewrite <- list_fmap_compose.
    eapply StronglySorted_fmap_on;
      [|apply StronglySorted_filter, index_entries_sorted].
    intros [ia [ka a]] [ib [kb b]] Ha Hb Hab. cbn.
    apply list_elem_of_filter in Ha as [Hia Ha], Hb as [Hib Hb].
    cbn in Hia, Hib. subst ia ib.
    apply elem_of_index_entries in Ha as [Ha _], Hb as [Hb _].
    rewrite (Hkeyed _ _ Ha), (Hkeyed _ _ Hb).
    destruct Hab as [[Hne _]|[_ Hle]]; [done|exact Hle].
Qed.

(** X10.  A query through a key path that the table does not index is
    answered with the tagged failure, whose cause is a [SchemaError]
    naming the key path, and nothing is read or written.  So it is for
    [getPipelineRunsByRecording] without an index on [recordingId], for
    [getTransformationResultsByPipelineRun] without one on
    [pipelineRunId], and for [cleanupExpiredRecordings] without one on
    [createdAt] as soon as the recordings outnumber the maximum: the
    clean-up then deletes nothing. *)
Theorem query_without_its_index_fails (w : ServiceWorld) :
  (∀ recording t,
     pipelineRuns (db w) = Some t →
     ¬ indexed (schema t) "recordingId" →
     getPipelineRunsByRecording recording w
     = (Returned (Err (please "Error getting pipeline runs from Dexie"
                              (SchemaError "recordingId"))), w))
  ∧ (∀ pipelineRun t,
     transformationResults (db w) = Some t →
     ¬ indexed (schema t) "pipelineRunId" →
     getTransformationResultsByPipelineRun pipelineRun w
     = (Returned (Err (please "Error getting transformation results from Dexie"
                              (SchemaError "pipelineRunId"))), w))
  ∧ (∀ settings t,
     database_recordingRetentionStrategy settings = limit_count →
     recordings (db w) = Some t →
     ¬ indexed (schema t) "createdAt" →
     next_fault w = None →
     size (rows t) ≠ 0 →
     num_le (Num (Z.of_nat (size (rows t))))
            (parseInt (database_maxRecordingCount settings)) = false →
     ∃ w',
       cleanupExpiredRecordings settings w
       = (Returned (Err (DbServiceErr "Unable to clean up old recordings"
                                      "Some old recordings could not be deleted"
                                      (SchemaError "createdAt"))), w')
       ∧ untouched w w').
Proof.
  repeat match goal with |- _ ∧ _ => split end.
  - intros r t Ht Hidx. unfold getPipelineRunsByRecording. eff_unfold.
    rewrite Ht. unfold scan. cbn [c_keyPath reversed where_equals].
    by rewrite decide_False by exact Hidx.
  - intros r t Ht Hidx. unfold getTransformationResultsByPipelineRun.
    eff_unfold. rewrite Ht. unfold scan. cbn [c_keyPath where_equals].
    by rewrite decide_False by exact Hidx.
  - intros s t Hs Ht Hidx Hq Hsize Hle.
    unfold cleanupExpiredRecordings. rewrite Hs. eff_unfold.
    rewrite Ht, request_run, Hq. cbn [num_eq].
    rewrite (proj2 (Z.eqb_neq _ 0)) by lia. rewrite Hle.
    rewrite answered_db, Ht. unfold scan. cbn [c_keyPath orderBy limit].
    rewrite decide_False by exact Hidx.
    eexists. split; [reflexivity|]. apply untouched_answered.
Qed.

(* ================================================================== *)
(** * Retention, at its edges *)
(* ================================================================== *)

Lemma oldest_keys_all n (t : Table Recording.t) k r :
  size (rows t) ≤ n → rows t !! k = Some r → k ∈ oldest_keys n t.
Proof.
  intros Hn Hk. unfold oldest_keys.
  rewrite take_ge.
  2:{ assert (length (index_entries "createdAt" t) = size (rows t)).
      { rewrite <- length_map_to_list, <- createdAt_index_rows.
        by rewrite length_fmap. }
      lia. }
  apply list_elem_of_fmap. exists (k, r). split; [reflexivity|].
  rewrite createdAt_index_rows. by apply elem_of_map_to_list.
Qed.

(** X11.  A maximum that parses to a negative number [N] makes the excess
    larger than the store.  With [limit-count], [createdAt] indexed, [M]
    recordings in store and every request answered: when [M - N] is below
    2^32, [cleanupExpiredRecordings] succeeds and no recording is left;
    when [M - N] is 2^32 or more (and below 2^53, so that it is the exact
    difference), the query refuses it as a limit, the function answers
    with its tagged failure, whose cause is a [TypeError], and nothing is
    deleted. *)
Theorem cleanup_with_a_negative_maximum
    (settings : Settings) (w : ServiceWorld) (t : Table Recording.t) (N : Z) :
  database_recordingRetentionStrategy settings = limit_count →
  parseInt (database_maxRecordingCount settings) = Num N →
  (N < 0)%Z →
  recordings (db w) = Some t →
  rows t ≠ ∅ →
  indexed (schema t) "createdAt" →
  faults w = [] →
  ((Z.of_nat (size (rows t)) - N < 2 ^ 32)%Z →
   ∃ w' t',
     cleanupExpiredRecordings settings w = (Returned (Ok tt), w')
     ∧ recordings (db w') = Some t'
     ∧ rows t' = ∅)
  ∧ ((2 ^ 32 ≤ Z.of_nat (size (rows t)) - N < 2 ^ 53)%Z →
     ∃ w',
       cleanupExpiredRecordings settings w
       = (Returned (Err (DbServiceErr "Unable to clean up old recordings"
                                      "Some old recordings could not be deleted"
                                      TypeError)), w')
       ∧ db w' = db w).
Proof.
  intros Hs Hp HN Ht Hne Hi Hf.
  assert (H0 : size (rows t) ≠ 0).
  { intros H0. apply Hne. by apply map_size_empty_iff. }
  split.
  - intros Hmax. eexists _, _. split.
    { apply (cleanup_over_limit_run settings w t N); try done. lia. }
    split; [reflexivity|]. cbn [rows delete_keys].
    apply map_eq. intros k. rewrite lookup_empty.
    destruct (rows t !! k) as [r|] eqn:Hk.
    + apply lookup_foldr_delete.
      apply (oldest_keys_all _ t k r); [lia|exact Hk].
    + destruct (decide (k ∈ oldest_keys
                          (Z.to_nat (Z.of_nat (size (rows t)) - N)) t)).
      * by apply lookup_foldr_delete.
      * by rewrite lookup_foldr_delete_not_elem_of.
  - intros Hmax. eexists. split.
    { apply (cleanup_excess_out_of_range settings w t N); try done.
      by apply next_fault_nil. }
    apply answered_db.
Qed.

Lemma in_sync_answered (w : ServiceWorld) : in_sync w → in_sync (answered w).
Proof.
  intros (t & Ht & Hkeyed & Hsync). exists t.
  by rewrite answered_db, answered_local.
Qed.

(** X12.  [cleanupExpiredRecordings] never writes to the mirror.  So when
    the mirror was in step with the table and the clean-up deletes
    recordings, the mirror still shows them: it is no longer in step.  The
    clean-up deletes whenever the recordings outnumber a maximum that is
    not negative and the excess is below 2^32; from 2^32 on (and below
    2^53) the query refuses the excess as a limit, the clean-up fails
    with a [TypeError] and the mirror stays in step. *)
Theorem cleanup_leaves_the_mirror_behind
    (settings : Settings) (w : ServiceWorld) :
  local (cleanupExpiredRecordings settings w).2 = local w
  ∧ (∀ t N,
       in_sync w →
       database_recordingRetentionStrategy settings = limit_count →
       parseInt (database_maxRecordingCount settings) = Num N →
       recordings (db w) = Some t →
       faults w = [] →
       indexed (schema t) "createdAt" →
       (0 ≤ N < Z.of_nat (size (rows t)))%Z →
       ((Z.of_nat (size (rows t)) - N < 2 ^ 32)%Z →
        ∃ w', cleanupExpiredRecordings settings w = (Returned (Ok tt), w')
              ∧ ¬ in_sync w')
       ∧ ((2 ^ 32 ≤ Z.of_nat (size (rows t)) - N < 2 ^ 53)%Z →
          ∃ w',
            cleanupExpiredRecordings settings w
            = (Returned (Err (DbServiceErr
                                "Unable to clean up old recordings"
                                "Some old recordings could not be deleted"
                                TypeError)), w')
            ∧ in_sync w')).
Proof.
  split.
  - unfold cleanupExpiredRecordings.
    destruct (database_recordingRetentionStrategy settings); [reflexivity|].
    eff_unfold. destruct (recordings (db w)) as [t|] eqn:Ht; [|reflexivity].
    rewrite request_run.
    destruct (next_fault w); cbn [snd]; [apply answered_local|].
    destruct (num_eq _ _); cbn [snd]; [apply answered_local|].
    destruct (num_le _ _); cbn [snd]; [apply answered_local|].
    rewrite answered_db, Ht.
    destruct (scan _ t); cbn [snd]; [|apply answered_local].
    rewrite request_run.
    destruct (next_fault (answered w)); cbn [snd];
      [by rewrite !answered_local|].
    rewrite !answered_db, Ht. rewrite request_run.
    destruct (next_fault _); cbn; by rewrite !answered_local.
  - intros t N Hsync0 Hs Hp Ht Hf Hi HN. split.
    + intros Hmax. destruct Hsync0 as (t0 & Ht0 & Hkeyed & Hsync).
      assert (t0 = t) as -> by congruence.
      eexists. split.
      { apply (cleanup_over_limit_run settings w t N); try done; lia. }
      intros (t' & Ht' & _ & Hsync'). cbn in Ht'. injection Ht' as <-.
      cbn [local set_db] in Hsync'.
      apply Permutation_length in Hsync, Hsync'.
      rewrite Hsync in Hsync'. unfold values in Hsync'.
      rewrite !length_fmap in Hsync'.
      rewrite !entries_perm, !length_map_to_list in Hsync'.
      cbn [rows delete_keys] in Hsync'.
      rewrite size_foldr_delete in Hsync'
        by (apply oldest_keys_NoDup || apply oldest_keys_stored).
      rewrite oldest_keys_length in Hsync' by lia. lia.
    + intros Hmax. eexists. split.
      { apply (cleanup_excess_out_of_range settings w t N); try done;
          [by apply next_fault_nil|lia]. }
      by apply in_sync_answered.
Qed.

(* ================================================================== *)
(** * The mirror, write by write *)
(* ================================================================== *)

Lemma in_sync_length (w : ServiceWorld) t :
  in_sync w → recordings (db w) = Some t → length (local w) = size (rows t).
Proof.
  intros (t0 & Ht0 & _ & Hsync) Ht. assert (t0 = t) as -> by congruence.
  apply Permutation_length in Hsync. rewrite Hsync. unfold values.
  by rewrite length_fmap, entries_perm, length_map_to_list.
Qed.

(** X13.  The single writes keep the mirror in step with the table: when
    it was in step, it still is after a successful [addRecording] or
    [deleteRecording], and after a successful [updateRecording] exactly
    when the recording was already stored.  An [updateRecording] that
    inserts (the id was not stored) puts a row in the table that the mirror
    does not show. *)
Theorem single_writes_and_the_mirror
    (recording : Recording.t) (w w' : ServiceWorld) :
  in_sync w →
  (addRecording recording w = (Returned (Ok tt), w') → in_sync w')
  ∧ (deleteRecording recording w = (Returned (Ok tt), w') → in_sync w')
  ∧ (updateRecording recording w = (Returned (Ok tt), w') →
     (in_sync w' ↔
      ∃ t, recordings (db w) = Some t
           ∧ is_Some (rows t !! Recording.id recording))).
Proof.
  intros Hsync. split; [|split].
  - by apply addRecording_in_sync.
  - by apply deleteRecording_in_sync.
  - intros Hup. split; [|intros Hin; by eapply updateRecording_in_sync].
    intros Hsync'.
    destruct Hsync as (t & Ht & Hkeyed & Hperm).
    exists t. split; [exact Ht|].
    destruct (rows t !! Recording.id recording) as [r0|] eqn:Hr0; [by eexists|].
    exfalso. revert Hup. unfold updateRecording. eff_unfold.
    rewrite Ht, request_run. destruct (next_fault w); [intros [=]|].
    cbn [put_row pk Recording_Row]. intros [= <-].
    pose proof (in_sync_length _ _ Hsync' eq_refl) as Hlen.
    cbn [local set_local set_db rows] in Hlen.
    rewrite length_fmap, answered_local in Hlen.
    rewrite map_size_insert_None in Hlen by exact Hr0.
    apply Permutation_length in Hperm. rewrite Hperm in Hlen.
    unfold values in Hlen.
    rewrite length_fmap, entries_perm, length_map_to_list in Hlen. lia.
Qed.



(* ================================================================== *)
(** * Pipeline runs, written and read back *)
(* ================================================================== *)

(** X20.  A run that [startPipelineRun] has stored, or that
    [updatePipelineRun] has written, is what [getPipelineRun] reads back
    under its id (for a started run, the id [nanoid] handed out), unless
    the read itself meets a transport fault. *)
Theorem written_run_is_read_back
    (pipeline : Pipeline.t) (recording : Recording.t)
    (pipelineRun : PipelineRun.t) (w w1 : ServiceWorld) :
  (startPipelineRun pipeline recording w = (Returned (Ok tt), w1) →
   (getPipelineRun (nanoid_seq w (nanoid_calls w)) w1).1 =
     Returned (match next_fault w1 with
               | None =>
                   Ok (Some {|
                     PipelineRun.id := nanoid_seq w (nanoid_calls w);
                     PipelineRun.pipelineId := Pipeline.id pipeline;
                     PipelineRun.recordingId := Recording.id recording;
                     PipelineRun.input := Recording.transcribedText recording;
                     PipelineRun.status := running;
                     PipelineRun.startedAt := clock w (clock_reads w);
                     PipelineRun.completedAt := None;
                     PipelineRun.error := None;
                     PipelineRun.output := None |})
               | Some e =>
                   Err (please "Error getting pipeline run from Dexie" e)
               end))
  ∧ (updatePipelineRun pipelineRun w = (Returned (Ok tt), w1) →
     (getPipelineRun (PipelineRun.id pipelineRun) w1).1 =
       Returned (match next_fault w1 with
                 | None => Ok (Some pipelineRun)
                 | Some e =>
                     Err (please "Error getting pipeline run from Dexie" e)
                 end)).
Proof.
  split.
  - unfold startPipelineRun, getPipelineRun, now_iso, nanoid. eff_unfold.
    cbn -[insert lookup].
    destruct (pipelineRuns (db w)) as [t|] eqn:Ht; [|intros [=]].
    rewrite request_run. destruct (next_fault _) as [e|]; [intros [=]|].
    unfold add_row. cbn [pk PipelineRun_Row PipelineRun.id].
    cbn -[insert lookup].
    destruct (rows t !! _); [intros [=]|].
    intros [= <-]. cbn -[insert lookup]. rewrite request_run.
    destruct (next_fault _) as [e|]; cbn -[insert lookup]; [reflexivity|].
    by rewrite lookup_insert_eq.
  - unfold updatePipelineRun, getPipelineRun. eff_unfold.
    destruct (pipelineRuns (db w)) as [t|] eqn:Ht; [|intros [=]].
    rewrite request_run. destruct (next_fault w) as [e|]; [intros [=]|].
    cbn [put_row pk PipelineRun_Row]. intros [= <-].
    cbn -[insert lookup]. rewrite request_run.
    destruct (next_fault _) as [e|]; cbn -[insert lookup]; [reflexivity|].
    by rewrite lookup_insert_eq.
Qed.

(* ================================================================== *)
(** * The upgrades under any fault schedule *)
(* ================================================================== *)

Section RunPrimitivesMore.
Context {D L : Type}.
Implicit Types w : World D L.

Lemma next_fault_set_db d w : next_fault (set_db d w) = next_fault w.
Proof. reflexivity. Qed.

Lemma answered_set_db d w : answered (set_db d w) = set_db d (answered w).
Proof. unfold answered. cbn. by destruct (faults w). Qed.

End RunPrimitivesMore.

Section FirstFault.
Context {D L : Type}.
Implicit Types w : World D L.

Lemma first_fault_step n w :
  first_fault (S n) (faults w)
  = match next_fault w with
    | Some e => Some e
    | None => first_fault n (faults (answered w))
    end.
Proof.
  unfold next_fault, answered.
  destruct (faults w) as [|[e|] fs] eqn:Hfs; cbn; try done.
  rewrite Hfs. by destruct n.
Qed.

Lemma first_fault_0 fs : first_fault 0 fs = None.
Proof. by destruct fs. Qed.

Lemma first_fault_add n m fs :
  first_fault (n + m) fs
  = match first_fault n fs with
    | Some e => Some e
    | None => first_fault m (drop n fs)
    end.
Proof.
  revert fs. induction n as [|n IH]; intros fs; cbn.
  - by destruct fs.
  - destruct fs as [|[e|] fs]; cbn; [by destruct m|done|apply IH].
Qed.

Lemma faults_answered_3 w :
  faults (answered (answered (answered w))) = drop 3 (faults w).
Proof.
  rewrite !answered_faults. by destruct (faults w) as [|? [|? [|? ?]]].
Qed.

Lemma first_fault_lookup n fs e :
  first_fault n fs = Some e → ∃ i, i < n ∧ fs !! i = Some (Some e).
Proof.
  revert fs. induction n as [|n IH]; intros fs; [by destruct fs|].
  destruct fs as [|[e'|] fs]; cbn; [done| |].
  - intros [= ->]. exists 0. split; [lia|done].
  - intros Hf. destruct (IH _ Hf) as (i & Hi & Hl).
    exists (S i). split; [lia|done].
Qed.

Lemma first_fault_none n fs :
  first_fault n fs = None ↔ ∀ i, i < n → faulted fs i = false.
Proof.
  revert fs. induction n as [|n IH]; intros fs.
  - rewrite first_fault_0. split; [intros _ i ?; lia|done].
  - destruct fs as [|[e'|] fs]; cbn.
    + split; [|done]. intros _ i _. by destruct i.
    + split; [done|]. intros Hf. by specialize (Hf 0 ltac:(lia)).
    + rewrite IH. split.
      * intros Hf [|i] Hi; [done|]. apply Hf. lia.
      * intros Hf i Hi. apply (Hf (S i)). lia.
Qed.
End FirstFault.

Section UpgradeRowsAnySchedule.
Variable JSON_stringify : DumpState → string.
Implicit Types w : World Store unit.

(** The body of [version(2).upgrade] makes three requests; the first one
    that fails ends it. *)
Lemma split_recordings_run w t sm sb :
  tables (db w) !! "recordings" = Some t →
  tables (db w) !! "recordingMetadata" = Some (mkTable sm ∅) →
  tables (db w) !! "recordingBlobs" = Some (mkTable sb ∅) →
  keyed_obj t →
  ∃ w1,
    split_recordings w = (outcome_of (first_fault 3 (faults w)), w1)
    ∧ (first_fault 3 (faults w) = None →
       w1 = set_db (mkStore (version (db w))
               (<["recordingBlobs" := mkTable sb (blob_row <$> rows t)]>
                  (<["recordingMetadata" :=
                       mkTable sm (without_blob <$> rows t)]>
                     (tables (db w)))))
              (answered (answered (answered w)))).
Proof.
  intros Hr Hm Hb Hkeyed.
  rewrite first_fault_step.
  unfold split_recordings. eff_unfold.
  rewrite Hr, request_run.
  destruct (next_fault w) as [e|]; [by eexists|].
  rewrite first_fault_step.
  rewrite answered_db, Hm, request_run.
  destruct (next_fault (answered w)) as [e|]; [by eexists|].
  rewrite first_fault_step, first_fault_0.
  rewrite (bulk_add_mapped (λ o : Obj, delete "blob" o) t sm).
  2:{ intros k o Hk. cbn. unfold str_prop.
      rewrite lookup_delete_ne by done. by rewrite (Hkeyed k o Hk). }
  cbn [db set_db tables version].
  rewrite lookup_insert_ne by done. rewrite !answered_db, Hb.
  rewrite request_run, next_fault_set_db.
  destruct (next_fault (answered (answered w))) as [e|]; [by eexists|].
  rewrite (bulk_add_mapped
             (λ o : Obj, {[ "id" := field "id" o; "blob" := field "blob" o ]})
             t sb).
  2:{ intros k o Hk. cbn. unfold str_prop.
      rewrite lookup_insert_eq. by rewrite (field_id_keyed t k o). }
  eexists. split; [reflexivity|]. intros _.
  rewrite answered_set_db. cbn [db set_db version tables].
  reflexivity.
Qed.

(** So does the body of [version(3).upgrade]. *)
Lemma merge_recordings_run w tm tb sr :
  tables (db w) !! "recordingMetadata" = Some tm →
  tables (db w) !! "recordingBlobs" = Some tb →
  tables (db w) !! "recordings" = Some (mkTable sr ∅) →
  keyed_obj tm →
  ∃ w1,
    merge_recordings w = (outcome_of (first_fault 3 (faults w)), w1)
    ∧ (first_fault 3 (faults w) = None →
       w1 = set_db (mkStore (version (db w))
               (<["recordings" :=
                    mkTable sr
                      ((λ record : Obj,
                          <["blob" := blob_of (values tb) record]> record)
                         <$> rows tm)]>
                  (tables (db w))))
              (answered (answered (answered w)))).
Proof.
  intros Hm Hb Hr Hkeyed.
  rewrite first_fault_step.
  unfold merge_recordings. eff_unfold.
  rewrite Hm, request_run.
  destruct (next_fault w) as [e|]; [by eexists|].
  rewrite first_fault_step.
  rewrite answered_db, Hb, request_run.
  destruct (next_fault (answered w)) as [e|]; [by eexists|].
  rewrite first_fault_step, first_fault_0.
  rewrite !answered_db, Hr, request_run.
  destruct (next_fault (answered (answered w))) as [e|]; [by eexists|].
  rewrite (bulk_add_mapped
             (λ record : Obj, <["blob" := blob_of (values tb) record]> record)
             tm sr).
  2:{ intros k m Hk. cbn. unfold str_prop.
      rewrite lookup_insert_ne by done. by rewrite (Hkeyed k m Hk). }
  eexists. split; [reflexivity|]. intros _.
  by rewrite !answered_db.
Qed.
End UpgradeRowsAnySchedule.

Section OpenAnySchedule.
Variable JSON_stringify : DumpState → string.
Implicit Types w : World Store unit.

(** An upgrade function passes a normal end of its body on and turns a
    throw into the dialog followed by the same throw. *)
Lemma upgrade_outcome (body : Eff (World Store unit) unit) n f w w1 :
  body w = (outcome_of f, w1) →
  ∃ w2,
    try_catch body (λ error, handleUpgradeError JSON_stringify n error) w
    = (outcome_of f, w2)
    ∧ match f with
      | None => w2 = w1
      | Some _ => ∃ d, ui w2 = ui w1 ++ [DialogOpened d]
      end.
Proof.
  intros Hbody. unfold try_catch. rewrite Hbody.
  destruct f as [e|]; cbn; [|by eexists].
  destruct (caught_failure_run JSON_stringify n e w1)
    as (dumps & w2 & Hrun & _ & Hui & _).
  exists w2. split; [exact Hrun|]. by eexists.
Qed.

Lemma run_version_2_shape v w t :
  v_number v = 2 →
  v_upgrade v = Some (upgrade_v2 JSON_stringify) →
  tables (db w) = {[ "recordings" := t ]} →
  run_version (versions JSON_stringify) v w
  = (upgrade_v2 JSON_stringify ;;;
     drop_removed {[ "recordingMetadata" := id_timestamp;
                     "recordingBlobs" := id_only ]})
      (retable (<["recordingBlobs" := mkTable id_only ∅]>
                  (<["recordingMetadata" := mkTable id_timestamp ∅]>
                     {[ "recordings" := t ]})) w).
Proof.
  intros Hn Hu Ht.
  unfold run_version. rewrite Hn, Hu, schema_upto_2, to_create_2.
  unfold bind at 1. unfold gets. rewrite Ht.
  rewrite !filter_cons, filter_nil.
  rewrite !decide_True by (cbn; by apply lookup_singleton_ne).
  cbn [create_tables]. unfold bind at 1 2.
  rewrite create_table_run by (rewrite Ht; by apply lookup_singleton_ne).
  cbn [fst snd]. unfold bind at 1 2.
  rewrite create_table_run
    by (cbn; rewrite Ht, lookup_insert_ne by done; by apply lookup_singleton_ne).
  cbn [fst snd ret]. unfold bind at 1.
  rewrite adopt_schemas_same.
  2:{ intros name tb. cbn. rewrite Ht. intros Hl.
      apply lookup_insert_Some in Hl as [[<- <-]|[_ Hl]]; [done|].
      apply lookup_insert_Some in Hl as [[<- <-]|[_ Hl]]; [done|].
      apply lookup_singleton_Some in Hl as [<- <-]. done. }
  rewrite retable_same, !tables_retable, retable_retable, Ht.
  reflexivity.
Qed.

Lemma run_version_3_shape v w tm tb :
  v_number v = 3 →
  v_upgrade v = Some (upgrade_v3 JSON_stringify) →
  tables (db w) = {[ "recordingMetadata" := tm; "recordingBlobs" := tb ]} →
  run_version (versions JSON_stringify) v w
  = (upgrade_v3 JSON_stringify ;;;
     drop_removed {[ "recordings" := id_timestamp ]})
      (retable (<["recordings" := mkTable id_timestamp ∅]>
                  {[ "recordingMetadata" := tm; "recordingBlobs" := tb ]}) w).
Proof.
  intros Hn Hu Ht.
  assert (Hnone : tables (db w) !! "recordings" = None).
  { rewrite Ht, lookup_insert_ne by done. by apply lookup_singleton_ne. }
  unfold run_version. rewrite Hn, Hu, schema_upto_3, map_to_list_singleton.
  unfold bind at 1. unfold gets.
  rewrite !filter_cons, filter_nil.
  rewrite decide_True by exact Hnone.
  cbn [create_tables]. unfold bind at 1 2.
  rewrite create_table_run by exact Hnone.
  cbn [fst snd ret]. unfold bind at 1.
  rewrite adopt_schemas_same.
  2:{ intros name tb'. rewrite tables_retable, Ht. cbn [fst snd]. intros Hl.
      apply lookup_insert_Some in Hl as [[<- <-]|[Hne Hl]];
        [by rewrite lookup_singleton_eq|].
      by rewrite lookup_singleton_ne. }
  rewrite retable_same, ?tables_retable, Ht.
  reflexivity.
Qed.

Lemma run_version_2_outcome v w t :
  v_number v = 2 →
  v_upgrade v = Some (upgrade_v2 JSON_stringify) →
  tables (db w) = {[ "recordings" := t ]} →
  keyed_obj t →
  ∃ w1,
    run_version (versions JSON_stringify) v w
    = (outcome_of (first_fault 3 (faults w)), w1)
    ∧ match first_fault 3 (faults w) with
      | None =>
          tables (db w1)
          = {[ "recordingMetadata" :=
                 mkTable id_timestamp (without_blob <$> rows t);
               "recordingBlobs" := mkTable id_only (blob_row <$> rows t) ]}
          ∧ version (db w1) = version (db w)
          ∧ ui w1 = ui w
          ∧ faults w1 = drop 3 (faults w)
      | Some _ => ∃ d, ui w1 = ui w ++ [DialogOpened d]
      end.
Proof.
  intros Hn Hu Ht Hkeyed.
  rewrite (run_version_2_shape v w t Hn Hu Ht).
  set (w0 := retable _ w).
  destruct (split_recordings_run w0 t id_timestamp id_only)
    as (w1 & Hsplit & Hw1); [| | |exact Hkeyed|].
  { unfold w0. rewrite tables_retable, !lookup_insert_ne by done.
    apply lookup_singleton_eq. }
  { unfold w0. rewrite tables_retable, lookup_insert_ne by done.
    apply lookup_insert_eq. }
  { unfold w0. rewrite tables_retable. apply lookup_insert_eq. }
  destruct (upgrade_outcome split_recordings 2 _ w0 w1 Hsplit)
    as (w2 & Hup & Hcase).
  apply split_recordings_ui in Hsplit.
  change (faults w0) with (faults w) in *.
  unfold bind. unfold upgrade_v2. rewrite Hup.
  destruct (first_fault 3 (faults w)) as [e|]; cbn [outcome_of].
  - exists w2. split; [reflexivity|].
    destruct Hcase as [d Hd]. exists d. by rewrite Hd, Hsplit.
  - subst w2. rewrite (Hw1 eq_refl). rewrite drop_removed_run.
    eexists. split; [reflexivity|].
    cbn [db set_db tables retable version ui].
    unfold w0. rewrite tables_retable, keep_v2_stores.
    rewrite !answered_ui. cbn [faults set_db retable].
    split; [reflexivity|]. split; [reflexivity|]. split; [reflexivity|].
    exact (faults_answered_3 (retable _ w)).
Qed.

Lemma run_version_3_outcome v w tm tb :
  v_number v = 3 →
  v_upgrade v = Some (upgrade_v3 JSON_stringify) →
  tables (db w) = {[ "recordingMetadata" := tm; "recordingBlobs" := tb ]} →
  keyed_obj tm →
  ∃ w1,
    run_version (versions JSON_stringify) v w
    = (outcome_of (first_fault 3 (faults w)), w1)
    ∧ match first_fault 3 (faults w) with
      | None =>
          tables (db w1)
          = {[ "recordings" :=
                 mkTable id_timestamp
                   ((λ record : Obj,
                       <["blob" := blob_of (values tb) record]> record)
                      <$> rows tm) ]}
          ∧ version (db w1) = version (db w)
          ∧ ui w1 = ui w
          ∧ faults w1 = drop 3 (faults w)
      | Some _ => ∃ d, ui w1 = ui w ++ [DialogOpened d]
      end.
Proof.
  intros Hn Hu Ht Hkeyed.
  rewrite (run_version_3_shape v w tm tb Hn Hu Ht).
  set (w0 := retable _ w).
  destruct (merge_recordings_run w0 tm tb id_timestamp)
    as (w1 & Hmerge & Hw1); [| | |exact Hkeyed|].
  { unfold w0. rewrite tables_retable, lookup_insert_ne by done.
    apply lookup_insert_eq. }
  { unfold w0. rewrite tables_retable, !lookup_insert_ne by done.
    apply lookup_singleton_eq. }
  { unfold w0. rewrite tables_retable. apply lookup_insert_eq. }
  destruct (upgrade_outcome merge_recordings 3 _ w0 w1 Hmerge)
    as (w2 & Hup & Hcase).
  apply merge_recordings_ui in Hmerge.
  change (faults w0) with (faults w) in *.
  unfold bind. unfold upgrade_v3. rewrite Hup.
  destruct (first_fault 3 (faults w)) as [e|]; cbn [outcome_of].
  - exists w2. split; [reflexivity|].
    destruct Hcase as [d Hd]. exists d. by rewrite Hd, Hmerge.
  - subst w2. rewrite (Hw1 eq_refl). rewrite drop_removed_run.
    eexists. split; [reflexivity|].
    cbn [db set_db tables retable version ui].
    unfold w0. rewrite tables_retable, keep_v3_stores.
    rewrite !answered_ui. cbn [faults set_db retable].
    split; [reflexivity|]. split; [reflexivity|]. split; [reflexivity|].
    exact (faults_answered_3 (retable _ w)).
Qed.
End OpenAnySchedule.

Lemma keyed_without_blob (t : Table Obj) s :
  keyed_obj t → keyed_obj (mkTable s (without_blob <$> rows t)).
Proof.
  intros Hkeyed k m. cbn [rows]. rewrite lookup_fmap.
  destruct (rows t !! k) as [o|] eqn:Ho; [|discriminate].
  intros [= <-]. unfold without_blob. rewrite lookup_delete_ne by done.
  by apply Hkeyed.
Qed.

(** What [blobs.find(...)?.blob] comes to when both stores hold their rows
    under the rows' ids. *)
Lemma blob_of_keyed (tm tb : Table Obj) k m :
  keyed_obj tm → keyed_obj tb →
  rows tm !! k = Some m →
  blob_of (values tb) m = blob_at tb k.
Proof.
  intros Hm Hb Hk. unfold blob_of, blob_at.
  rewrite (field_id_keyed tm k m) by done.
  destruct (List.find _ (values tb)) as [b|] eqn:Hfind.
  - apply List.find_some in Hfind as [Hin Hp].
    apply list_elem_of_In, elem_of_values in Hin as [k' Hk'].
    rewrite (field_id_keyed tb k' b) in Hp by done.
    cbn in Hp. apply bool_decide_eq_true in Hp as ->. by rewrite Hk'.
  - destruct (rows tb !! k) as [b|] eqn:Hbk; [|reflexivity].
    exfalso.
    assert (Hin : List.In b (values tb)).
    { apply list_elem_of_In, elem_of_values. by exists k. }
    pose proof (List.find_none _ _ Hfind _ Hin) as Hp. cbn beta in Hp.
    rewrite (field_id_keyed tb k b) in Hp by done.
    cbn in Hp. by rewrite bool_decide_eq_true_2 in Hp.
Qed.

(* ================================================================== *)
(** * A failing upgrade, from the throw to the rollback *)
(* ================================================================== *)

Section FailedUpgrade.
Variable JSON_stringify : DumpState → string.
Implicit Types w : World Store unit.

(** A failing request of an upgrade reaches [open] as the throw of that
    fault.  A version-1 database goes through both upgrades, six requests
    in all. *)
Lemma open_v1_throws w t e :
  version (db w) = 1 →
  tables (db w) = {[ "recordings" := t ]} →
  keyed_obj t →
  first_fault 6 (faults w) = Some e →
  ∃ w' d,
    open (versions JSON_stringify) w = (Thrown e, w')
    ∧ db w' = db w
    ∧ ui w' = ui w ++ [DialogOpened d].
Proof.
  intros Hv Ht Hkeyed Hf. unfold open.
  change (target_version (versions JSON_stringify)) with 3.
  rewrite Hv. rewrite decide_False by done. rewrite decide_False by lia.
  change (filter _ (versions JSON_stringify))
    with (drop 1 (versions JSON_stringify)).
  cbn [drop versions run_versions]. unfold bind at 1.
  change 6 with (3 + 3) in Hf. rewrite first_fault_add in Hf.
  match goal with
  | |- context [run_version _ ?v w] =>
      destruct (run_version_2_outcome JSON_stringify v w t)
        as (w1 & -> & Hw1); [reflexivity|reflexivity|exact Ht|exact Hkeyed|]
  end.
  destruct (first_fault 3 (faults w)) as [e1|]; cbn [outcome_of].
  { injection Hf as ->. destruct Hw1 as [d Hd]. eexists _, d.
    split; [reflexivity|]. split; [reflexivity|exact Hd]. }
  destruct Hw1 as (Ht1 & Hv1 & Hui1 & Hf1).
  unfold bind at 1.
  match goal with
  | |- context [run_version _ ?v w1] =>
      destruct (run_version_3_outcome JSON_stringify v w1
                  (mkTable id_timestamp (without_blob <$> rows t))
                  (mkTable id_only (blob_row <$> rows t)))
        as (w2 & -> & Hw2);
        [reflexivity|reflexivity|exact Ht1|by apply keyed_without_blob|]
  end.
  rewrite Hf1, Hf in *. cbn [outcome_of].
  destruct Hw2 as [d Hd]. eexists _, d.
  split; [reflexivity|]. split; [reflexivity|].
  cbn [ui set_db]. by rewrite Hd, Hui1.
Qed.

(** A version-2 database goes through the v2-to-v3 upgrade, three
    requests. *)
Lemma open_v2_throws w tm tb e :
  version (db w) = 2 →
  tables (db w) = {[ "recordingMetadata" := tm; "recordingBlobs" := tb ]} →
  keyed_obj tm →
  first_fault 3 (faults w) = Some e →
  ∃ w' d,
    open (versions JSON_stringify) w = (Thrown e, w')
    ∧ db w' = db w
    ∧ ui w' = ui w ++ [DialogOpened d].
Proof.
  intros Hv Ht Hm Hf. unfold open.
  change (target_version (versions JSON_stringify)) with 3.
  rewrite Hv. rewrite decide_False by done. rewrite decide_False by lia.
  change (filter _ (versions JSON_stringify))
    with (drop 2 (versions JSON_stringify)).
  cbn [drop versions run_versions]. unfold bind at 1.
  match goal with
  | |- context [run_version _ ?v w] =>
      destruct (run_version_3_outcome JSON_stringify v w tm tb)
        as (w1 & -> & Hw1); [reflexivity|reflexivity|exact Ht|exact Hm|]
  end.
  rewrite Hf in *. cbn [outcome_of].
  destruct Hw1 as [d Hd]. eexists _, d.
  split; [reflexivity|]. split; [reflexivity|exact Hd].
Qed.

(** C2.  When the body of the v1-to-v2 or of the v2-to-v3 upgrade throws,
    the upgrade function opens the recovery dialog, once, on the JSON dump
    of [recordings], [recordingMetadata] and [recordingBlobs], and then
    throws the very error the body threw.  The dump is read from the
    transaction as the body left it: each array is the contents of its
    table, or empty when the read of that table failed, and the stores
    being migrated from ([recordings] for version 2, [recordingMetadata]
    and [recordingBlobs] for version 3) are in it as they were before the
    upgrade began, since the body only reads them.  What [open] makes of
    the throw: whenever it ends in a throw, the database is what it was
    before, same version, same tables, same rows; and it does end in a
    throw, of the fault itself and with the dialog opened, whenever a
    request of an upgrade fails on a version-1 or version-2 database. *)
Theorem C2_failed_upgrade_dumps_rethrows_rolls_back w :
  (∀ e w1,
     split_recordings w = (Thrown e, w1) →
     ∃ dumps w2,
       upgrade_v2 JSON_stringify w = (Thrown e, w2)
       ∧ db w2 = db w1
       ∧ ui w2 = ui w ++ [DialogOpened (upgrade_dialog 2 (JSON_stringify
                            {| dump_version := 2;
                               dump_tables := zip DUMP_TABLE_NAMES dumps |}))]
       ∧ Forall2 (λ name dump,
                    dump = [] ∨
                    ∃ t, tables (db w1) !! name = Some t ∧ dump = values t)
                 DUMP_TABLE_NAMES dumps
       ∧ tables (db w1) !! "recordings" = tables (db w) !! "recordings"
       ∧ (∀ t1 t2 t3,
            tables (db w1) !! "recordings" = Some t1 →
            tables (db w1) !! "recordingMetadata" = Some t2 →
            tables (db w1) !! "recordingBlobs" = Some t3 →
            dumps = [ if faulted (faults w1) 0 then [] else values t1;
                      if faulted (faults w1) 1 then [] else values t2;
                      if faulted (faults w1) 2 then [] else values t3 ]))
  ∧ (∀ e w1,
     merge_recordings w = (Thrown e, w1) →
     ∃ dumps w2,
       upgrade_v3 JSON_stringify w = (Thrown e, w2)
       ∧ db w2 = db w1
       ∧ ui w2 = ui w ++ [DialogOpened (upgrade_dialog 3 (JSON_stringify
                            {| dump_version := 3;
                               dump_tables := zip DUMP_TABLE_NAMES dumps |}))]
       ∧ Forall2 (λ name dump,
                    dump = [] ∨
                    ∃ t, tables (db w1) !! name = Some t ∧ dump = values t)
                 DUMP_TABLE_NAMES dumps
       ∧ tables (db w1) !! "recordingMetadata"
         = tables (db w) !! "recordingMetadata"
       ∧ tables (db w1) !! "recordingBlobs"
         = tables (db w) !! "recordingBlobs"
       ∧ (∀ t1 t2 t3,
            tables (db w1) !! "recordings" = Some t1 →
            tables (db w1) !! "recordingMetadata" = Some t2 →
            tables (db w1) !! "recordingBlobs" = Some t3 →
            dumps = [ if faulted (faults w1) 0 then [] else values t1;
                      if faulted (faults w1) 1 then [] else values t2;
                      if faulted (faults w1) 2 then [] else values t3 ]))
  ∧ (∀ e w',
     open (versions JSON_stringify) w = (Thrown e, w') →
     db w' = db w ∧ version (db w') = version (db w)
     ∧ tables (db w') = tables (db w))
  ∧ (∀ t e,
     version (db w) = 1 →
     tables (db w) = {[ "recordings" := t ]} →
     keyed_obj t →
     first_fault 6 (faults w) = Some e →
     ∃ w' d,
       open (versions JSON_stringify) w = (Thrown e, w')
       ∧ db w' = db w
       ∧ ui w' = ui w ++ [DialogOpened d])
  ∧ (∀ tm tb e,
     version (db w) = 2 →
     tables (db w) = {[ "recordingMetadata" := tm; "recordingBlobs" := tb ]} →
     keyed_obj tm →
     first_fault 3 (faults w) = Some e →
     ∃ w' d,
       open (versions JSON_stringify) w = (Thrown e, w')
       ∧ db w' = db w
       ∧ ui w' = ui w ++ [DialogOpened d]).
Proof.
  split; [|split; [|split; [|split]]].
  - intros e w1 Hbody.
    destruct (caught_failure_dump JSON_stringify 2 e w1)
      as (dumps & w2 & Hrun & Hdb & Hui & Hd & Hpin).
    exists dumps, w2. unfold upgrade_v2, try_catch. rewrite Hbody.
    pose proof (split_recordings_keeps_recordings _ _ _ Hbody) as Hkept.
    apply split_recordings_ui in Hbody. rewrite <- Hbody.
    split; [exact Hrun|]. split; [exact Hdb|]. split; [exact Hui|].
    split; [exact Hd|]. split; [exact Hkept|exact Hpin].
  - intros e w1 Hbody.
    destruct (caught_failure_dump JSON_stringify 3 e w1)
      as (dumps & w2 & Hrun & Hdb & Hui & Hd & Hpin).
    exists dumps, w2. unfold upgrade_v3, try_catch. rewrite Hbody.
    destruct (merge_recordings_keeps_its_sources _ _ _ Hbody) as [Hm Hb].
    apply merge_recordings_ui in Hbody. rewrite <- Hbody.
    split; [exact Hrun|]. split; [exact Hdb|]. split; [exact Hui|].
    split; [exact Hd|]. split; [exact Hm|]. split; [exact Hb|exact Hpin].
  - intros e w'. unfold open.
    destruct (decide (version (db w) = 0)); [intros [=]|].
    destruct (decide (_ < _)); [by intros [= _ <-]|].
    destruct (run_versions _ _ w) as [[[]|e'] w1]; [intros [=]|].
    intros [= _ <-]. cbn. auto.
  - intros t e. apply open_v1_throws.
  - intros tm tb e. apply open_v2_throws.
Qed.
End FailedUpgrade.

Section OpenTheorems.
Variable JSON_stringify : DumpState → string.
Implicit Types w : World Store unit.

(** X15.  Opening a version-1 database is all or nothing, under every
    fault schedule.  The two upgrades make six requests between them.  When
    none of them fails, [open] returns, the database is at version 3 with
    every recording in [recordings] (each with its [blob] property) and no
    dialog was opened.  When one fails, [open] throws that very fault, the
    database is exactly what it was, and the recovery dialog was opened
    once. *)
Theorem open_v1_is_all_or_nothing w t :
  version (db w) = 1 →
  tables (db w) = {[ "recordings" := t ]} →
  keyed_obj t →
  ∃ w',
    open (versions JSON_stringify) w
    = (outcome_of (first_fault 6 (faults w)), w')
    ∧ match first_fault 6 (faults w) with
      | None =>
          db w' = mkStore 3 {[ "recordings" :=
                     mkTable id_timestamp (with_blob <$> rows t) ]}
          ∧ ui w' = ui w
      | Some _ =>
          db w' = db w
          ∧ ∃ d, ui w' = ui w ++ [DialogOpened d]
      end.
Proof.
  intros Hv Ht Hkeyed. unfold open.
  change (target_version (versions JSON_stringify)) with 3.
  rewrite Hv. rewrite decide_False by done. rewrite decide_False by lia.
  change (filter _ (versions JSON_stringify))
    with (drop 1 (versions JSON_stringify)).
  cbn [drop versions run_versions]. unfold bind at 1.
  change 6 with (3 + 3). rewrite first_fault_add.
  match goal with
  | |- context [run_version _ ?v w] =>
      destruct (run_version_2_outcome JSON_stringify v w t)
        as (w1 & -> & Hw1); [reflexivity|reflexivity|exact Ht|exact Hkeyed|]
  end.
  destruct (first_fault 3 (faults w)) as [e|]; cbn [outcome_of].
  { eexists. split; [reflexivity|]. split; [reflexivity|exact Hw1]. }
  destruct Hw1 as (Ht1 & Hv1 & Hui1 & Hf1).
  unfold bind at 1.
  match goal with
  | |- context [run_version _ ?v w1] =>
      destruct (run_version_3_outcome JSON_stringify v w1
                  (mkTable id_timestamp (without_blob <$> rows t))
                  (mkTable id_only (blob_row <$> rows t)))
        as (w2 & -> & Hw2);
        [reflexivity|reflexivity|exact Ht1|by apply keyed_without_blob|]
  end.
  rewrite Hf1 in *.
  destruct (first_fault 3 (drop 3 (faults w))) as [e|]; cbn [outcome_of].
  { eexists. split; [reflexivity|]. split; [reflexivity|].
    destruct Hw2 as [d Hd]. exists d. cbn [ui set_db].
    by rewrite Hd, Hui1. }
  destruct Hw2 as (Ht2 & Hv2 & Hui2 & Hf2).
  eexists. split; [reflexivity|]. cbn [db set_db ui].
  split; [|congruence].
  rewrite Ht2. cbn [rows]. do 3 f_equal.
  rewrite <- map_fmap_compose. apply map_fmap_ext. intros k o Ho. cbn.
  by apply (with_blob_merge t (mkTable id_only (blob_row <$> rows t)) k o).
Qed.

(** X16.  Opening a version-2 database, every request answered, merges the
    two stores by id: [recordings] gets one row per row of
    [recordingMetadata], under the same key and with the same properties,
    plus a [blob] property that holds the blob stored under that key in
    [recordingBlobs], or [undefined] when there is none.  A blob whose key
    has no metadata row is dropped with its store. *)
Theorem open_v2_merges_by_id w tm tb :
  version (db w) = 2 →
  tables (db w) = {[ "recordingMetadata" := tm; "recordingBlobs" := tb ]} →
  keyed_obj tm →
  keyed_obj tb →
  first_fault 3 (faults w) = None →
  ∃ w' r,
    open (versions JSON_stringify) w = (Returned tt, w')
    ∧ version (db w') = 3
    ∧ tables (db w') = {[ "recordings" := r ]}
    ∧ schema r = id_timestamp
    ∧ (∀ k, rows r !! k
            = (λ m : Obj, <["blob" := blob_at tb k]> m) <$> rows tm !! k)
    ∧ ui w' = ui w.
Proof.
  intros Hv Ht Hm Hb Hf. unfold open.
  change (target_version (versions JSON_stringify)) with 3.
  rewrite Hv. rewrite decide_False by done. rewrite decide_False by lia.
  change (filter _ (versions JSON_stringify))
    with (drop 2 (versions JSON_stringify)).
  cbn [drop versions run_versions]. unfold bind at 1.
  match goal with
  | |- context [run_version _ ?v w] =>
      destruct (run_version_3_outcome JSON_stringify v w tm tb)
        as (w1 & -> & Hw1); [reflexivity|reflexivity|exact Ht|exact Hm|]
  end.
  rewrite Hf in *. cbn [outcome_of].
  destruct Hw1 as (Ht1 & Hv1 & Hui1 & Hf1).
  eexists _, _. split; [reflexivity|]. cbn [db set_db ui version tables].
  split; [reflexivity|]. split; [exact Ht1|]. split; [reflexivity|].
  split; [|exact Hui1].
  intros k. cbn [rows]. rewrite lookup_fmap.
  destruct (rows tm !! k) as [m|] eqn:Hk; [|reflexivity].
  cbn. by rewrite (blob_of_keyed tm tb k m).
Qed.

(** X17.  Opening again changes nothing: once [open] has succeeded, from
    whatever database and under whatever fault schedule, a second [open]
    succeeds, runs no upgrade, sends no request, opens no dialog and
    leaves the world exactly as it is. *)
Theorem reopening_changes_nothing w w1 :
  open (versions JSON_stringify) w = (Returned tt, w1) →
  open (versions JSON_stringify) w1 = (Returned tt, w1).
Proof.
  intros Hopen.
  assert (Hv : version (db w1) = 3).
  { revert Hopen. unfold open.
    change (target_version (versions JSON_stringify)) with 3.
    destruct (decide (version (db w) = 0)); [by intros [= <-]|].
    destruct (decide (3 < version (db w))); [intros [=]|].
    destruct (run_versions _ _ w) as [[[]|e] w2]; [|intros [=]].
    by intros [= <-]. }
  unfold open.
  change (target_version (versions JSON_stringify)) with 3.
  rewrite Hv. rewrite decide_False by done. rewrite decide_False by lia.
  change (filter _ (versions JSON_stringify)) with (@nil VersionDecl).
  cbn [run_versions ret]. f_equal.
  destruct w1 as [[v m] ? ? ? ? ? ? ?]. cbn in Hv. by subst v.
Qed.
End OpenTheorems.

(* ================================================================== *)
(** * The Groq key check and the transformation mutation *)
(* ================================================================== *)

Lemma prefix_split (p s : string) :
  String.prefix p s = true ↔ ∃ rest, s = p +:+ rest.
Proof.
  revert s. induction p as [|a p IH]; intros s.
  - split; [intros _; by exists s|]. intros _. by destruct s.
  - destruct s as [|b s]; cbn.
    + split; [done|]. intros [rest Hr].
      change (String a p +:+ rest) with (String a (p +:+ rest)) in Hr.
      discriminate.
    + destruct (Ascii.ascii_dec a b) as [->|Hne].
      * rewrite IH. split; intros [rest Hr]; exists rest.
        -- rewrite Hr. reflexivity.
        -- change (String b p +:+ rest) with (String b (p +:+ rest)) in Hr.
           congruence.
      * split; [done|]. intros [rest Hr].
        change (String a p +:+ rest) with (String a (p +:+ rest)) in Hr.
        congruence.
Qed.

(** X18.  [preValidate] of the Groq service lets a key through exactly
    when the key starts with [gsk_].  The empty key is refused as "not
    provided", every other key without the prefix as "invalid"; both
    failures point to the transcription settings. *)
Theorem groq_key_passes_iff_it_starts_with_gsk (apiKey : string) :
  (preValidate apiKey = TranscriptionOk tt ↔ ∃ rest, apiKey = "gsk_" +:+ rest)
  ∧ (apiKey = "" →
     ∃ d a, preValidate apiKey
            = TranscriptionServiceErr "Groq API Key not provided." d a
            ∧ action_goto a = "/settings/transcription")
  ∧ (apiKey ≠ "" → (¬ ∃ rest, apiKey = "gsk_" +:+ rest) →
     ∃ d a, preValidate apiKey
            = TranscriptionServiceErr "Invalid Groq API Key" d a
            ∧ action_goto a = "/settings/transcription").
Proof.
  unfold preValidate, startsWith.
  split; [|split].
  - rewrite <- prefix_split.
    destruct (decide (apiKey = "")) as [->|Hne].
    + cbn. split; discriminate.
    + rewrite bool_decide_eq_false_2 by done.
      destruct (String.prefix "gsk_" apiKey); cbn; split; done.
  - intros ->. cbn. by eexists _, _.
  - intros Hne Hno. rewrite bool_decide_eq_false_2 by done.
    rewrite <- prefix_split in Hno.
    destruct (String.prefix "gsk_" apiKey); [done|]. cbn. by eexists _, _.
Qed.

Section TransformMutationFacts.
Context {W E1 E2 : Type}.
Variable getTransformationById :
  string → Eff W (ServiceResult E1 (option Transformation.t)).
Variable runTransformation :
  string → Transformation.t → string → Eff W (ServiceResult E2 TransformationRun).

#[local] Abbreviation mutationFn :=
  (transformTranscribedText_mutationFn getTransformationById runTransformation).

(** X19.  Whatever the two services do, the transformation mutation
    answers with a success only on the text of a run that went through:
    the text is not empty, the transformation was found, the run was
    answered with a success, it carries no error, and the text is its
    output.  And when the transformation is not found (the lookup fails or
    finds nothing), [runTransformation] is not called: the world is the
    one the lookup left. *)
Theorem transformation_success_is_a_real_output
    (transcribedText selectedTransformationId recordingId : string) (w : W) :
  (∀ out w',
     mutationFn transcribedText selectedTransformationId recordingId w
     = (Returned (WhisperingOk out), w') →
     out ≠ ""
     ∧ ∃ transformation w1 run,
         getTransformationById selectedTransformationId w
         = (Returned (ServiceOk (Some transformation)), w1)
         ∧ runTransformation transcribedText transformation recordingId w1
           = (Returned (ServiceOk run), w')
         ∧ truthy (run_error run) = false
         ∧ run_output run = Some out)
  ∧ (∀ r w1,
     getTransformationById selectedTransformationId w = (Returned r, w1) →
     (r = ServiceOk None ∨ ∃ e, r = ServiceErr e) →
     ∃ description,
       mutationFn transcribedText selectedTransformationId recordingId w
       = (Returned (WhisperingErr "⚠️ Transformation not found" description),
          w1)).
Proof.
  split.
  - intros out w'. unfold transformTranscribedText_mutationFn, bind, ret.
    destruct (getTransformationById _ w) as [[[[tr|]|e1]|e] w1] eqn:Hget;
      try (intros [=]; fail).
    destruct (runTransformation _ tr _ w1) as [[[run|e2]|e] w2] eqn:Hrun;
      try (intros [=]; fail).
    destruct (truthy (run_error run)) eqn:Herr; [intros [=]|].
    destruct (run_output run) as [o|] eqn:Hout; cbn; [|intros [=]].
    destruct (decide (o = "")) as [->|Hne].
    { cbn. intros [=]. }
    rewrite bool_decide_eq_false_2 by done. cbn. intros [= <- <-].
    split; [done|]. eexists _, _, _. by rewrite Hrun.
  - intros r w1 Hget Hr. unfold transformTranscribedText_mutationFn, bind, ret.
    rewrite Hget. destruct Hr as [->|[e ->]]; by eexists.
Qed.
End TransformMutationFacts.

(* ================================================================== *)
(** * The further theorems at the sample stores *)
(* ================================================================== *)

Lemma sample_recordings_keyed : keyed sample_recordings.
Proof.
  intros k r Hk. apply elem_of_map_to_list in Hk. vm_compute in Hk.
  repeat (apply elem_of_cons in Hk as [Hk|Hk]; [by inversion Hk|]).
  by apply elem_of_nil in Hk.
Qed.

Lemma sample_world_in_sync : in_sync (sample_world []).
Proof.
  exists sample_recordings. split; [reflexivity|].
  split; [exact sample_recordings_keyed|]. vm_compute. reflexivity.
Qed.

(** At the sample service: [rec-z] is added, then looked up. *)
Lemma written_recording_is_read_back_witness :
  addRecording rec_new (sample_world []) =
    (Returned (Ok tt), (addRecording rec_new (sample_world [])).2)
  ∧ (getRecording "rec-z" (addRecording rec_new (sample_world [])).2).1
    = Returned (Ok (Some rec_new)).
Proof.
  assert (Hadd : addRecording rec_new (sample_world []) =
                 (Returned (Ok tt), (addRecording rec_new (sample_world [])).2))
    by (vm_compute; reflexivity).
  split; [exact Hadd|].
  exact (written_recording_is_read_back rec_new (sample_world []) _
           (or_introl Hadd)).
Defined.

(** At the sample service: [rec-a] is added a second time. *)
Lemma add_refuses_a_stored_id_witness :
  ∃ w', addRecording rec_a (sample_world [])
        = (Returned (Err (please "Error adding recording to Dexie"
                                 ConstraintError)), w')
    ∧ db w' = sample_db ∧ local w' = [rec_a; rec_b; rec_c].
Proof.
  apply (proj1 (add_refuses_a_stored_id (sample_world []) eq_refl)
           rec_a sample_recordings); [reflexivity|].
  exists rec_a. vm_compute. reflexivity.
Defined.

(** At the database the constructor declares: [rec-z], which is not
    stored, is deleted, alone and in a list. *)
Lemma deleting_what_is_not_stored_witness :
  (∃ w', deleteRecording rec_new (opened_world []) = (Returned (Ok tt), w')
     ∧ db w' = opened_db)
  ∧ (∃ w', deleteRecordings [rec_new] (opened_world []) = (Returned (Ok tt), w')
       ∧ db w' = opened_db).
Proof.
  split.
  - apply (proj1 (deleting_what_is_not_stored_succeeds (opened_world [])
                    (mkTable id_timestamp (rows sample_recordings))
                    eq_refl eq_refl) rec_new).
    vm_compute. reflexivity.
  - apply (proj2 (deleting_what_is_not_stored_succeeds (opened_world [])
                    (mkTable id_timestamp (rows sample_recordings))
                    eq_refl eq_refl) [rec_new]).
    apply (bool_decide_unpack _). vm_compute. exact I.
Defined.

(** At the sample service: the request of [addRecording] fails. *)
Lemma failed_write_changes_nothing_witness :
  untouched (sample_world [Some (TransportError 1)])
            (addRecording rec_new (sample_world [Some (TransportError 1)])).2.
Proof.
  apply (proj1 (failed_write_changes_nothing
                  (sample_world [Some (TransportError 1)]) _
                  (please "Error adding recording to Dexie" (TransportError 1)))
           rec_new).
  vm_compute. reflexivity.
Defined.

(** At the sample service: [tr-1], which [pipe-1] lists, is deleted. *)
Lemma plain_deletes_touch_one_table_witness :
  ∃ tt' tp' step,
    transformations (db (deleteTransformation tr_1 (sample_world [])).2)
      = Some tt'
    ∧ pipelines (db (deleteTransformation tr_1 (sample_world [])).2) = Some tp'
    ∧ rows tp' !! "pipe-1" = Some pipe_1
    ∧ step ∈ Pipeline.transformations pipe_1
    ∧ rows tt' !! PipelineStep.transformationId step = None.
Proof.
  apply (proj2 (proj2 (proj2 (proj2
           (plain_deletes_touch_one_table (sample_world [])))))
           tr_1 pipe_1 sample_pipelines).
  - vm_compute. reflexivity.
  - reflexivity.
  - vm_compute. reflexivity.
  - apply (bool_decide_unpack _). vm_compute. exact I.
Defined.

(** At the sample service: a result that claims the id [res-1] and a
    completion time of its own is stored under [id-0] and stamped with
    the clock. *)
Lemma addTransformationResult_witness :
  ∃ w' t' stored,
    addTransformationResult res_new (results_world []) = (Returned (Ok tt), w')
    ∧ transformationResults (db w') = Some t'
    ∧ rows t' = <[TransformationResult.id stored := stored]> (rows sample_results)
    ∧ size (rows t') = 4
    ∧ stored = TransformationResult.mk "id-0" "run-3" "tr-1" completed
                 "2025-03-05T08:00:01.000Z" (Some "2025-04-02T12:00:00.000Z")
                 None (Some "first note")
    ∧ recordings (db w') = Some sample_recordings
    ∧ pipelines (db w') = Some sample_pipelines
    ∧ transformations (db w') = Some sample_transformations
    ∧ pipelineRuns (db w') = Some sample_pipelineRuns.
Proof.
  apply (addTransformationResult_stamps_id_and_completion res_new
           (results_world []) sample_results); reflexivity.
Defined.

(** At the database object the ledger leaves: [addPipeline]. *)
Lemma missing_table_witness :
  addPipeline pipe_new (opened_world [])
  = (Returned (Err (please "Error adding pipeline to Dexie" TypeError)),
     opened_world []).
Proof.
  apply (proj1 (proj2 (proj1 (missing_table_is_a_tagged_failure
                                (opened_world [])) eq_refl))).
Defined.

(** At the sample service: the results of [run-1], which are [res-1] and
    then [res-3]. *)
Lemma results_of_a_run_witness :
  ∃ results w',
    getTransformationResultsByPipelineRun run_1 (results_world [])
      = (Returned (Ok results), w')
    ∧ db w' = db (results_world [])
    ∧ results ≡ₚ filter (λ r, TransformationResult.pipelineRunId r = "run-1")
                        (map_to_list (rows sample_results)).*2
    ∧ (∀ r, r ∈ results ↔
         (∃ k, rows sample_results !! k = Some r)
         ∧ TransformationResult.pipelineRunId r = "run-1")
    ∧ StronglySorted
        (λ a b, (TransformationResult.id a ≤ TransformationResult.id b)%string)
        results.
Proof.
  apply (results_of_a_run_come_in_id_order run_1 (results_world [])
           sample_results); [reflexivity| |reflexivity|].
  - right. vm_compute. constructor.
  - intros k r Hk. apply elem_of_map_to_list in Hk. vm_compute in Hk.
    repeat (apply elem_of_cons in Hk as [Hk|Hk]; [by inversion Hk|]).
    by apply elem_of_nil in Hk.
Defined.

(** At the database the constructor declares: three recordings and the
    maximum [1], written behind a no-break space. *)
Lemma query_without_its_index_witness :
  ∃ w',
    cleanupExpiredRecordings keep_one_after_nbsp (opened_world [])
    = (Returned (Err (DbServiceErr "Unable to clean up old recordings"
                                   "Some old recordings could not be deleted"
                                   (SchemaError "createdAt"))), w')
    ∧ untouched (opened_world []) w'.
Proof.
  apply (proj2 (proj2 (query_without_its_index_fails (opened_world [])))
           keep_one_after_nbsp (mkTable id_timestamp (rows sample_recordings)));
    try reflexivity.
  - intros [Hp|Hi]; [discriminate Hp|].
    apply elem_of_cons in Hi as [Hi|Hi]; [discriminate Hi|].
    by apply elem_of_nil in Hi.
  - vm_compute. discriminate.
Defined.

(** At the sample service, with its three recordings: a maximum of [-1],
    and a maximum of [-4294967293], which makes the excess 2^32. *)
Lemma cleanup_negative_maximum_witness :
  (∃ w' t',
     cleanupExpiredRecordings keep_minus_one (sample_world [])
       = (Returned (Ok tt), w')
     ∧ recordings (db w') = Some t'
     ∧ rows t' = ∅)
  ∧ (∃ w',
       cleanupExpiredRecordings keep_far_below_zero (sample_world [])
       = (Returned (Err (DbServiceErr "Unable to clean up old recordings"
                                      "Some old recordings could not be deleted"
                                      TypeError)), w')
       ∧ db w' = sample_db).
Proof.
  assert (Hne : rows sample_recordings ≠ ∅).
  { intros Hempty. apply (f_equal size) in Hempty. vm_compute in Hempty.
    discriminate Hempty. }
  assert (Hi : indexed (schema sample_recordings) "createdAt").
  { right. vm_compute. constructor. }
  split.
  - apply (proj1 (cleanup_with_a_negative_maximum keep_minus_one
                    (sample_world []) sample_recordings (-1)%Z
                    eq_refl eq_refl eq_refl eq_refl Hne Hi eq_refl)).
    vm_compute. reflexivity.
  - apply (proj2 (cleanup_with_a_negative_maximum keep_far_below_zero
                    (sample_world []) sample_recordings (-4294967293)%Z
                    eq_refl eq_refl eq_refl eq_refl Hne Hi eq_refl)).
    vm_compute. split; [discriminate|reflexivity].
Defined.

(** At the sample service: three recordings, a maximum of one. *)
Lemma cleanup_leaves_the_mirror_behind_witness :
  ∃ w', cleanupExpiredRecordings keep_one (sample_world [])
        = (Returned (Ok tt), w')
        ∧ ¬ in_sync w'.
Proof.
  assert (Hi : indexed (schema sample_recordings) "createdAt").
  { right. vm_compute. constructor. }
  assert (HN : (0 ≤ 1 < Z.of_nat (size (rows sample_recordings)))%Z).
  { vm_compute. split; [discriminate|reflexivity]. }
  apply (proj1 (proj2 (cleanup_leaves_the_mirror_behind keep_one
                         (sample_world []))
                  sample_recordings 1%Z sample_world_in_sync
                  eq_refl eq_refl eq_refl eq_refl Hi HN)).
  vm_compute. reflexivity.
Defined.

(** At the sample service: adding [rec-z], deleting it, and updating it
    while it is not stored. *)
Lemma single_writes_and_the_mirror_witness :
  in_sync (addRecording rec_new (sample_world [])).2
  ∧ ¬ in_sync (updateRecording rec_new (sample_world [])).2.
Proof.
  split.
  - apply (proj1 (single_writes_and_the_mirror rec_new (sample_world []) _
                    sample_world_in_sync)).
    vm_compute. reflexivity.
  - intros Hsync.
    apply (proj2 (proj2 (single_writes_and_the_mirror rec_new (sample_world [])
                           _ sample_world_in_sync))) in Hsync;
      [|vm_compute; reflexivity].
    destruct Hsync as (t & Ht & [r Hr]). injection Ht as <-.
    vm_compute in Hr. discriminate Hr.
Defined.

Lemma v1_store_keyed :
  keyed_obj (mkTable {| primKey := "id"; indexes := ["timestamp"] |}
                     {[ "rec-a" := v1_recording ]}).
Proof.
  intros k o Hk. cbn [rows] in Hk.
  apply lookup_singleton_Some in Hk as [<- <-]. vm_compute. reflexivity.
Qed.

(** At the sample version-1 database: the fifth request, the second read
    of the v2-to-v3 upgrade, fails. *)
Lemma open_v1_is_all_or_nothing_witness :
  ∃ w',
    open (versions (λ _, ""))
         (v1_world [None; None; None; None; Some (TransportError 9)])
    = (Thrown (TransportError 9), w')
    ∧ db w' = v1_store
    ∧ ∃ d, ui w' = [] ++ [DialogOpened d].
Proof.
  apply (open_v1_is_all_or_nothing (λ _, "")
           (v1_world [None; None; None; None; Some (TransportError 9)])
           _ eq_refl eq_refl v1_store_keyed).
Defined.

(** At the sample version-1 database: the third request, the second
    [bulkAdd] of the v1-to-v2 upgrade, fails. *)
Lemma C2_failed_upgrade_witness :
  ∃ w' d,
    open (versions (λ _, ""))
         (v1_world [None; None; Some (TransportError 7)])
    = (Thrown (TransportError 7), w')
    ∧ db w' = v1_store
    ∧ ui w' = [] ++ [DialogOpened d].
Proof.
  apply (proj1 (proj2 (proj2 (proj2
           (C2_failed_upgrade_dumps_rethrows_rolls_back (λ _, "")
              (v1_world [None; None; Some (TransportError 7)])))))
           _ (TransportError 7) eq_refl eq_refl v1_store_keyed eq_refl).
Defined.

Lemma v2_metadata_keyed : keyed_obj v2_metadata.
Proof.
  change (map_Forall (λ k (o : Obj), o !! "id" = Some (VStr k))
                     (rows v2_metadata)).
  apply (bool_decide_unpack _). vm_compute. exact I.
Qed.

Lemma v2_blobs_keyed : keyed_obj v2_blobs.
Proof.
  change (map_Forall (λ k (o : Obj), o !! "id" = Some (VStr k))
                     (rows v2_blobs)).
  apply (bool_decide_unpack _). vm_compute. exact I.
Qed.

(** At the sample version-2 database: [rec-a] gets its blob back, [rec-b]
    gets [blob: undefined], and the blob of [rec-x] is gone. *)
Lemma open_v2_merges_by_id_witness :
  ∃ w' r,
    open (versions (λ _, "")) (v2_world []) = (Returned tt, w')
    ∧ version (db w') = 3
    ∧ tables (db w') = {[ "recordings" := r ]}
    ∧ schema r = id_timestamp
    ∧ (∀ k, rows r !! k
            = (λ m : Obj, <["blob" := blob_at v2_blobs k]> m)
                <$> rows v2_metadata !! k)
    ∧ ui w' = [].
Proof.
  apply (open_v2_merges_by_id (λ _, "") (v2_world []) v2_metadata v2_blobs
           eq_refl eq_refl v2_metadata_keyed v2_blobs_keyed eq_refl).
Defined.

(** At the sample version-1 database: opened, and opened again. *)
Lemma reopening_changes_nothing_witness :
  open (versions (λ _, "")) (open (versions (λ _, "")) (v1_world [])).2
  = (Returned tt, (open (versions (λ _, "")) (v1_world [])).2).
Proof.
  apply (reopening_changes_nothing (λ _, "") (v1_world [])).
  vm_compute. reflexivity.
Defined.

(** With a lookup that finds [tr-1] and a run that answers ["FIRST NOTE"]. *)
Lemma transformation_success_witness :
  "FIRST NOTE" ≠ ""
  ∧ ∃ transformation w1 run,
      (λ _ : string, ret (ServiceOk (Some tr_1))
         : Eff unit (ServiceResult unit (option Transformation.t))) "tr-1" tt
      = (Returned (ServiceOk (Some transformation)), w1)
      ∧ (λ (_ : string) (_ : Transformation.t) (_ : string),
           ret (ServiceOk {| run_error := None;
                             run_output := Some "FIRST NOTE" |})
           : Eff unit (ServiceResult unit TransformationRun))
          "first note" transformation "rec-a" w1
        = (Returned (ServiceOk run), tt)
      ∧ truthy (run_error run) = false
      ∧ run_output run = Some "FIRST NOTE".
Proof.
  apply (proj1 (transformation_success_is_a_real_output
                  (λ _, ret (ServiceOk (Some tr_1)))
                  (λ _ _ _, ret (ServiceOk {| run_error := None;
                                              run_output := Some "FIRST NOTE" |}))
                  "first note" "tr-1" "rec-a" tt)).
  reflexivity.
Defined.

(** At the sample service: a run of [pipe-1] over [rec-a] is started, then
    looked up under the id it was given. *)
Lemma written_run_is_read_back_witness :
  (getPipelineRun "id-0" (startPipelineRun pipe_1 rec_a (sample_world [])).2).1
  = Returned (Ok (Some (PipelineRun.mk "id-0" "pipe-1" "rec-a" "first note"
                          running "2025-04-02T12:00:00.000Z" None None None))).
Proof.
  assert (Hstart : startPipelineRun pipe_1 rec_a (sample_world []) =
                   (Returned (Ok tt),
                    (startPipelineRun pipe_1 rec_a (sample_world [])).2))
    by (vm_compute; reflexivity).
  exact (proj1 (written_run_is_read_back pipe_1 rec_a run_new
                  (sample_world []) _) Hstart).
Defined.

(** At the sample service with [pipe-2]: [pipe-1] is deleted with its
    transformations, among them [tr-1], which [pipe-2] lists. *)
Lemma cascade_ignores_sharing_witness :
  ∃ tp' tt' step,
    pipelines (db (deletePipelineWithAssociatedTransformations pipe_1
                     (shared_world [])).2) = Some tp'
    ∧ rows tp' !! "pipe-2" = Some pipe_2
    ∧ step ∈ Pipeline.transformations pipe_2
    ∧ PipelineStep.transformationId step = "tr-1"
    ∧ transformations (db (deletePipelineWithAssociatedTransformations pipe_1
                             (shared_world [])).2) = Some tt'
    ∧ rows tt' !! "tr-1" = None.
Proof.
  apply (cascade_ignores_sharing pipe_1 pipe_2 "tr-1" (shared_world []) _
           (mkTable {| primKey := "id"; indexes := [] |}
                    {[ "pipe-1" := pipe_1; "pipe-2" := pipe_2 ]})).
  - vm_compute. reflexivity.
  - reflexivity.
  - vm_compute. reflexivity.
  - discriminate.
  - apply (bool_decide_unpack _). vm_compute. exact I.
  - apply (bool_decide_unpack _). vm_compute. exact I.
Defined.
